(** * ftg_containers: growable array, hash index, variant, dictionary

    A shallow embedding of [src/3rdparty/ftg_containers.h] and the
    properties its specification states about it.

    Conventions of the embedding.
    - C integers are [Z]; [size_t] arithmetic is written with its
      wrap-around modulo [2^64], [ftgc_uint32] arithmetic modulo [2^32].
    - [FTGC__ASSERT(exp)] expands to [((void)0)] unless [FTG_ASSERT] is
      defined, so function bodies are embedded without their assertions;
      where a property is about an asserted condition, the condition is
      kept as a boolean predicate named after the function.
    - Every call of [FTGC_MALLOC] / [FTGC_REALLOC] takes its outcome as an
      argument of the embedded function (the allocator's answer), so that
      allocation failure is an input a theorem can quantify over.
    - An access outside an array, or through an invalid pointer, is
      undefined in C, and so is an [int] product that does not fit an
      [int]; the embedding returns [Fault] there and never a made-up
      value. *)

From Stdlib Require Import ZArith Lia Ascii String.
From stdpp Require Import base option list gmap strings.

Local Open Scope Z_scope.

(** ** Outcomes of embedded C code *)

Inductive fault : Type :=
  | OutOfBounds      (* array indexed outside its allocation *)
  | InvalidPointer   (* NULL or dangling pointer dereferenced *)
  | IntOverflow      (* signed [int] arithmetic left the range of [int] *)
  | OutOfFuel.       (* loop bound of the embedding exhausted *)

Inductive result (A : Type) : Type :=
  | Ok (a : A)
  | Fault (f : fault).
Arguments Ok {A} a.
Arguments Fault {A} f.

#[global] Instance result_ret : MRet result := fun A a => Ok a.
#[global] Instance result_bind : MBind result := fun A B k m =>
  match m with
  | Ok a => k a
  | Fault f => Fault f
  end.

Definition is_Ok {A} (r : result A) : Prop := exists a, r = Ok a.

(** Array read and write with the bounds C leaves unchecked. *)
Definition arr_get {A} (l : list A) (i : Z) : result A :=
  if bool_decide (0 <= i) then
    match l !! Z.to_nat i with
    | Some a => Ok a
    | None => Fault OutOfBounds
    end
  else Fault OutOfBounds.

Definition arr_set {A} (l : list A) (i : Z) (a : A) : result (list A) :=
  if bool_decide (0 <= i < Z.of_nat (length l))
  then Ok (<[Z.to_nat i := a]> l)
  else Fault OutOfBounds.

(** ** C strings and the heap *)

(** A C string argument is the byte sequence found at its address; it
    ends at the first NUL, or where the sequence ends. *)
Definition NUL : ascii := "000"%char.

Definition is_nul (c : ascii) : bool := bool_decide (c = NUL).

Fixpoint c_str (s : list ascii) : list ascii :=
  match s with
  | [] => []
  | c :: rest => if is_nul c then [] else c :: c_str rest
  end.

Definition strlen (s : list ascii) : nat := length (c_str s).

(** Pointers to heap blocks; [NULL] is 0. The heap maps the address of
    every live block to its bytes. *)
Definition ptr : Type := Z.
Definition NULL : ptr := 0.

(** [FTGC_FREE(p)]: [free(NULL)] does nothing; freeing an address that is
    not live is undefined. *)
Definition FTGC_FREE (h : gmap Z (list ascii)) (p : ptr)
    : result (gmap Z (list ascii)) :=
  if bool_decide (p = NULL) then Ok h
  else
    match h !! p with
    | Some _ => Ok (delete p h)
    | None => Fault InvalidPointer
    end.

Definition heap_read (h : gmap Z (list ascii)) (p : ptr) : result (list ascii) :=
  match h !! p with
  | Some s => Ok s
  | None => Fault InvalidPointer
  end.

(** ** 1. Resizable arrays *)

Module Array.

Definition SIZE_MAX1 : Z := 2 ^ 64.

(** [(int)((float)old_elem_count * 1.5f)]: for [old_elem_count < 2^22]
    the conversion to [float] and the product are exact, and the cast
    truncates, which is [old * 3 / 2]. Outside that range the C value
    depends on rounding (and, past [INT_MAX], is undefined); theorems
    that depend on this value carry the bound. *)
Definition expand_elem_count (old_elem_count : Z) : Z :=
  old_elem_count * 3 / 2.

Definition ftgc__default_new_elem_count (old_elem_count incr_elems : Z) : Z :=
  let expand_new_elem_count := expand_elem_count old_elem_count in
  let min_new_elem_count := (old_elem_count + incr_elems) mod SIZE_MAX1 in
  if bool_decide (min_new_elem_count > expand_new_elem_count)
  then min_new_elem_count
  else expand_new_elem_count.

(** The block behind a non-NULL array pointer: the two housekeeping
    words [raw[0]] (element capacity) and [raw[1]] (number stored), the
    element count the block was last (re)allocated for, and the stored
    elements [a[0 .. raw[1])]. *)
Record ftgc_array (T : Type) : Type := mk_array {
  raw_size : Z;
  raw_count : Z;
  raw_alloc : Z;
  elems : list T
}.
Arguments mk_array {T}.
Arguments raw_size {T}.
Arguments raw_count {T}.
Arguments raw_alloc {T}.
Arguments elems {T}.

(** An array handle is a possibly-NULL pointer to such a block. *)
Definition handle (T : Type) : Type := option (ftgc_array T).

Definition ftgc__array_size {T} (a : ftgc_array T) : Z := raw_size a.

Definition ftgc_array_count {T} (a : handle T) : Z :=
  match a with
  | Some b => raw_count b
  | None => 0
  end.

Definition ftgc__array_test_needs_to_grow {T} (a : handle T) (n : Z) : bool :=
  match a with
  | None => true
  | Some b => bool_decide ((raw_count b + n) mod SIZE_MAX1 > ftgc__array_size b)
  end.

(** [ftgc__array_grow]; [realloc_ok] is the outcome of [FTGC_REALLOC].
    The result is the new value of [*array]. *)
Definition ftgc__array_grow {T} (realloc_ok : bool) (array : handle T)
    (incr_elems : Z) : handle T :=
  let old_elem_count :=
    match array with Some b => ftgc__array_size b | None => 0 end in
  let new_elem_count := ftgc__default_new_elem_count old_elem_count incr_elems in
  if realloc_ok then
    let b :=
      match array with
      | Some b => mk_array (raw_size b) (raw_count b) new_elem_count (elems b)
      | None => mk_array 0 0 new_elem_count []   (* housekeeping uninitialised *)
      end in
    let b :=
      if bool_decide (old_elem_count = 0)
      then mk_array 0 0 (raw_alloc b) (elems b)
      else b in
    Some (mk_array ((raw_size b + incr_elems) mod SIZE_MAX1)
                   (raw_count b) (raw_alloc b) (elems b))
  else
    array. (* keep old data on alloc fail *)

Definition ftgc__array_grow_if_needed {T} (realloc_ok : bool) (a : handle T)
    (n : Z) : handle T :=
  if ftgc__array_test_needs_to_grow a n
  then ftgc__array_grow realloc_ok a n
  else a.

(** [ftgc_array_append(a,d)]: grow if needed, then
    [(a)[ftgc__array_raw(a)[1]++] = (d)]. *)
Definition ftgc_array_append {T} (realloc_ok : bool) (a : handle T) (d : T)
    : result (handle T) :=
  match ftgc__array_grow_if_needed realloc_ok a 1 with
  | None => Fault InvalidPointer
  | Some b =>
      if bool_decide (0 <= raw_count b < raw_alloc b)
      then Ok (Some (mk_array (raw_size b) ((raw_count b + 1) mod SIZE_MAX1)
                              (raw_alloc b)
                              (take (Z.to_nat (raw_count b)) (elems b) ++ [d])))
      else Fault OutOfBounds
  end.

Definition ftgc_array_reserve {T} (realloc_ok : bool) (a : handle T) (n : Z)
    : handle T :=
  ftgc__array_grow realloc_ok a n.

Definition ftgc_array_init {T} (realloc_ok : bool) (n : Z) : handle T :=
  ftgc_array_reserve realloc_ok (None : handle T) n.

(** The array invariant of the data model, with the sizes in range. *)
Definition array_wf {T} (a : handle T) : Prop :=
  match a with
  | None => True
  | Some b =>
      0 <= raw_count b <= raw_size b /\
      raw_size b <= raw_alloc b /\
      raw_size b < 2 ^ 22
  end.

Definition capacity {T} (a : handle T) : Z :=
  match a with Some b => raw_size b | None => 0 end.

Definition allocated {T} (a : handle T) : Z :=
  match a with Some b => raw_alloc b | None => 0 end.

(** The array of the source's test before its fifth append: capacity 4,
    four elements stored. *)
Definition array4 : handle Z := Some (mk_array 4 4 4 [0; 1; 2; 3]).

(** [a[j]]: the element stored at index [j]. A NULL array has no
    elements to read, and a cell that was never stored holds no defined
    value. *)
Definition array_index {T} (a : handle T) (j : Z) : result T :=
  match a with
  | None => Fault InvalidPointer
  | Some b => arr_get (elems b) j
  end.

(** [ftgc_array_last(a)] is [(a)[ftgc_array_count(a)-1]], the subtraction
    being one of [size_t]. *)
Definition ftgc_array_last {T} (a : handle T) : result T :=
  array_index a ((ftgc_array_count a - 1) mod SIZE_MAX1).

(** [ftgc_array_free(a)]: the block is released and [a] set to NULL; a
    NULL [a] is left alone. *)
Definition ftgc_array_free {T} (a : handle T) : handle T := None.

(** [ftgc_array_append] of each element of [l] in turn, the allocator
    answering [realloc_ok] every time it is asked. *)
Fixpoint append_all {T} (realloc_ok : bool) (a : handle T) (l : list T)
    : result (handle T) :=
  match l with
  | [] => Ok a
  | d :: rest => a' ← ftgc_array_append realloc_ok a d;
                 append_all realloc_ok a' rest
  end.

Definition array_elems {T} (a : handle T) : list T :=
  match a with Some b => elems b | None => [] end.

(** [array_wf] together with what the block holds: exactly the
    [raw_count] elements stored so far. *)
Definition array_ok {T} (a : handle T) : Prop :=
  array_wf a /\ Z.of_nat (length (array_elems a)) = ftgc_array_count a.

End Array.

(** ** 2. Hashindex *)

Module HashIndex.

Definition FTGC_HASHINDEX_UNUSED : Z := -1.
Definition FTGC_HASHINDEX_DELETED : Z := -2.

(** Conversion of a mathematical integer to [ftgc_sint32] / [ftgc_uint32]. *)
Definition sint32 (z : Z) : Z := (z + 2 ^ 31) mod 2 ^ 32 - 2 ^ 31.
Definition uint32 (z : Z) : Z := z mod 2 ^ 32.

(** [struct ftgc__hashlink_s { int value; struct ftgc__hashlink_s *next; }]:
    a node together with everything reachable through [next]. [Link_end]
    is a node whose [next] is NULL. *)
Inductive ftgc__hashlink_s : Type :=
  | Link_end (value : Z)
  | Link (value : Z) (next : ftgc__hashlink_s).

Definition link_value (n : ftgc__hashlink_s) : Z :=
  match n with
  | Link_end v => v
  | Link v _ => v
  end.

Definition link_next (n : ftgc__hashlink_s) : option ftgc__hashlink_s :=
  match n with
  | Link_end _ => None
  | Link _ nx => Some nx
  end.

Record ftgc_hashindex_s : Type := mk_hashindex {
  table : list Z;
  chain : list ftgc__hashlink_s;
  table_size : Z;
  hash_mask : Z
}.

(** A pointer to a chain node is the slot whose inline node [chain[slot]]
    anchors the list and the number of [next] links followed from it.
    Nodes are only ever appended at the end of a list and never unlinked,
    so this names a node for the lifetime of the index. *)
Definition node_ptr : Type := (Z * nat)%type.

Record ftgc_hashindex_iter_s : Type := mk_iter {
  current_node : option node_ptr;
  prev_node : option node_ptr
}.

(** The node [d] links after [n]. *)
Fixpoint node_at (n : ftgc__hashlink_s) (d : nat) {struct d}
    : option ftgc__hashlink_s :=
  match d with
  | O => Some n
  | S d' =>
      match n with
      | Link_end _ => None
      | Link _ nx => node_at nx d'
      end
  end.

(** [p->value = v] for the node [d] links after [n]. *)
Fixpoint set_node_value (n : ftgc__hashlink_s) (d : nat) (v : Z)
    : ftgc__hashlink_s :=
  match d, n with
  | O, Link_end _ => Link_end v
  | O, Link _ nx => Link v nx
  | S d', Link w nx => Link w (set_node_value nx d' v)
  | S _, Link_end w => Link_end w
  end.

(** [p->next = nx] for the node [d] links after [n]. *)
Fixpoint set_node_next (n : ftgc__hashlink_s) (d : nat)
    (nx : option ftgc__hashlink_s) : ftgc__hashlink_s :=
  match d, n with
  | O, _ =>
      match nx with
      | Some m => Link (link_value n) m
      | None => Link_end (link_value n)
      end
  | S d', Link w m => Link w (set_node_next m d' nx)
  | S _, Link_end w => Link_end w
  end.

Definition node_deref (ctx : ftgc_hashindex_s) (p : node_ptr)
    : result ftgc__hashlink_s :=
  c ← arr_get (chain ctx) p.1;
  match node_at c p.2 with
  | Some n => Ok n
  | None => Fault InvalidPointer
  end.

Definition ftgc__pow2_roundup (v : Z) : Z :=
  let v := sint32 (v - 1) in
  let v := Z.lor v (Z.shiftr v 1) in
  let v := Z.lor v (Z.shiftr v 2) in
  let v := Z.lor v (Z.shiftr v 4) in
  let v := Z.lor v (Z.shiftr v 8) in
  let v := Z.lor v (Z.shiftr v 16) in
  sint32 (v + 1).

(** [ftgc__get_chain_end]: the last node, as the number of links from
    [node] to it. *)
Fixpoint ftgc__get_chain_end (node : ftgc__hashlink_s) : nat :=
  match node with
  | Link_end _ => O
  | Link _ nx => S (ftgc__get_chain_end nx)
  end.

(** [ftgc__is_value_in_chain]: the loop condition is [current->next], so
    the last node is never compared. *)
Fixpoint ftgc__is_value_in_chain (start : ftgc__hashlink_s) (value : Z) : bool :=
  match start with
  | Link_end _ => false
  | Link v nx => if bool_decide (v = value) then true
                 else ftgc__is_value_in_chain nx value
  end.

(** [ftgc__append_node] on the node [chain_end] links into chain [c];
    [malloc_ok] is the outcome of [FTGC_MALLOC]. *)
Definition ftgc__append_node (malloc_ok : bool) (c : ftgc__hashlink_s)
    (chain_end : nat) : ftgc__hashlink_s :=
  if malloc_ok
  then set_node_next c chain_end (Some (Link_end FTGC_HASHINDEX_UNUSED))
  else set_node_next c chain_end None.

(** [ftgc_hashindex_init]; returns the [int] result and the context. When
    an allocation fails the context has no storage. *)
Definition ftgc_hashindex_init (malloc_table_ok malloc_chain_ok : bool)
    (vert_size : Z) : Z * ftgc_hashindex_s :=
  let table_size := ftgc__pow2_roundup vert_size in
  let hash_mask := sint32 (table_size - 1) in
  if negb malloc_table_ok then
    (0, mk_hashindex [] [] table_size hash_mask)
  else if negb malloc_chain_ok then
    (0, mk_hashindex [] [] table_size hash_mask)
  else
    (1, mk_hashindex
          (replicate (Z.to_nat table_size) FTGC_HASHINDEX_UNUSED)
          (replicate (Z.to_nat table_size) (Link_end FTGC_HASHINDEX_UNUSED))
          table_size hash_mask).

(** A [char] read as [(ftgc_uint32)*p], with [char] signed as on the
    Linux targets this library is built for. *)
Definition char_code (c : ascii) : Z := Z.of_N (N_of_ascii c).
Definition char_signed (c : ascii) : Z :=
  if bool_decide (char_code c < 128) then char_code c else char_code c - 256.

Definition hash_step (hash : Z) (c : ascii) : Z :=
  let hash := uint32 (Z.shiftl hash 4 + uint32 (char_signed c)) in
  let x := Z.land hash 4026531840 (* 0xF0000000L *) in
  let hash := if bool_decide (x <> 0)
              then Z.lxor hash (Z.shiftr x 24) else hash in
  Z.land hash (uint32 (Z.lnot x)).

(** The loop [for (p=str;*p;p++)]. *)
Fixpoint hash_string (str : list ascii) (hash : Z) : Z :=
  match str with
  | [] => hash
  | c :: rest =>
      if is_nul c then hash
      else hash_string rest (hash_step hash c)
  end.

Definition ftgc_hashindex_generate_key_string (ctx : ftgc_hashindex_s)
    (str : list ascii) : Z :=
  sint32 (Z.land (hash_string str 0) (uint32 (hash_mask ctx))).

Definition set_table (ctx : ftgc_hashindex_s) (t : list Z) : ftgc_hashindex_s :=
  mk_hashindex t (chain ctx) (table_size ctx) (hash_mask ctx).

Definition set_chain (ctx : ftgc_hashindex_s) (c : list ftgc__hashlink_s)
    : ftgc_hashindex_s :=
  mk_hashindex (table ctx) c (table_size ctx) (hash_mask ctx).

(** [ftgc_hashindex_add_key]; [malloc_ok] is the outcome of the
    [FTGC_MALLOC] in [ftgc__append_node], consulted only when that call is
    reached. Returns the [int] result and the updated index. *)
Definition ftgc_hashindex_add_key (malloc_ok : bool) (ctx : ftgc_hashindex_s)
    (key value : Z) : result (Z * ftgc_hashindex_s) :=
  t ← arr_get (table ctx) key;
  if bool_decide (t = FTGC_HASHINDEX_UNUSED) || bool_decide (t = FTGC_HASHINDEX_DELETED)
  then
    t' ← arr_set (table ctx) key value;
    Ok (0, set_table ctx t')
  else if bool_decide (t = value) then Ok (1, ctx)
  else
    c ← arr_get (chain ctx) key;
    if ftgc__is_value_in_chain c value then Ok (1, ctx)
    else
      let chain_end := ftgc__get_chain_end c in
      let c := set_node_value c chain_end value in
      let c := ftgc__append_node malloc_ok c chain_end in
      ch ← arr_set (chain ctx) key c;
      match node_at c chain_end ≫= link_next with
      | None => Ok (-1, set_chain ctx ch)  (* oom *)
      | Some _ => Ok (1, set_chain ctx ch)
      end.

(** The two [FTGC__ASSERT]s that open [ftgc_hashindex_remove_first] and
    [ftgc_hashindex_iter_get_first]. *)
Definition ftgc_hashindex_remove_first_asserts (ctx : ftgc_hashindex_s)
    (key : Z) : bool :=
  bool_decide (key <= table_size ctx) && bool_decide (key >= 0).

Definition ftgc_hashindex_iter_get_first_asserts (ctx : ftgc_hashindex_s)
    (key : Z) : bool :=
  bool_decide (key >= 0) && bool_decide (key <= table_size ctx).

Definition ftgc_hashindex_remove_first (ctx : ftgc_hashindex_s) (key : Z)
    : result ftgc_hashindex_s :=
  t ← arr_set (table ctx) key FTGC_HASHINDEX_DELETED;
  Ok (set_table ctx t).

(** [ftgc_hashindex_iter_get_first]; [iter] is [None] for a NULL [*iter].
    Returns the [int] result and what [*iter] holds afterwards. *)
Definition ftgc_hashindex_iter_get_first (ctx : ftgc_hashindex_s)
    (iter : option ftgc_hashindex_iter_s) (key : Z)
    : result (Z * option ftgc_hashindex_iter_s) :=
  let iter := match iter with
              | Some _ => Some (mk_iter (Some (key, O)) None)
              | None => None
              end in
  t ← arr_get (table ctx) key;
  Ok (t, iter).

(** The loop that opens [ftgc_hashindex_iter_get_next]: from node [n],
    [d] links into its chain, follow [next] while the value is DELETED.
    [Some d'] is the node the loop stops at, [None] a NULL
    [current_node]. *)
Fixpoint skip_deleted (n : ftgc__hashlink_s) (d : nat) : option nat :=
  if bool_decide (link_value n <> FTGC_HASHINDEX_DELETED) then Some d
  else
    match n with
    | Link_end _ => None
    | Link _ nx => skip_deleted nx (S d)
    end.

Definition ftgc_hashindex_iter_get_next (ctx : ftgc_hashindex_s)
    (iter : ftgc_hashindex_iter_s) : result (Z * ftgc_hashindex_iter_s) :=
  match current_node iter with
  | None => Ok (-1, iter)
  | Some (k, d) =>
      n ← node_deref ctx (k, d);
      match skip_deleted n d with
      | None => Ok (-1, mk_iter None (prev_node iter))
      | Some d' =>
          n' ← node_deref ctx (k, d');
          Ok (link_value n',
              mk_iter (match link_next n' with
                       | Some _ => Some (k, S d')
                       | None => None
                       end)
                      (Some (k, d')))
      end
  end.

Definition ftgc_hashindex_iter_remove_current (ctx : ftgc_hashindex_s)
    (iter : ftgc_hashindex_iter_s) : result ftgc_hashindex_s :=
  match prev_node iter with
  | None => Fault InvalidPointer
  | Some (k, d) =>
      _ ← node_deref ctx (k, d);
      c ← arr_get (chain ctx) k;
      ch ← arr_set (chain ctx) k (set_node_value c d FTGC_HASHINDEX_DELETED);
      Ok (set_chain ctx ch)
  end.

(** The iteration idiom of the header,
    [for (v = get_first(ctx,&iter,key); v != UNUSED; v = get_next(&iter))]:
    the values it visits, in order. [fuel] bounds the number of rounds. *)
Fixpoint iter_collect (fuel : nat) (ctx : ftgc_hashindex_s)
    (iter : ftgc_hashindex_iter_s) (v : Z) : result (list Z) :=
  match fuel with
  | O => Fault OutOfFuel
  | S fuel' =>
      if bool_decide (v = FTGC_HASHINDEX_UNUSED) then Ok []
      else
        '(v', iter') ← ftgc_hashindex_iter_get_next ctx iter;
        rest ← iter_collect fuel' ctx iter' v';
        Ok (v :: rest)
  end.

Definition iter_sequence (fuel : nat) (ctx : ftgc_hashindex_s) (key : Z)
    : result (list Z) :=
  '(v, iter) ← ftgc_hashindex_iter_get_first ctx (Some (mk_iter None None)) key;
  match iter with
  | Some it => iter_collect fuel ctx it v
  | None => Fault InvalidPointer
  end.

(** Values of the nodes of a chain, in link order. *)
Fixpoint link_values (n : ftgc__hashlink_s) : list Z :=
  match n with
  | Link_end v => [v]
  | Link v nx => v :: link_values nx
  end.

(** Values of all nodes but the last one. *)
Fixpoint link_stored (n : ftgc__hashlink_s) : list Z :=
  match n with
  | Link_end _ => []
  | Link v nx => v :: link_stored nx
  end.

Fixpoint link_last (n : ftgc__hashlink_s) : Z :=
  match n with
  | Link_end v => v
  | Link _ nx => link_last nx
  end.

(** Everything a slot holds, in iteration order: the table entry, then
    the chain nodes. *)
Definition slot_entries (ctx : ftgc_hashindex_s) (key : Z) : result (list Z) :=
  t ← arr_get (table ctx) key;
  c ← arr_get (chain ctx) key;
  Ok (t :: link_values c).

(** The data-model invariant: table and chain array have [table_size]
    cells, and every chain ends in its pre-allocated UNUSED node. *)
Definition hashindex_wf (ctx : ftgc_hashindex_s) : Prop :=
  0 <= table_size ctx /\
  Z.of_nat (length (table ctx)) = table_size ctx /\
  Z.of_nat (length (chain ctx)) = table_size ctx /\
  Forall (fun c => link_last c = FTGC_HASHINDEX_UNUSED) (chain ctx).

(** Operations a caller can apply to an index, with the allocator's
    answer where one is consulted. *)
Inductive hashindex_op : Type :=
  | OpAddKey (malloc_ok : bool) (key value : Z)
  | OpRemoveFirst (key : Z).

Definition run_op (ctx : ftgc_hashindex_s) (op : hashindex_op)
    : result ftgc_hashindex_s :=
  match op with
  | OpAddKey ok key value =>
      r ← ftgc_hashindex_add_key ok ctx key value; Ok r.2
  | OpRemoveFirst key => ftgc_hashindex_remove_first ctx key
  end.

Fixpoint run_ops (ctx : ftgc_hashindex_s) (ops : list hashindex_op)
    : result ftgc_hashindex_s :=
  match ops with
  | [] => Ok ctx
  | op :: rest => ctx' ← run_op ctx op; run_ops ctx' rest
  end.

(** The prefix of a list before its first UNUSED. *)
Fixpoint until_unused (l : list Z) : list Z :=
  match l with
  | [] => []
  | v :: rest =>
      if bool_decide (v = FTGC_HASHINDEX_UNUSED) then []
      else v :: until_unused rest
  end.

Definition not_deleted (v : Z) : bool :=
  negb (bool_decide (v = FTGC_HASHINDEX_DELETED)).

(** What the iteration idiom visits on a slot with table entry [t] and
    chain [c]: the table entry, then the chain values that are not
    DELETED, up to the first UNUSED. *)
Definition visited (t : Z) (c : ftgc__hashlink_s) : list Z :=
  until_unused (t :: List.filter not_deleted (link_values c)).

(** A table of four slots, as [ftgc_hashindex_init(&t, 4)] leaves it. *)
Definition index4 : ftgc_hashindex_s := (ftgc_hashindex_init true true 4).2.

(** Three values added under key 1, then the first chained one removed
    through the iterator: [get_first], [get_next],
    [iter_remove_current]. *)
Definition index4_removed_in_chain : result ftgc_hashindex_s :=
  ctx ← run_ops index4 [OpAddKey true 1 5; OpAddKey true 1 7; OpAddKey true 1 9];
  '(_, iter) ← ftgc_hashindex_iter_get_first ctx (Some (mk_iter None None)) 1;
  match iter with
  | None => Fault InvalidPointer
  | Some it =>
      '(_, it) ← ftgc_hashindex_iter_get_next ctx it;
      ftgc_hashindex_iter_remove_current ctx it
  end.


(** Value 7 chained behind 5, the head removed, 7 added again. *)
Definition index4_readded : result ftgc_hashindex_s :=
  run_ops index4
    [OpAddKey true 1 5; OpAddKey true 1 7; OpRemoveFirst 1; OpAddKey true 1 7].

(** The nodes of a chain hold pairwise distinct values: no value is held
    by two of the nodes before the last, and the last node, unless it is
    the unused trailing node, holds none of their values. *)
Definition chain_distinct (c : ftgc__hashlink_s) : Prop :=
  NoDup (link_stored c) /\
  (link_last c = FTGC_HASHINDEX_UNUSED \/ link_last c ∉ link_stored c).

(** The values the iterator visits on a slot whose table entry is [t]
    and whose chain is [c], when no entry is DELETED and the chain ends
    in its UNUSED node. *)
Definition bucket_of (t : Z) (c : ftgc__hashlink_s) : list Z :=
  if bool_decide (t = FTGC_HASHINDEX_UNUSED) then [] else t :: link_stored c.

(** The distinct values of a sequence, in order of first occurrence. *)
Definition add_distinct (acc : list Z) (v : Z) : list Z :=
  if bool_decide (v ∈ acc) then acc else acc ++ [v].

Definition distinct_values (vs : list Z) : list Z :=
  foldl add_distinct [] vs.

(** [ftgc_hashindex_free]: both blocks are released and the context
    zeroed. The nodes linked behind the inline chain nodes are not
    walked. *)
Definition ftgc_hashindex_free (ctx : ftgc_hashindex_s) : ftgc_hashindex_s :=
  mk_hashindex [] [] 0 0.

(** One line of [ftgc_hashindex_generate_key_int],
    [value = ((value >> 16) ^ value) * 0x45d9f3b], on [int]: the shift of
    a negative value is the arithmetic one and the product is reduced to
    32 bits, as the compilers of the library's targets do (the C standard
    leaves the first to the implementation and an overflowing product
    undefined). *)
Definition int_mix (value : Z) : Z :=
  sint32 (Z.lxor (Z.shiftr value 16) value * 73244475 (* 0x45d9f3b *)).

Definition ftgc_hashindex_generate_key_int (ctx : ftgc_hashindex_s)
    (value : Z) : Z :=
  let value := int_mix value in
  let value := int_mix value in
  let value := Z.lxor (Z.shiftr value 16) value in
  Z.land value (hash_mask ctx).

(** The eight bytes [intptr.c] of a pointer, least significant first. *)
Definition ptr_bytes (p : Z) : list Z :=
  map (fun j => Z.land (Z.shiftr p (8 * Z.of_nat j)) 255) (seq 0 8).

(** [FTGC__SWAP(a,b)]: three exclusive-ors on the bytes [c[a]], [c[b]]. *)
Definition FTGC__SWAP (c : list Z) (a b : nat) : list Z :=
  let c := <[a := Z.lxor (c !!! a) (c !!! b)]> c in
  let c := <[b := Z.lxor (c !!! b) (c !!! a)]> c in
  <[a := Z.lxor (c !!! a) (c !!! b)]> c.

(** The [uint32_t] made of the four bytes of [c] from index [k] on. *)
Definition word_at (c : list Z) (k : nat) : Z :=
  c !!! k + c !!! (k + 1)%nat * 2 ^ 8 + c !!! (k + 2)%nat * 2 ^ 16
  + c !!! (k + 3)%nat * 2 ^ 24.

(** [ftgc_hashindex_generate_key_ptr], the branch taken where pointers
    have eight bytes; the members of [union intptr_u] share their bytes
    in little-endian order. *)
Definition ftgc_hashindex_generate_key_ptr (ctx : ftgc_hashindex_s)
    (p : Z) : Z :=
  let c := ptr_bytes p in
  let c := FTGC__SWAP c 1 5 in
  let c := FTGC__SWAP c 3 7 in
  ftgc_hashindex_generate_key_int ctx
    (sint32 (Z.land (word_at c 0) (uint32 (Z.lnot (word_at c 4))))).

(** Rounds that suffice to iterate slot [key]: one per chain node, and
    two more for the table entry and the final UNUSED. *)
Definition iter_fuel (ctx : ftgc_hashindex_s) (key : Z) : nat :=
  match chain ctx !! Z.to_nat key with
  | Some c => length (link_values c) + 2
  | None => 2
  end.

(** The values the iteration idiom visits on slot [key]. *)
Definition iterate (ctx : ftgc_hashindex_s) (key : Z) : result (list Z) :=
  iter_sequence (iter_fuel ctx key) ctx key.

(** No chain node that holds a value holds the end marker: the state of
    every chain to which only values other than UNUSED were added. *)
Definition chains_clean (ctx : ftgc_hashindex_s) : Prop :=
  Forall (fun c => FTGC_HASHINDEX_UNUSED ∉ link_stored c) (chain ctx).

(** A chain holds values only behind a table entry that was used: the
    state of every index from which no table entry was reset to UNUSED. *)
Definition chains_follow_table (ctx : ftgc_hashindex_s) : Prop :=
  forall k t c,
    table ctx !! k = Some t -> chain ctx !! k = Some c ->
    t = FTGC_HASHINDEX_UNUSED -> link_stored c = [].

End HashIndex.

(** ** 3. Variants *)

Module Variant.

Inductive ftgc_variant_type_t : Type :=
  | FTGC_VARTYPE_VOID
  | FTGC_VARTYPE_VOIDPTR
  | FTGC_VARTYPE_BOOL
  | FTGC_VARTYPE_SINT32
  | FTGC_VARTYPE_UINT32
  | FTGC_VARTYPE_FLOAT
  | FTGC_VARTYPE_VEC2
  | FTGC_VARTYPE_VEC3
  | FTGC_VARTYPE_STRING.

#[global] Instance ftgc_variant_type_eq_dec : EqDecision ftgc_variant_type_t.
Proof. solve_decision. Defined.

(** [ftgc_variant_s], restricted to the [val_str] member of its union and
    the tag. The other members are read only by accessors that are not
    embedded here, under their own tags. *)
Record ftgc_variant_s : Type := mk_variant {
  external_storage : ptr;
  internal_storage : ptr;
  field_type : ftgc_variant_type_t
}.

(** [FTGC__VARIANT_ZERO]: both string pointers become NULL. *)
Definition FTGC__VARIANT_ZERO (x : ftgc_variant_s) : ftgc_variant_s :=
  mk_variant NULL NULL (field_type x).

Definition set_field_type (x : ftgc_variant_s) (t : ftgc_variant_type_t)
    : ftgc_variant_s :=
  mk_variant (external_storage x) (internal_storage x) t.

(** [FTGC__VARIANT_CLEAR]. *)
Definition FTGC__VARIANT_CLEAR (h : gmap Z (list ascii)) (x : ftgc_variant_s)
    : result (gmap Z (list ascii) * ftgc_variant_s) :=
  h' ← (if bool_decide (field_type x = FTGC_VARTYPE_STRING) &&
           negb (bool_decide (internal_storage x = NULL))
        then FTGC_FREE h (internal_storage x)
        else Ok h);
  Ok (h', set_field_type (FTGC__VARIANT_ZERO x) FTGC_VARTYPE_VOID).

Definition ftgc_variant_init (ctx : ftgc_variant_s) : ftgc_variant_s :=
  set_field_type (FTGC__VARIANT_ZERO ctx) FTGC_VARTYPE_VOID.

Definition ftgc_variant_free (h : gmap Z (list ascii)) (ctx : ftgc_variant_s)
    : result (gmap Z (list ascii) * ftgc_variant_s) :=
  h' ← (if bool_decide (field_type ctx = FTGC_VARTYPE_STRING) &&
           negb (bool_decide (internal_storage ctx = NULL))
        then FTGC_FREE h (internal_storage ctx)
        else Ok h);
  Ok (h', ftgc_variant_init ctx).

(** [ftgc_variant_set_string]; [malloc_result] is what [FTGC_MALLOC]
    returns (NULL on failure), [str] the address of the string to copy.
    Returns the [int] result, the heap and the variant. *)
Definition ftgc_variant_set_string (malloc_result : ptr)
    (h : gmap Z (list ascii)) (ctx : ftgc_variant_s) (str : ptr)
    : result (Z * gmap Z (list ascii) * ftgc_variant_s) :=
  '(h, ctx) ← FTGC__VARIANT_CLEAR h ctx;
  let ctx := set_field_type ctx FTGC_VARTYPE_STRING in
  s ← heap_read h str;                   (* strlen(str) *)
  let ctx := mk_variant (external_storage ctx) malloc_result (field_type ctx) in
  if bool_decide (internal_storage ctx = NULL) then Ok (0, h, ctx)
  else
    (* memcpy(ctx->val_str.internal_storage, str, bytes) *)
    Ok (1, <[internal_storage ctx := c_str s ++ [NUL]]> h, ctx).

(** [ftgc_variant_set_string_ptr]. *)
Definition ftgc_variant_set_string_ptr (h : gmap Z (list ascii))
    (ctx : ftgc_variant_s) (p_str : ptr)
    : result (gmap Z (list ascii) * ftgc_variant_s) :=
  '(h, ctx) ← FTGC__VARIANT_CLEAR h ctx;
  let ctx := set_field_type ctx FTGC_VARTYPE_STRING in
  Ok (h, mk_variant p_str NULL (field_type ctx)).

Definition ftgc_variant_get_string_asserts (ctx : ftgc_variant_s) : bool :=
  bool_decide (field_type ctx = FTGC_VARTYPE_STRING).

Definition ftgc_variant_get_string (ctx : ftgc_variant_s) : ptr :=
  if negb (bool_decide (external_storage ctx = NULL))
  then external_storage ctx
  else internal_storage ctx.

(** The buffer a variant owns, if any: the one [FTGC__VARIANT_CLEAR]
    would free. *)
Definition owned (x : ftgc_variant_s) : option ptr :=
  if bool_decide (field_type x = FTGC_VARTYPE_STRING) &&
     negb (bool_decide (internal_storage x = NULL))
  then Some (internal_storage x)
  else None.

(** A variant is valid on a heap when the buffer it owns is live. *)
Definition variant_wf (h : gmap Z (list ascii)) (x : ftgc_variant_s) : Prop :=
  forall p, owned x = Some p -> is_Some (h !! p).

(** The heap once a variant has given up the buffer it owns. *)
Definition released (h : gmap Z (list ascii)) (x : ftgc_variant_s)
    : gmap Z (list ascii) :=
  match owned x with
  | Some p => delete p h
  | None => h
  end.

(** A heap with the caller's string "hello" at address 100, and a variant
    that owns a copy of "old" at address 200. *)
Definition heap_hello : gmap Z (list ascii) :=
  <[200 := list_ascii_of_string "old" ++ [NUL]]>
    (<[100 := list_ascii_of_string "hello" ++ [NUL]]> ∅).

Definition variant_old : ftgc_variant_s :=
  mk_variant NULL 200 FTGC_VARTYPE_STRING.

(** *** The other members of the union

    Where pointers have eight bytes the union of [ftgc_variant_s] has
    sixteen: [val_str.external_storage] is bytes 0-7 and
    [val_str.internal_storage] bytes 8-15, so the two pointer fields of
    the record hold every byte of the union. In little-endian order
    [val_ptr] is bytes 0-7; [val_bool], [val_sint32] and [val_uint32] are
    bytes 0-3; [val_float3[0]], [[1]], [[2]] are bytes 0-3, 4-7, 8-11. A
    [float] is handled as its 32-bit pattern, which the assignments of
    the setters copy; the pattern of [0.0f] is 0. *)
Definition lo32 (w : Z) : Z := w mod 2 ^ 32.
Definition hi32 (w : Z) : Z := (w / 2 ^ 32) mod 2 ^ 32.
Definition with_lo32 (w v : Z) : Z := hi32 w * 2 ^ 32 + v mod 2 ^ 32.
Definition with_hi32 (w v : Z) : Z := (v mod 2 ^ 32) * 2 ^ 32 + lo32 w.

Definition val_ptr (x : ftgc_variant_s) : ptr := external_storage x.
Definition val_uint32 (x : ftgc_variant_s) : Z := lo32 (external_storage x).
Definition val_sint32 (x : ftgc_variant_s) : Z :=
  HashIndex.sint32 (lo32 (external_storage x)).
Definition val_float3 (x : ftgc_variant_s) : list Z :=
  [lo32 (external_storage x); hi32 (external_storage x);
   lo32 (internal_storage x)].

(** Stores to [val_ptr], to the 32-bit members, and to [val_float3[k]]. *)
Definition set_val_ptr (x : ftgc_variant_s) (p : ptr) : ftgc_variant_s :=
  mk_variant p (internal_storage x) (field_type x).

Definition set_val_word (x : ftgc_variant_s) (v : Z) : ftgc_variant_s :=
  mk_variant (with_lo32 (external_storage x) v) (internal_storage x)
             (field_type x).

Definition set_val_float3 (x : ftgc_variant_s) (k : nat) (v : Z)
    : ftgc_variant_s :=
  match k with
  | 0%nat => set_val_word x v
  | 1%nat => mk_variant (with_hi32 (external_storage x) v)
                        (internal_storage x) (field_type x)
  | _ => mk_variant (external_storage x)
                    (with_lo32 (internal_storage x) v) (field_type x)
  end.

Definition ftgc_variant_set_void_ptr (h : gmap Z (list ascii))
    (ctx : ftgc_variant_s) (p : ptr)
    : result (gmap Z (list ascii) * ftgc_variant_s) :=
  '(h, ctx) ← FTGC__VARIANT_CLEAR h ctx;
  let ctx := set_field_type ctx FTGC_VARTYPE_VOIDPTR in
  Ok (h, set_val_ptr ctx p).

(** [ctx->val_bool = (v!=0)]. *)
Definition ftgc_variant_set_bool (h : gmap Z (list ascii))
    (ctx : ftgc_variant_s) (v : Z)
    : result (gmap Z (list ascii) * ftgc_variant_s) :=
  '(h, ctx) ← FTGC__VARIANT_CLEAR h ctx;
  let ctx := set_field_type ctx FTGC_VARTYPE_BOOL in
  Ok (h, set_val_word ctx (if bool_decide (v <> 0) then 1 else 0)).

Definition ftgc_variant_set_sint32 (h : gmap Z (list ascii))
    (ctx : ftgc_variant_s) (v : Z)
    : result (gmap Z (list ascii) * ftgc_variant_s) :=
  '(h, ctx) ← FTGC__VARIANT_CLEAR h ctx;
  let ctx := set_field_type ctx FTGC_VARTYPE_SINT32 in
  Ok (h, set_val_word ctx v).

Definition ftgc_variant_set_uint32 (h : gmap Z (list ascii))
    (ctx : ftgc_variant_s) (v : Z)
    : result (gmap Z (list ascii) * ftgc_variant_s) :=
  '(h, ctx) ← FTGC__VARIANT_CLEAR h ctx;
  let ctx := set_field_type ctx FTGC_VARTYPE_UINT32 in
  Ok (h, set_val_word ctx v).

Definition ftgc_variant_set_float (h : gmap Z (list ascii))
    (ctx : ftgc_variant_s) (v : Z)
    : result (gmap Z (list ascii) * ftgc_variant_s) :=
  '(h, ctx) ← FTGC__VARIANT_CLEAR h ctx;
  let ctx := set_field_type ctx FTGC_VARTYPE_FLOAT in
  Ok (h, set_val_float3 ctx 0 v).

(** [v] is the caller's [float] array. *)
Definition ftgc_variant_set_vec2 (h : gmap Z (list ascii))
    (ctx : ftgc_variant_s) (v : list Z)
    : result (gmap Z (list ascii) * ftgc_variant_s) :=
  '(h, ctx) ← FTGC__VARIANT_CLEAR h ctx;
  let ctx := set_field_type ctx FTGC_VARTYPE_VEC2 in
  v0 ← arr_get v 0;
  let ctx := set_val_float3 ctx 0 v0 in
  v1 ← arr_get v 1;
  Ok (h, set_val_float3 ctx 1 v1).

Definition ftgc_variant_set_vec3 (h : gmap Z (list ascii))
    (ctx : ftgc_variant_s) (v : list Z)
    : result (gmap Z (list ascii) * ftgc_variant_s) :=
  '(h, ctx) ← FTGC__VARIANT_CLEAR h ctx;
  let ctx := set_field_type ctx FTGC_VARTYPE_VEC3 in
  v0 ← arr_get v 0;
  let ctx := set_val_float3 ctx 0 v0 in
  v1 ← arr_get v 1;
  let ctx := set_val_float3 ctx 1 v1 in
  v2 ← arr_get v 2;
  Ok (h, set_val_float3 ctx 2 v2).

(** [ftgc_variant_set_from_variant]; [malloc_result] is the answer to the
    allocation of [ftgc_variant_set_string], whose result is dropped. *)
Definition ftgc_variant_set_from_variant (malloc_result : ptr)
    (h : gmap Z (list ascii)) (ctx other : ftgc_variant_s)
    : result (gmap Z (list ascii) * ftgc_variant_s) :=
  '(h, ctx) ← FTGC__VARIANT_CLEAR h ctx;
  let ctx := set_field_type ctx (field_type other) in
  if bool_decide (field_type other = FTGC_VARTYPE_STRING) &&
     negb (bool_decide (internal_storage other = NULL))
  then
    '(_, h, ctx) ← ftgc_variant_set_string malloc_result h ctx
                      (internal_storage other);
    Ok (h, ctx)
  else Ok (h, other). (* memcpy(ctx, other, sizeof(ftgc_variant_s)) *)

(** The getters, each with the tag its [FTGC__ASSERT] names.
    [ftgc_variant_get_bool], [_sint32] and [_uint32] return [int];
    [ftgc_variant_get_vec2] and [_vec3] return the address of
    [val_float3[0]], modelled by the three floats found there. *)
Definition ftgc_variant_get_void_ptr (ctx : ftgc_variant_s) : ptr := val_ptr ctx.
Definition ftgc_variant_get_bool (ctx : ftgc_variant_s) : Z := val_sint32 ctx.
Definition ftgc_variant_get_sint32 (ctx : ftgc_variant_s) : Z := val_sint32 ctx.
Definition ftgc_variant_get_uint32 (ctx : ftgc_variant_s) : Z :=
  HashIndex.sint32 (val_uint32 ctx).
Definition ftgc_variant_get_float (ctx : ftgc_variant_s) : Z :=
  lo32 (external_storage ctx).
Definition ftgc_variant_get_vec2 (ctx : ftgc_variant_s) : list Z := val_float3 ctx.
Definition ftgc_variant_get_vec3 (ctx : ftgc_variant_s) : list Z := val_float3 ctx.

End Variant.

(** ** 4. Dictionaries *)

Module Dict.
Import HashIndex Variant.

Definition FTGC_DICT_KEY_BYTES : Z := 9.

(** [ftgc_dict_s], with the two arrays of [struct ftgc__dict_pairs_s]
    held by value: [keys] is the flat [char] array of
    [FTGC_DICT_KEY_BYTES * dict_size] bytes, [values] the array of
    [dict_size] variants. *)
Record ftgc_dict_s : Type := mk_dict {
  dict_size : Z;
  num_pairs : Z;
  keys : list ascii;
  values : list ftgc_variant_s;
  hash_index : ftgc_hashindex_s
}.

(** [tolower] in the C locale. *)
Definition tolower (c : Z) : Z :=
  if bool_decide (65 <= c <= 90) then c + 32 else c.

(** [ftgc__keycmp] as compiled with [FTGC_DICT_CASE_SENSITIVE 0]. [s1] is
    the caller's key; [s2] is the memory of the key array from the
    compared slot on, so reading past its end is out of bounds. (The
    pointer-equality shortcuts of the source return 0, as the loop would
    on equal strings.) *)
Fixpoint ftgc__keycmp (s1 s2 : list ascii) : result Z :=
  match s2 with
  | [] => Fault OutOfBounds
  | c2 :: r2 =>
      let c1 := match s1 with [] => NUL | c :: _ => c end in
      let result := tolower (char_signed c1) - tolower (char_signed c2) in
      if is_nul c1 then Ok result
      else if bool_decide (result <> 0) then Ok result
      else ftgc__keycmp (tail s1) r2
  end.

(** The index expression [i*FTGC_DICT_KEY_BYTES] of the key array. Both
    operands are [int], so the product is an [int] product: it is
    undefined when it leaves the range of [int], which on the side of
    the positive slot numbers happens from slot 238609295 on. *)
Definition key_offset (i : Z) : result Z :=
  let off := i * FTGC_DICT_KEY_BYTES in
  if bool_decide (- 2 ^ 31 <= off < 2 ^ 31) then Ok off
  else Fault IntOverflow.

(** [ftgc__keycmp(key, &ctx->pairs.keys[i*FTGC_DICT_KEY_BYTES])]. *)
Definition keycmp_slot (ctx : ftgc_dict_s) (key : list ascii) (i : Z)
    : result Z :=
  off ← key_offset i;
  if bool_decide (0 <= off)
  then ftgc__keycmp key (drop (Z.to_nat off) (keys ctx))
  else Fault OutOfBounds.

(** The [for] loop of [ftgc__dict_find_index_for_key], entered with the
    value [i] last returned by the iterator. *)
Fixpoint find_loop (fuel : nat) (ctx : ftgc_dict_s) (key : list ascii)
    (iter : ftgc_hashindex_iter_s) (i : Z) : result Z :=
  match fuel with
  | O => Fault OutOfFuel
  | S fuel' =>
      if bool_decide (i = FTGC_HASHINDEX_UNUSED) then Ok FTGC_HASHINDEX_UNUSED
      else if bool_decide (i = FTGC_HASHINDEX_DELETED) then
        '(i', iter') ← ftgc_hashindex_iter_get_next (hash_index ctx) iter;
        find_loop fuel' ctx key iter' i'
      else
        r ← keycmp_slot ctx key i;
        if bool_decide (r = 0) then Ok i
        else
          '(i', iter') ← ftgc_hashindex_iter_get_next (hash_index ctx) iter;
          find_loop fuel' ctx key iter' i'
  end.

(** Rounds that suffice for the loop on the chain of slot [hash]: one per
    node, and two more for the table entry and the final UNUSED. *)
Definition find_fuel (ctx : ftgc_dict_s) (hash : Z) : nat :=
  match chain (hash_index ctx) !! Z.to_nat hash with
  | Some c => length (link_values c) + 2
  | None => 2
  end.

Definition ftgc__dict_find_index_for_key (ctx : ftgc_dict_s)
    (key : list ascii) : result Z :=
  let hash := ftgc_hashindex_generate_key_string (hash_index ctx) key in
  '(i, iter) ← ftgc_hashindex_iter_get_first (hash_index ctx)
                  (Some (mk_iter None None)) hash;
  match iter with
  | Some it => find_loop (find_fuel ctx hash) ctx key it i
  | None => Fault InvalidPointer
  end.

(** A block after [FTGC_REALLOC] to [n] cells: the old cells that fit,
    then cells of indeterminate content [junk]. *)
Definition realloc_grow {A} (l : list A) (n : nat) (junk : nat -> A) : list A :=
  take n l ++ map junk (seq (length l) (n - length l)).

(** The loop of [ftgc__dict_reallocate] that initialises the new
    variants. *)
Fixpoint init_values (vs : list ftgc_variant_s) (i : Z) (n : nat)
    : result (list ftgc_variant_s) :=
  match n with
  | O => Ok vs
  | S n' =>
      v ← arr_get vs i;
      vs' ← arr_set vs i (ftgc_variant_init v);
      init_values vs' (i + 1) n'
  end.

(** The allocator's answers to one [ftgc_dict_set_string] call.
    [realloc_keys] and [realloc_values] are [None] on failure and
    otherwise give the indeterminate content of the new cells;
    [keys_moved] tells whether the key block changed address. *)
Record dict_allocs : Type := mk_allocs {
  realloc_keys : option (nat -> ascii);
  keys_moved : bool;
  realloc_values : option (nat -> ftgc_variant_s);
  malloc_string : ptr;
  malloc_node_ok : bool
}.

(** [ftgc__dict_reallocate]. When the second reallocation fails after the
    first succeeded, [ctx->pairs.keys] still holds the old address; if the
    block moved, that address is no longer valid. *)
Definition ftgc__dict_reallocate (al : dict_allocs) (ctx : ftgc_dict_s)
    (new_size : Z) : result (Z * ftgc_dict_s) :=
  match realloc_keys al with
  | None => Ok (0, ctx)
  | Some junk =>
      let new_keys :=
        realloc_grow (keys ctx)
          (Z.to_nat (FTGC_DICT_KEY_BYTES * new_size)) junk in
      match realloc_values al with
      | None =>
          Ok (0, if keys_moved al
                 then mk_dict (dict_size ctx) (num_pairs ctx) []
                              (values ctx) (hash_index ctx)
                 else ctx)
      | Some junkv =>
          let new_values :=
            realloc_grow (values ctx) (Z.to_nat new_size) junkv in
          new_values ← init_values new_values (dict_size ctx)
                          (Z.to_nat (new_size - dict_size ctx));
          Ok (1, mk_dict new_size (num_pairs ctx) new_keys new_values
                         (hash_index ctx))
      end
  end.

(** The scan of [ftgc__dict_find_empty_slot] from slot [i], [n] slots
    to go. *)
Fixpoint find_empty_loop (ks : list ascii) (i : Z) (n : nat)
    : result (option Z) :=
  match n with
  | O => Ok None
  | S n' =>
      off ← key_offset i;
      c ← arr_get ks off;
      if is_nul c then Ok (Some i)
      else find_empty_loop ks (i + 1) n'
  end.

Definition ftgc__dict_find_empty_slot (ctx : ftgc_dict_s)
    : result (Z * ftgc_dict_s) :=
  r ← find_empty_loop (keys ctx) 0 (Z.to_nat (num_pairs ctx));
  match r with
  | Some i => Ok (i, ctx)
  | None =>
      Ok (num_pairs ctx,
          mk_dict (dict_size ctx) (sint32 (num_pairs ctx + 1)) (keys ctx)
                  (values ctx) (hash_index ctx))
  end.

(** The loop of [ftgc__dict_set_key], [n] iterations of [i] to go. *)
Fixpoint set_key_loop (src : list ascii) (ks : list ascii) (dst : Z) (n : nat)
    : result (list ascii) :=
  match n, src with
  | S n', c :: rest =>
      if is_nul c then arr_set ks dst NUL
      else
        ks' ← arr_set ks dst c;
        set_key_loop rest ks' (dst + 1) n'
  | _, _ => arr_set ks dst NUL
  end.

(** [ftgc__dict_set_key(src, &keys[dst])]. *)
Definition ftgc__dict_set_key (src : list ascii) (ks : list ascii) (dst : Z)
    : result (list ascii) :=
  set_key_loop src ks dst (Z.to_nat (FTGC_DICT_KEY_BYTES - 1)).

(** First half of [ftgc_dict_set_string]: look the key up, and on a miss
    grow the arrays if they are full and claim a slot. The slot is [None]
    when the function returns 0 because the growth failed. *)
Definition dict_select_slot (al : dict_allocs) (ctx : ftgc_dict_s)
    (key : list ascii) : result (option Z * ftgc_dict_s) :=
  index ← ftgc__dict_find_index_for_key ctx key;
  if bool_decide (index = FTGC_HASHINDEX_UNUSED) then
    '(ok, ctx) ←
      (if bool_decide (num_pairs ctx = dict_size ctx)
       then ftgc__dict_reallocate al ctx
              (sint32 (dict_size ctx + FTGC_DICT_KEY_BYTES))
       else Ok (1, ctx));
    if bool_decide (ok = 0) then Ok (None, ctx)
    else
      '(target, ctx) ← ftgc__dict_find_empty_slot ctx;
      Ok (Some target, ctx)
  else Ok (Some index, ctx).

(** Second half: write key and value into slot [target] and register the
    slot in the index. The result of [ftgc_variant_set_string] is dropped,
    as in the source. *)
Definition dict_store (al : dict_allocs) (h : gmap Z (list ascii))
    (ctx : ftgc_dict_s) (key : list ascii) (value : ptr) (target : Z)
    : result (Z * gmap Z (list ascii) * ftgc_dict_s) :=
  off ← key_offset target;
  ks ← ftgc__dict_set_key key (keys ctx) off;
  v ← arr_get (values ctx) target;
  '(_, h, v) ← ftgc_variant_set_string (malloc_string al) h v value;
  vs ← arr_set (values ctx) target v;
  let hash := ftgc_hashindex_generate_key_string (hash_index ctx) key in
  '(r, hi) ← ftgc_hashindex_add_key (malloc_node_ok al) (hash_index ctx)
               hash target;
  let ctx := mk_dict (dict_size ctx) (num_pairs ctx) ks vs hi in
  if bool_decide (r = -1) then Ok (0, h, ctx)
  else Ok (1, h, ctx).

(** [ftgc_dict_set_string]; [key] is the caller's key string, [value] the
    address of the caller's value string. Returns the [int] result, the
    heap and the dictionary. *)
Definition ftgc_dict_set_string (al : dict_allocs) (h : gmap Z (list ascii))
    (ctx : ftgc_dict_s) (key : list ascii) (value : ptr)
    : result (Z * gmap Z (list ascii) * ftgc_dict_s) :=
  slot ← dict_select_slot al ctx key;
  match slot with
  | (None, ctx) => Ok (0, h, ctx)
  | (Some target, ctx) => dict_store al h ctx key value target
  end.

Definition ftgc_dict_get_string (ctx : ftgc_dict_s) (key : list ascii)
    (fallback_string : ptr) : result ptr :=
  index ← ftgc__dict_find_index_for_key ctx key;
  if negb (bool_decide (index = FTGC_HASHINDEX_UNUSED)) then
    v ← arr_get (values ctx) index;
    Ok (ftgc_variant_get_string v)
  else Ok fallback_string.

(** [ftgc_dict_init]. The results of its allocations are not checked by
    the source: a NULL key block faults at its first use, a NULL value
    block in the initialisation loop. [hash_size] is raised to [size] and
    then not used; the index is sized by [size]. *)
Definition ftgc_dict_init (table_ok chain_ok : bool)
    (malloc_keys : option (nat -> ascii))
    (malloc_values : option (nat -> ftgc_variant_s))
    (size hash_size : Z) : result ftgc_dict_s :=
  let hash_size := if bool_decide (hash_size < size) then size else hash_size in
  let hi := (ftgc_hashindex_init table_ok chain_ok size).2 in
  let ks := match malloc_keys with
            | Some junk => realloc_grow [] (Z.to_nat (FTGC_DICT_KEY_BYTES * size)) junk
            | None => []
            end in
  let vs := match malloc_values with
            | Some junk => realloc_grow [] (Z.to_nat size) junk
            | None => []
            end in
  vs ← init_values vs 0 (Z.to_nat size);
  Ok (mk_dict size 0 ks vs hi).

(** *** The dictionary invariant *)

(** The [FTGC_DICT_KEY_BYTES] bytes of key buffer [i]. *)
Definition slot_bytes (ks : list ascii) (i : Z) : list ascii :=
  take (Z.to_nat FTGC_DICT_KEY_BYTES)
       (drop (Z.to_nat (i * FTGC_DICT_KEY_BYTES)) ks).

(** Key buffer [i] starts at an offset that fits an [int], lies inside
    the key array and holds a terminated, non-empty key. *)
Definition slot_live (ks : list ascii) (i : Z) : Prop :=
  i * FTGC_DICT_KEY_BYTES < 2 ^ 31 /\
  length (slot_bytes ks i) = Z.to_nat FTGC_DICT_KEY_BYTES /\
  (1 <= strlen (slot_bytes ks i) <= 8)%nat.

(** Every value held by the index is a slot number below [n]. *)
Definition entries_below (hi : ftgc_hashindex_s) (n : Z) : Prop :=
  Forall (fun t => t = FTGC_HASHINDEX_UNUSED \/ 0 <= t < n) (table hi) /\
  Forall (fun c => Forall (fun v => 0 <= v < n) (link_stored c)) (chain hi).

(** Every owned string buffer is live, and no two variants own the same
    buffer. *)
Definition owns_distinct (h : gmap Z (list ascii)) (vs : list ftgc_variant_s)
    : Prop :=
  (forall i v p, vs !! i = Some v -> owned v = Some p -> is_Some (h !! p)) /\
  (forall i j v w p, vs !! i = Some v -> vs !! j = Some w ->
     owned v = Some p -> owned w = Some p -> i = j).

(** The invariant of a dictionary on a heap; [skip] exempts one slot from
    having its key written yet. *)
Definition dict_wf_except (skip : option Z) (h : gmap Z (list ascii))
    (d : ftgc_dict_s) : Prop :=
  hashindex_wf (hash_index d) /\
  1 <= table_size (hash_index d) <= 2 ^ 31 /\
  hash_mask (hash_index d) = table_size (hash_index d) - 1 /\
  0 <= num_pairs d <= dict_size d /\
  Z.of_nat (length (keys d)) = FTGC_DICT_KEY_BYTES * dict_size d /\
  Z.of_nat (length (values d)) = dict_size d /\
  (forall i, 0 <= i < num_pairs d -> skip <> Some i -> slot_live (keys d) i) /\
  entries_below (hash_index d) (num_pairs d) /\
  owns_distinct h (values d).

Definition dict_wf (h : gmap Z (list ascii)) (d : ftgc_dict_s) : Prop :=
  dict_wf_except None h d.

(** The caller's value string is live and is not a buffer of the
    dictionary. *)
Definition caller_string (h : gmap Z (list ascii)) (d : ftgc_dict_s)
    (value : ptr) (s : list ascii) : Prop :=
  h !! value = Some s /\
  forall i v, values d !! i = Some v -> owned v <> Some value.

(** The string copy of a [set_string] call succeeds: the allocator
    answers with a non-NULL address that is not live, unless it is the
    buffer of the slot being overwritten, which is freed first. *)
Definition string_copy_ok (h : gmap Z (list ascii)) (d : ftgc_dict_s)
    (key : list ascii) (a : ptr) : Prop :=
  a <> NULL /\
  (is_Some (h !! a) ->
   exists i v, ftgc__dict_find_index_for_key d key = Ok i /\
     0 <= i /\ values d !! Z.to_nat i = Some v /\ owned v = Some a).

(** The search of [ftgc__dict_find_index_for_key] over the values the
    iterator visits. *)
Fixpoint first_match (ctx : ftgc_dict_s) (key : list ascii) (l : list Z)
    : result Z :=
  match l with
  | [] => Ok FTGC_HASHINDEX_UNUSED
  | i :: rest =>
      if bool_decide (i = FTGC_HASHINDEX_DELETED) then first_match ctx key rest
      else
        r ← keycmp_slot ctx key i;
        if bool_decide (r = 0) then Ok i else first_match ctx key rest
  end.

(** *** A small dictionary *)

(** [ftgc_dict_init(&d, 4, 4)], every allocation succeeding, fresh memory
    holding the byte 'x' and variants of arbitrary content. *)
Definition junk_variant : ftgc_variant_s := mk_variant 7 7 FTGC_VARTYPE_VEC3.

Definition dict4 : ftgc_dict_s :=
  match ftgc_dict_init true true (Some (fun _ => "x"%char))
          (Some (fun _ => junk_variant)) 4 4 with
  | Ok d => d
  | Fault _ => mk_dict 0 0 [] [] (mk_hashindex [] [] 0 0)
  end.

(** The caller's strings: the value "v" at address 10. *)
Definition heap_v : gmap Z (list ascii) := {[ 10 := list_ascii_of_string "v" ]}.

(** Allocator answers: every allocation succeeds, the string copy goes to
    address [a]. *)
Definition allocs_ok (a : ptr) : dict_allocs :=
  mk_allocs (Some (fun _ => "x"%char)) true (Some (fun _ => junk_variant)) a true.

(** As [allocs_ok], but the chain node cannot be allocated. *)
Definition allocs_no_node (a : ptr) : dict_allocs :=
  mk_allocs (Some (fun _ => "x"%char)) true (Some (fun _ => junk_variant)) a false.

(** As [allocs_ok], but the string copy cannot be allocated. *)
Definition allocs_no_string : dict_allocs :=
  mk_allocs (Some (fun _ => "x"%char)) true (Some (fun _ => junk_variant)) NULL true.

Definition key_a : list ascii := list_ascii_of_string "a".
Definition key_e : list ascii := list_ascii_of_string "e".
Definition key_long : list ascii := list_ascii_of_string "abcdefghij".

(** What [ftgc__keycmp] compares of a character: its [tolower]. *)
Definition fold_case (c : ascii) : Z := tolower (char_signed c).

(** *** Small dictionaries with content *)

(** [dict4] after [ftgc_dict_set_string(&d, "a", "v")], the copy of the
    value going to address 1000: the result, the heap and the
    dictionary. *)
Definition stored_a : Z * gmap Z (list ascii) * ftgc_dict_s :=
  Eval vm_compute in
  match ftgc_dict_set_string (allocs_ok 1000) heap_v dict4 key_a 10 with
  | Ok r => r
  | Fault _ => (0, heap_v, dict4)
  end.

Definition heap_a : gmap Z (list ascii) := Eval vm_compute in stored_a.1.2.
Definition dict4_a : ftgc_dict_s := Eval vm_compute in stored_a.2.

(** [ftgc_dict_init(&d, 2, 2)] followed by the stores of "a" and "b",
    which fill its two slots. *)
Definition key_b : list ascii := list_ascii_of_string "b".

Definition dict2 : ftgc_dict_s :=
  Eval vm_compute in
  match ftgc_dict_init true true (Some (fun _ => "x"%char))
          (Some (fun _ => junk_variant)) 2 2 with
  | Ok d => d
  | Fault _ => dict4
  end.

Definition stored_ab : Z * gmap Z (list ascii) * ftgc_dict_s :=
  Eval vm_compute in
  match
    '(_, h, d) ← ftgc_dict_set_string (allocs_ok 1000) heap_v dict2 key_a 10;
    ftgc_dict_set_string (allocs_ok 1001) h d key_b 10
  with
  | Ok r => r
  | Fault _ => (0, heap_v, dict2)
  end.

Definition stored_a_in_dict2 : Z * gmap Z (list ascii) * ftgc_dict_s :=
  Eval vm_compute in
  match ftgc_dict_set_string (allocs_ok 1000) heap_v dict2 key_a 10 with
  | Ok r => r
  | Fault _ => (0, heap_v, dict2)
  end.

Definition heap_ab : gmap Z (list ascii) := Eval vm_compute in stored_ab.1.2.
Definition dict2_full : ftgc_dict_s := Eval vm_compute in stored_ab.2.

(** Allocator answers: the key block is grown and moved, the value block
    cannot be grown. *)
Definition allocs_moved : dict_allocs :=
  mk_allocs (Some (fun _ => "x"%char)) true None 1002 true.

End Dict.

(* ================================================================== *)
(** * Properties *)
(* ================================================================== *)

(** ** Generic facts about outcomes and array access *)

Lemma arr_get_Ok {A} (l : list A) (i : Z) (a : A) :
  arr_get l i = Ok a <-> 0 <= i /\ l !! Z.to_nat i = Some a.
Proof.
  unfold arr_get. case_bool_decide.
  - destruct (l !! Z.to_nat i) eqn:E; split; intros H1.
    + inversion H1; subst. auto.
    + destruct H1 as [_ H1]. congruence.
    + discriminate.
    + destruct H1 as [_ H1]. discriminate.
  - split; [discriminate | intros [? _]; lia].
Qed.

Lemma arr_get_in_range {A} (l : list A) (i : Z) :
  0 <= i < Z.of_nat (length l) -> exists a, arr_get l i = Ok a /\ l !! Z.to_nat i = Some a.
Proof.
  intros Hi. destruct (lookup_lt_is_Some_2 l (Z.to_nat i)) as [a Ha]; [lia|].
  exists a. split; [|done]. apply arr_get_Ok. split; [lia | done].
Qed.

Lemma arr_get_out_of_range {A} (l : list A) (i : Z) :
  ~ (0 <= i < Z.of_nat (length l)) -> arr_get l i = Fault OutOfBounds.
Proof.
  intros Hi. unfold arr_get. case_bool_decide; [|done].
  rewrite lookup_ge_None_2; [done | lia].
Qed.

Lemma arr_set_in_range {A} (l : list A) (i : Z) (a : A) :
  0 <= i < Z.of_nat (length l) -> arr_set l i a = Ok (<[Z.to_nat i := a]> l).
Proof. intros Hi. unfold arr_set. by rewrite bool_decide_eq_true_2. Qed.

Lemma arr_set_out_of_range {A} (l : list A) (i : Z) (a : A) :
  ~ (0 <= i < Z.of_nat (length l)) -> arr_set l i a = Fault OutOfBounds.
Proof. intros Hi. unfold arr_set. by rewrite bool_decide_eq_false_2. Qed.

Lemma arr_get_set_eq {A} (l : list A) (i : Z) (a : A) :
  0 <= i < Z.of_nat (length l) -> arr_get (<[Z.to_nat i := a]> l) i = Ok a.
Proof.
  intros Hi. apply arr_get_Ok. split; [lia|].
  apply list_lookup_insert_eq. lia.
Qed.

(** ** Resizable arrays *)

Section ArrayProps.
Import Array.
Context {T : Type}.

Lemma mod_small_size (z : Z) : 0 <= z < 2 ^ 23 -> z mod SIZE_MAX1 = z.
Proof. intros H. apply Z.mod_small. unfold SIZE_MAX1. lia. Qed.

(** C5 (amended): a successful growth of an array of capacity [c] by a
    request for [r > 0] more elements records the capacity [c + r],
    strictly above [c], inside a block reallocated for
    [max(floor(c*1.5), c+r)] elements; and after every successful append
    the count has grown by one and is at most the capacity. *)
Theorem array_capacity_after_growth (a : handle T) (r : Z) (d : T) :
  array_wf a -> 0 < r < 2 ^ 22 ->
  (let a' := ftgc__array_grow true a r in
   capacity a' = capacity a + r /\
   capacity a' > capacity a /\
   allocated a' = Z.max (capacity a * 3 / 2) (capacity a + r) /\
   capacity a' <= allocated a' /\
   ftgc_array_count a' = ftgc_array_count a) /\
  (exists a', ftgc_array_append true a d = Ok a' /\
     ftgc_array_count a' = ftgc_array_count a + 1 /\
     ftgc_array_count a' <= capacity a').
Proof.
  intros Hwf Hr.
  assert (Hnew : forall c, 0 <= c < 2 ^ 22 -> forall i, 0 < i < 2 ^ 22 ->
            ftgc__default_new_elem_count c i = Z.max (c * 3 / 2) (c + i)).
  { intros c Hc i Hi. unfold ftgc__default_new_elem_count, expand_elem_count.
    rewrite mod_small_size by lia. case_bool_decide; lia. }
  assert (Hgrow : forall i, 0 < i < 2 ^ 22 ->
            exists b', ftgc__array_grow true a i = Some b' /\
              raw_size b' = capacity a + i /\
              raw_count b' = ftgc_array_count a /\
              raw_alloc b' = Z.max (capacity a * 3 / 2) (capacity a + i)).
  { intros i Hi. unfold ftgc__array_grow. destruct a as [b|]; cbn in *.
    - destruct Hwf as (Hc & Ha & Hs). unfold ftgc__array_size.
      rewrite Hnew by lia.
      case_bool_decide as E; eexists; (split; [reflexivity|]); cbn;
        rewrite mod_small_size by lia; repeat split; lia.
    - rewrite Hnew by lia. rewrite bool_decide_eq_true_2 by done.
      eexists; (split; [reflexivity|]); cbn.
      rewrite mod_small_size by lia. repeat split; lia. }
  split.
  - destruct (Hgrow r Hr) as (b' & -> & Hs & Hc & Ha). cbn.
    rewrite Hs, Hc, Ha. repeat split; lia.
  - unfold ftgc_array_append, ftgc__array_grow_if_needed.
    destruct (ftgc__array_test_needs_to_grow a 1) eqn:Hg.
    + destruct (Hgrow 1 ltac:(lia)) as (b' & -> & Hs & Hc & Ha).
      assert (0 <= ftgc_array_count a <= capacity a /\ capacity a < 2 ^ 22)
        as Hb by (destruct a as [b|]; cbn in *; lia).
      rewrite bool_decide_eq_true_2 by lia.
      eexists. split; [reflexivity|]. cbn.
      rewrite mod_small_size by lia. lia.
    + destruct a as [b|]; [|discriminate]. cbn in *.
      destruct Hwf as (Hc & Ha & Hs). unfold ftgc__array_size in Hg.
      rewrite mod_small_size in Hg by lia.
      apply bool_decide_eq_false in Hg.
      rewrite bool_decide_eq_true_2 by lia.
      eexists. split; [reflexivity|]. cbn.
      rewrite mod_small_size by lia. lia.
Qed.

End ArrayProps.

(** [array4] is what the array test of the source reaches before its
    fifth append: [array_init(i, 3)] followed by the appends of 0, 1, 2,
    3. *)
Example array_after_four_appends :
  (a1 ← Array.ftgc_array_append true (Array.ftgc_array_init true 3) 0;
   a2 ← Array.ftgc_array_append true a1 1;
   a3 ← Array.ftgc_array_append true a2 2;
   Array.ftgc_array_append true a3 3)
  = Ok Array.array4.
Proof. reflexivity. Qed.

(** C5, as stated, fails: growing [array4], of capacity 4, by one element
    records capacity 5, not max(floor(4*1.5), 4+1) = 6. *)
Lemma array_grow_capacity_counterexample :
  Array.array_wf Array.array4 /\
  Array.capacity (Array.ftgc__array_grow true Array.array4 1) = 5 /\
  Array.capacity (Array.ftgc__array_grow true Array.array4 1)
    <> Z.max (Array.expand_elem_count (Array.capacity Array.array4))
             (Array.capacity Array.array4 + 1).
Proof.
  split; [cbn; lia|]. split; [reflexivity|]. vm_compute. discriminate.
Qed.

Lemma array_capacity_after_growth_witness :
  Array.capacity (Array.ftgc__array_grow true Array.array4 1) = 5 /\
  Array.allocated (Array.ftgc__array_grow true Array.array4 1) = 6.
Proof.
  pose proof (array_capacity_after_growth Array.array4 1 4) as H.
  destruct H as [H _].
  - cbn. lia.
  - lia.
  - cbn zeta in H. destruct H as (H1 & _ & H3 & _). split.
    + exact H1.
    + exact H3.
Defined.

(** ** Hashindex *)

Section HashIndexProps.
Import HashIndex.

Lemma wf_table_range (ctx : ftgc_hashindex_s) (key : Z) :
  hashindex_wf ctx -> 0 <= key < table_size ctx ->
  0 <= key < Z.of_nat (length (table ctx)).
Proof. intros (_ & Ht & _) Hk. lia. Qed.

Lemma wf_chain_range (ctx : ftgc_hashindex_s) (key : Z) :
  hashindex_wf ctx -> 0 <= key < table_size ctx ->
  0 <= key < Z.of_nat (length (chain ctx)).
Proof. intros (_ & _ & Hc & _) Hk. lia. Qed.

(** C7: after [remove_first] on an in-range key, [iter_get_first] yields
    DELETED; an [add_key] on that slot then stores the value in the table
    slot, reports 0 (inserted, no collision) whatever the allocator would
    answer, leaves the chains alone, and [iter_get_first] yields the
    value. *)
Theorem tombstone_is_reusable (ctx : ftgc_hashindex_s) (key v : Z)
    (malloc_ok : bool) :
  hashindex_wf ctx -> 0 <= key < table_size ctx ->
  exists ctx1 ctx2,
    ftgc_hashindex_remove_first ctx key = Ok ctx1 /\
    ftgc_hashindex_iter_get_first ctx1 None key
      = Ok (FTGC_HASHINDEX_DELETED, None) /\
    ftgc_hashindex_add_key malloc_ok ctx1 key v = Ok (0, ctx2) /\
    ftgc_hashindex_iter_get_first ctx2 None key = Ok (v, None) /\
    table ctx2 = <[Z.to_nat key := v]> (table ctx) /\
    chain ctx2 = chain ctx.
Proof.
  intros Hwf Hk. pose proof (wf_table_range _ _ Hwf Hk) as Hr.
  exists (set_table ctx (<[Z.to_nat key := FTGC_HASHINDEX_DELETED]> (table ctx))).
  exists (set_table ctx (<[Z.to_nat key := v]> (table ctx))).
  unfold ftgc_hashindex_remove_first, ftgc_hashindex_iter_get_first,
    ftgc_hashindex_add_key.
  rewrite arr_set_in_range by done. cbn.
  rewrite arr_get_set_eq by done. cbn.
  rewrite arr_set_in_range by (rewrite length_insert; done). cbn.
  rewrite list_insert_insert_eq.
  rewrite arr_get_set_eq by done. cbn.
  repeat split; reflexivity.
Qed.

(** C10: the asserted precondition of [remove_first] and [iter_get_first]
    admits [key = table_size], where both functions index [table] one
    past its end; the accesses are in bounds exactly for
    [0 <= key < table_size]. *)
Theorem key_range_assert_off_by_one (ctx : ftgc_hashindex_s)
    (iter : option ftgc_hashindex_iter_s) :
  hashindex_wf ctx ->
  ftgc_hashindex_remove_first_asserts ctx (table_size ctx) = true /\
  ftgc_hashindex_remove_first ctx (table_size ctx) = Fault OutOfBounds /\
  ftgc_hashindex_iter_get_first_asserts ctx (table_size ctx) = true /\
  ftgc_hashindex_iter_get_first ctx iter (table_size ctx) = Fault OutOfBounds /\
  arr_get (chain ctx) (table_size ctx) = Fault OutOfBounds /\
  (forall key, is_Ok (ftgc_hashindex_remove_first ctx key)
               <-> 0 <= key < table_size ctx) /\
  (forall key, is_Ok (ftgc_hashindex_iter_get_first ctx iter key)
               <-> 0 <= key < table_size ctx).
Proof.
  intros (Hs & Ht & Hc & _).
  unfold ftgc_hashindex_remove_first_asserts,
    ftgc_hashindex_iter_get_first_asserts,
    ftgc_hashindex_remove_first, ftgc_hashindex_iter_get_first.
  rewrite !bool_decide_eq_true_2 by lia.
  rewrite arr_set_out_of_range by lia.
  rewrite !arr_get_out_of_range by lia.
  split; [reflexivity|]. split; [reflexivity|]. split; [reflexivity|].
  split; [reflexivity|]. split; [reflexivity|]. split.
  - intros key. split.
    + intros [c Hc']. destruct (decide (0 <= key < table_size ctx)); [lia|].
      rewrite arr_set_out_of_range in Hc' by lia. discriminate.
    + intros Hk. rewrite arr_set_in_range by lia. eexists. reflexivity.
  - intros key. split.
    + intros [c Hc']. destruct (decide (0 <= key < table_size ctx)); [lia|].
      rewrite arr_get_out_of_range in Hc' by lia. discriminate.
    + intros Hk. destruct (arr_get_in_range (table ctx) key) as (t & -> & _);
        [lia|]. eexists. reflexivity.
Qed.

(** *** Chains as lists *)

Lemma link_values_stored (c : ftgc__hashlink_s) :
  link_values c = link_stored c ++ [link_last c].
Proof. induction c as [v|v nx IH]; cbn; [done | by rewrite IH]. Qed.

Lemma is_value_in_chain_spec (c : ftgc__hashlink_s) (v : Z) :
  ftgc__is_value_in_chain c v = true <-> v ∈ link_stored c.
Proof.
  induction c as [w|w nx IH]; cbn.
  - split; [discriminate | intros H; by apply not_elem_of_nil in H].
  - case_bool_decide as E.
    + subst. split; [intros _; apply elem_of_cons; by left | done].
    + rewrite IH, elem_of_cons.
      split; [auto | intros [?|?]; [congruence | done]].
Qed.

Lemma is_value_in_chain_false (c : ftgc__hashlink_s) (v : Z) :
  ftgc__is_value_in_chain c v = false <-> v ∉ link_stored c.
Proof.
  rewrite <- is_value_in_chain_spec.
  destruct (ftgc__is_value_in_chain c v); split; try done;
    intros H; exfalso; by apply H.
Qed.

Lemma link_stored_of_values (c : ftgc__hashlink_s) (l : list Z) (x : Z) :
  link_values c = l ++ [x] -> link_stored c = l /\ link_last c = x.
Proof.
  rewrite link_values_stored. intros H.
  apply app_inj_tail in H as [? ?]. done.
Qed.

(** What [add_key] does to a chain on its append path: the value goes
    into the last node, and a fresh UNUSED node is linked behind it when
    the allocation succeeds. *)
Lemma chain_push (c : ftgc__hashlink_s) (v : Z) (malloc_ok : bool) :
  let e := ftgc__get_chain_end c in
  let c2 := ftgc__append_node malloc_ok (set_node_value c e v) e in
  link_values c2
    = link_stored c ++ (if malloc_ok then [v; FTGC_HASHINDEX_UNUSED] else [v]) /\
  node_at c2 e ≫= link_next
    = (if malloc_ok then Some (Link_end FTGC_HASHINDEX_UNUSED) else None).
Proof.
  unfold ftgc__append_node.
  induction c as [w|w nx IH]; cbn.
  - destruct malloc_ok; done.
  - destruct IH as [IH1 IH2]. destruct malloc_ok; cbn in *.
    + by rewrite IH1, IH2.
    + by rewrite IH1, IH2.
Qed.

Lemma add_key_empty (ctx : ftgc_hashindex_s) (key value t : Z)
    (malloc_ok : bool) :
  0 <= key -> table ctx !! Z.to_nat key = Some t ->
  t = FTGC_HASHINDEX_UNUSED \/ t = FTGC_HASHINDEX_DELETED ->
  ftgc_hashindex_add_key malloc_ok ctx key value
  = Ok (0, set_table ctx (<[Z.to_nat key := value]> (table ctx))).
Proof.
  intros Hk Ht Hd. unfold ftgc_hashindex_add_key.
  assert (arr_get (table ctx) key = Ok t) as -> by (by apply arr_get_Ok).
  cbn.
  assert (bool_decide (t = FTGC_HASHINDEX_UNUSED)
          || bool_decide (t = FTGC_HASHINDEX_DELETED) = true) as ->.
  { destruct Hd as [-> | ->]; done. }
  rewrite arr_set_in_range; [done|].
  apply lookup_lt_Some in Ht. lia.
Qed.

Lemma add_key_duplicate (ctx : ftgc_hashindex_s) (key value t : Z)
    (c : ftgc__hashlink_s) (malloc_ok : bool) :
  0 <= key -> table ctx !! Z.to_nat key = Some t ->
  chain ctx !! Z.to_nat key = Some c ->
  t <> FTGC_HASHINDEX_UNUSED -> t <> FTGC_HASHINDEX_DELETED ->
  value = t \/ value ∈ link_stored c ->
  ftgc_hashindex_add_key malloc_ok ctx key value = Ok (1, ctx).
Proof.
  intros Hk Ht Hc H1 H2 Hdup. unfold ftgc_hashindex_add_key.
  assert (arr_get (table ctx) key = Ok t) as -> by (by apply arr_get_Ok).
  cbn. rewrite !bool_decide_eq_false_2 by done. cbn.
  case_bool_decide as E; [done|].
  assert (arr_get (chain ctx) key = Ok c) as -> by (by apply arr_get_Ok).
  cbn. destruct Hdup as [-> | Hdup]; [done|].
  apply is_value_in_chain_spec in Hdup. by rewrite Hdup.
Qed.

Lemma add_key_append (ctx : ftgc_hashindex_s) (key value t : Z)
    (c : ftgc__hashlink_s) (malloc_ok : bool) :
  0 <= key -> table ctx !! Z.to_nat key = Some t ->
  chain ctx !! Z.to_nat key = Some c ->
  t <> FTGC_HASHINDEX_UNUSED -> t <> FTGC_HASHINDEX_DELETED ->
  value <> t -> value ∉ link_stored c ->
  exists c',
    link_values c'
      = link_stored c ++
        (if malloc_ok then [value; FTGC_HASHINDEX_UNUSED] else [value]) /\
    ftgc_hashindex_add_key malloc_ok ctx key value
      = Ok (if malloc_ok then 1 else -1,
            set_chain ctx (<[Z.to_nat key := c']> (chain ctx))).
Proof.
  intros Hk Ht Hc H1 H2 H3 Hnew. unfold ftgc_hashindex_add_key.
  assert (arr_get (table ctx) key = Ok t) as -> by (by apply arr_get_Ok).
  cbn. rewrite !bool_decide_eq_false_2 by done. cbn.
  assert (arr_get (chain ctx) key = Ok c) as -> by (by apply arr_get_Ok).
  cbn.
  assert (ftgc__is_value_in_chain c value = false) as ->
    by (by apply is_value_in_chain_false).
  rewrite arr_set_in_range by (apply lookup_lt_Some in Hc; lia). cbn.
  destruct (chain_push c value malloc_ok) as [Hvals Hnext].
  eexists. split; [exact Hvals|].
  cbn in Hnext. rewrite Hnext. by destruct malloc_ok.
Qed.




(** *** Iteration *)

Lemma node_at_add (c n n' : ftgc__hashlink_s) (d e : nat) :
  node_at c d = Some n -> node_at n e = Some n' ->
  node_at c (d + e) = Some n'.
Proof.
  revert c. induction d as [|d IH]; intros c Hd He; cbn in *.
  - by inversion Hd; subst.
  - destruct c as [w|w nx]; [discriminate|]. by apply IH.
Qed.

Lemma not_deleted_true (v : Z) :
  v <> FTGC_HASHINDEX_DELETED -> not_deleted v = true.
Proof. intros H. unfold not_deleted. by rewrite bool_decide_eq_false_2. Qed.

Lemma link_values_length_pos (n : ftgc__hashlink_s) :
  (1 <= length (link_values n))%nat.
Proof. destruct n; cbn; lia. Qed.

Lemma skip_deleted_spec (n : ftgc__hashlink_s) (d : nat) :
  match skip_deleted n d with
  | Some d' =>
      exists n', (d <= d')%nat /\ node_at n (d' - d) = Some n' /\
        link_value n' <> FTGC_HASHINDEX_DELETED /\
        List.filter not_deleted (link_values n)
          = List.filter not_deleted (link_values n') /\
        (length (link_values n') <= length (link_values n))%nat
  | None => List.filter not_deleted (link_values n) = []
  end.
Proof.
  revert d. induction n as [w|w nx IH]; intros d; cbn.
  - case_bool_decide as E.
    + exists (Link_end w). rewrite Nat.sub_diag. by repeat split.
    + subst. done.
  - case_bool_decide as E.
    + exists (Link w nx). rewrite Nat.sub_diag. by repeat split.
    + subst. cbn.
      specialize (IH (S d)). destruct (skip_deleted nx (S d)) as [d'|]; [|done].
      destruct IH as (n' & Hle & Hat & Hv & Hf & Hlen).
      exists n'. replace (d' - d)%nat with (S (d' - S d)) by lia. cbn.
      repeat split; [lia | done | done | done | lia].
Qed.

Lemma iter_collect_exhausted (fuel : nat) (ctx : ftgc_hashindex_s)
    (p : option node_ptr) (v : Z) :
  (2 <= fuel)%nat ->
  iter_collect fuel ctx (mk_iter None p) v = Ok (until_unused [v]).
Proof.
  intros Hf. destruct fuel as [|[|f]]; [lia | lia |]. cbn.
  by case_bool_decide.
Qed.

Lemma iter_collect_spec (fuel : nat) (ctx : ftgc_hashindex_s) (k : Z)
    (c : ftgc__hashlink_s) :
  0 <= k -> chain ctx !! Z.to_nat k = Some c ->
  forall (d : nat) (n : ftgc__hashlink_s) (p : option node_ptr) (v : Z),
    node_at c d = Some n ->
    (length (link_values n) + 2 <= fuel)%nat ->
    iter_collect fuel ctx (mk_iter (Some (k, d)) p) v
    = Ok (until_unused (v :: List.filter not_deleted (link_values n))).
Proof.
  intros Hk Hc.
  assert (Hget : arr_get (chain ctx) k = Ok c) by (by apply arr_get_Ok).
  induction fuel as [|f IH]; intros d n p v Hn Hf; [lia|].
  cbn [iter_collect until_unused]. case_bool_decide as Ev; [done|].
  unfold ftgc_hashindex_iter_get_next, node_deref. cbn.
  rewrite Hget. cbn. rewrite Hn. cbn.
  pose proof (skip_deleted_spec n d) as Hs.
  destruct (skip_deleted n d) as [d'|].
  - destruct Hs as (n' & Hle & Hat & Hv & Hfil & Hlen).
    pose proof (node_at_add _ _ _ _ _ Hn Hat) as Hn'.
    replace (d + (d' - d))%nat with d' in Hn' by lia.
    rewrite Hn'. cbn. rewrite Hfil.
    destruct n' as [v'|v' nx]; cbn in *.
    + rewrite iter_collect_exhausted by lia.
      rewrite not_deleted_true by done. done.
    + rewrite (IH (S d') nx).
      * rewrite not_deleted_true by done. done.
      * replace (S d') with (d' + 1)%nat by lia.
        by apply (node_at_add _ (Link v' nx)).
      * lia.
  - cbn. rewrite Hs.
    pose proof (link_values_length_pos n).
    destruct f as [|f]; [lia|]. cbn. done.
Qed.

(** The chain-removed state: slot 1 holds 5 in the table and the chain
    DELETED, 9, UNUSED. *)
Example index4_removed_in_chain_eq :
  index4_removed_in_chain
  = Ok (mk_hashindex [-1; 5; -1; -1]
          [Link_end (-1); Link (-2) (Link 9 (Link_end (-1)));
           Link_end (-1); Link_end (-1)] 4 3).
Proof. vm_compute. reflexivity. Qed.

(** C4, as stated, fails: on the slot above, whose entries in chain order
    are 5, DELETED, 9, UNUSED, the iteration yields 5, 9; the DELETED
    node is skipped by [iter_get_next] itself. *)
Lemma iteration_skips_deleted_counterexample :
  (ctx ← index4_removed_in_chain; slot_entries ctx 1)
    = Ok [5; FTGC_HASHINDEX_DELETED; 9; FTGC_HASHINDEX_UNUSED] /\
  (ctx ← index4_removed_in_chain; iter_sequence 5 ctx 1) = Ok [5; 9] /\
  (ctx ← index4_removed_in_chain; iter_sequence 5 ctx 1)
    <> Ok (until_unused [5; FTGC_HASHINDEX_DELETED; 9; FTGC_HASHINDEX_UNUSED]).
Proof. vm_compute. repeat split; discriminate. Qed.

(** C4 (amended): [iter_get_first] followed by repeated [iter_get_next]
    yields the table entry of the slot and then the chain values in chain
    order, [iter_get_next] itself skipping every chain node marked
    DELETED; the sequence ends at the first UNUSED value (or at the end
    of the chain). Only the table entry can be yielded as DELETED, and
    that does not end the sequence. *)
Theorem iteration_visits (ctx : ftgc_hashindex_s) (key t : Z)
    (c : ftgc__hashlink_s) (fuel : nat) :
  0 <= key ->
  table ctx !! Z.to_nat key = Some t ->
  chain ctx !! Z.to_nat key = Some c ->
  (length (link_values c) + 2 <= fuel)%nat ->
  iter_sequence fuel ctx key
    = Ok (until_unused (t :: List.filter not_deleted (link_values c))) /\
  (t = FTGC_HASHINDEX_DELETED ->
   iter_sequence fuel ctx key
     = Ok (FTGC_HASHINDEX_DELETED
           :: until_unused (List.filter not_deleted (link_values c)))) /\
  (forall vs, iter_sequence fuel ctx key = Ok vs ->
     forall i, (1 <= i)%nat -> vs !! i <> Some FTGC_HASHINDEX_DELETED).
Proof.
  intros Hk Ht Hc Hf.
  assert (Hseq : iter_sequence fuel ctx key
            = Ok (until_unused (t :: List.filter not_deleted (link_values c)))).
  { unfold iter_sequence, ftgc_hashindex_iter_get_first.
    assert (arr_get (table ctx) key = Ok t) as -> by (by apply arr_get_Ok).
    cbn. by apply (iter_collect_spec fuel ctx key c). }
  split; [done|]. split.
  - intros ->. rewrite Hseq. done.
  - intros vs Hvs i Hi Hd. rewrite Hseq in Hvs. inversion Hvs; subst. clear Hvs.
    destruct i as [|i]; [lia|].
    cbn in Hd. case_bool_decide; [done|]. cbn in Hd.
    apply list_elem_of_lookup_2 in Hd.
    assert (Hsub : forall l x, x ∈ until_unused l -> x ∈ l).
    { clear. induction l as [|y l IH]; intros x; cbn; [done|].
      case_bool_decide; [intros H'; by apply elem_of_nil in H'|].
      rewrite !elem_of_cons. intros [?|?]; auto. }
    apply Hsub in Hd. apply list_elem_of_In, filter_In in Hd.
    destruct Hd as [_ Hd]. unfold not_deleted in Hd.
    by rewrite bool_decide_eq_true_2 in Hd.
Qed.

(** *** Duplicates *)

(** Whatever the operations and the allocator do, the values held by the
    nodes of one linked chain stay pairwise distinct. *)
Lemma add_key_chain_distinct (malloc_ok : bool) (ctx ctx' : ftgc_hashindex_s)
    (key value r : Z) :
  ftgc_hashindex_add_key malloc_ok ctx key value = Ok (r, ctx') ->
  Forall chain_distinct (chain ctx) ->
  Forall chain_distinct (chain ctx').
Proof.
  unfold ftgc_hashindex_add_key. intros Hrun Hnd.
  destruct (arr_get (table ctx) key) as [t|] eqn:Ht; [|done]. cbn in Hrun.
  destruct (bool_decide (t = FTGC_HASHINDEX_UNUSED)
            || bool_decide (t = FTGC_HASHINDEX_DELETED)).
  { destruct (arr_set (table ctx) key value); [|done].
    cbn in Hrun. by inversion Hrun; subst. }
  case_bool_decide; [by inversion Hrun; subst|].
  destruct (arr_get (chain ctx) key) as [c|] eqn:Hc; [|done]. cbn in Hrun.
  destruct (ftgc__is_value_in_chain c value) eqn:Hin;
    [by inversion Hrun; subst|].
  apply arr_get_Ok in Hc as [Hk Hc].
  rewrite arr_set_in_range in Hrun by (apply lookup_lt_Some in Hc; lia).
  cbn in Hrun.
  destruct (chain_push c value malloc_ok) as [Hvals _]. cbn zeta in Hvals.
  set (c2 := ftgc__append_node malloc_ok
               (set_node_value c (ftgc__get_chain_end c) value)
               (ftgc__get_chain_end c)) in *.
  assert (Hnew : chain_distinct c2).
  { rewrite Forall_lookup in Hnd. destruct (Hnd _ _ Hc) as [Hnd0 _].
    apply is_value_in_chain_false in Hin.
    destruct malloc_ok.
    - destruct (link_stored_of_values c2 (link_stored c ++ [value])
                  FTGC_HASHINDEX_UNUSED) as [Hst Hla].
      { rewrite Hvals. by rewrite <- app_assoc. }
      split; [|by left]. rewrite Hst.
      apply NoDup_app. split; [done|]. split; [|apply NoDup_singleton].
      intros x Hx Hx'. apply list_elem_of_singleton in Hx'. by subst.
    - destruct (link_stored_of_values c2 (link_stored c) value) as [Hst Hla];
        [done|].
      split; [by rewrite Hst|]. right. by rewrite Hst, Hla. }
  destruct (node_at _ _ ≫= link_next); inversion Hrun; subst; cbn;
    by apply Forall_insert.
Qed.

Lemma reachable_chain_distinct (ops : list hashindex_op)
    (ctx ctx' : ftgc_hashindex_s) :
  Forall chain_distinct (chain ctx) ->
  run_ops ctx ops = Ok ctx' ->
  Forall chain_distinct (chain ctx').
Proof.
  revert ctx. induction ops as [|op ops IH]; intros ctx Hnd Hrun; cbn in Hrun.
  - by inversion Hrun; subst.
  - destruct (run_op ctx op) as [ctx1|] eqn:Hop; [|done]. cbn in Hrun.
    apply (IH ctx1); [|done].
    destruct op as [ok key value | key]; cbn in Hop.
    + destruct (ftgc_hashindex_add_key ok ctx key value) as [[r c1]|] eqn:Ha;
        [|done].
      cbn in Hop. inversion Hop; subst. by eapply add_key_chain_distinct.
    + unfold ftgc_hashindex_remove_first in Hop.
      destruct (arr_set (table ctx) key FTGC_HASHINDEX_DELETED); [|done].
      cbn in Hop. by inversion Hop; subst.
Qed.

(** A slot that has seen [add_key] only, all allocations succeeding,
    holds each distinct value once, in order of first occurrence; the
    two sentinels are not values. *)
Lemma add_distinct_spec (acc : list Z) (v : Z) :
  NoDup acc -> NoDup (add_distinct acc v) /\
  forall x, x ∈ add_distinct acc v <-> x ∈ acc \/ x = v.
Proof.
  intros Hnd. unfold add_distinct. case_bool_decide as Hin.
  - split; [done|]. intros x. split; [auto|]. intros [?|E]; [done | by subst].
  - split.
    + apply NoDup_app. split; [done|]. split; [|apply NoDup_singleton].
      intros x Hx Hx'. apply list_elem_of_singleton in Hx'. by subst.
    + intros x. rewrite elem_of_app, list_elem_of_singleton. done.
Qed.

Lemma distinct_values_spec (vs : list Z) :
  NoDup (distinct_values vs) /\
  forall x, x ∈ distinct_values vs <-> x ∈ vs.
Proof.
  unfold distinct_values.
  assert (H : forall acc, NoDup acc ->
            NoDup (foldl add_distinct acc vs) /\
            forall x, x ∈ foldl add_distinct acc vs <-> x ∈ acc \/ x ∈ vs).
  { induction vs as [|v vs IH]; intros acc Hacc; cbn.
    - split; [done|]. intros x. rewrite elem_of_nil. tauto.
    - destruct (add_distinct_spec acc v Hacc) as [Hnd Hel].
      destruct (IH _ Hnd) as [Hnd' Hel']. split; [done|].
      intros x. rewrite Hel', Hel, elem_of_cons. tauto. }
  destruct (H [] (NoDup_nil_2)) as [Hnd Hel]. split; [done|].
  intros x. rewrite Hel, elem_of_nil. tauto.
Qed.

Lemma add_key_slot_distinct (ctx : ftgc_hashindex_s) (key value t : Z)
    (c : ftgc__hashlink_s) :
  0 <= key ->
  value <> FTGC_HASHINDEX_UNUSED -> value <> FTGC_HASHINDEX_DELETED ->
  table ctx !! Z.to_nat key = Some t ->
  chain ctx !! Z.to_nat key = Some c ->
  t <> FTGC_HASHINDEX_DELETED ->
  link_last c = FTGC_HASHINDEX_UNUSED ->
  (t = FTGC_HASHINDEX_UNUSED -> link_stored c = []) ->
  exists r ctx' t' c',
    ftgc_hashindex_add_key true ctx key value = Ok (r, ctx') /\
    table ctx' !! Z.to_nat key = Some t' /\
    chain ctx' !! Z.to_nat key = Some c' /\
    t' <> FTGC_HASHINDEX_DELETED /\
    link_last c' = FTGC_HASHINDEX_UNUSED /\
    (t' = FTGC_HASHINDEX_UNUSED -> link_stored c' = []) /\
    bucket_of t' c' = add_distinct (bucket_of t c) value.
Proof.
  intros Hk Hvu Hvd Ht Hc Htd Hlast Hempty.
  pose proof (lookup_lt_Some _ _ _ Ht) as Hlt.
  pose proof (lookup_lt_Some _ _ _ Hc) as Hlc.
  destruct (decide (t = FTGC_HASHINDEX_UNUSED)) as [Etu|Etu].
  - rewrite (add_key_empty ctx key value t) by (done || by left).
    eexists _, _, value, c. split; [reflexivity|]. cbn.
    split; [by apply list_lookup_insert_eq|]. split; [done|].
    split; [done|]. split; [done|]. split; [done|].
    unfold bucket_of, add_distinct.
    rewrite (bool_decide_eq_true_2 (t = _)) by done.
    rewrite (bool_decide_eq_false_2 (value = _)) by done.
    rewrite Hempty by done.
    rewrite bool_decide_eq_false_2 by apply not_elem_of_nil. done.
  - assert (Hb : bucket_of t c = t :: link_stored c)
      by (unfold bucket_of; by rewrite bool_decide_eq_false_2).
    destruct (decide (value ∈ bucket_of t c)) as [Hin|Hnin].
    + rewrite (add_key_duplicate ctx key value t c)
        by (done || (rewrite Hb in Hin; by apply elem_of_cons in Hin)).
      eexists _, _, t, c. split; [reflexivity|].
      do 5 (split; [done|]).
      unfold add_distinct. by rewrite bool_decide_eq_true_2.
    + destruct (add_key_append ctx key value t c true) as (c' & Hvals & ->);
        try done.
      { intros ->. apply Hnin. rewrite Hb. apply elem_of_cons. by left. }
      { intros Hs. apply Hnin. rewrite Hb. apply elem_of_cons. by right. }
      destruct (link_stored_of_values c' (link_stored c ++ [value])
                  FTGC_HASHINDEX_UNUSED) as [Hst Hla].
      { rewrite Hvals. by rewrite <- app_assoc. }
      eexists _, _, t, c'. split; [reflexivity|]. cbn.
      split; [done|]. split; [by apply list_lookup_insert_eq|].
      split; [done|]. split; [done|]. split; [done|].
      unfold add_distinct. rewrite bool_decide_eq_false_2 by done.
      unfold bucket_of. rewrite !bool_decide_eq_false_2 by done.
      by rewrite Hst.
Qed.

Lemma add_only_slot_distinct (vs : list Z) (ctx : ftgc_hashindex_s)
    (key t : Z) (c : ftgc__hashlink_s) :
  0 <= key ->
  Forall (fun v => v <> FTGC_HASHINDEX_UNUSED /\
                   v <> FTGC_HASHINDEX_DELETED) vs ->
  table ctx !! Z.to_nat key = Some t ->
  chain ctx !! Z.to_nat key = Some c ->
  t <> FTGC_HASHINDEX_DELETED ->
  link_last c = FTGC_HASHINDEX_UNUSED ->
  (t = FTGC_HASHINDEX_UNUSED -> link_stored c = []) ->
  Forall (fun v => v <> FTGC_HASHINDEX_UNUSED /\
                   v <> FTGC_HASHINDEX_DELETED) (bucket_of t c) ->
  exists ctx' t' c',
    run_ops ctx (map (OpAddKey true key) vs) = Ok ctx' /\
    table ctx' !! Z.to_nat key = Some t' /\
    chain ctx' !! Z.to_nat key = Some c' /\
    link_last c' = FTGC_HASHINDEX_UNUSED /\
    bucket_of t' c' = foldl add_distinct (bucket_of t c) vs /\
    iter_sequence (length (link_values c') + 2) ctx' key
      = Ok (foldl add_distinct (bucket_of t c) vs).
Proof.
  intros Hk Hvs. revert ctx t c.
  induction Hvs as [|v vs Hv _ IH]; intros ctx t c Ht Hc Htd Hlast Hempty Hb.
  - exists ctx, t, c. cbn. split; [done|]. split; [done|]. split; [done|].
    split; [done|]. split; [done|].
    unfold iter_sequence, ftgc_hashindex_iter_get_first.
    assert (arr_get (table ctx) key = Ok t) as -> by (by apply arr_get_Ok).
    cbn. rewrite (iter_collect_spec _ ctx key c Hk Hc 0%nat c) by (done || lia).
    f_equal. unfold bucket_of. cbn [until_unused].
    case_bool_decide as Et; [done|]. f_equal.
    rewrite link_values_stored, Hlast.
    unfold bucket_of in Hb. rewrite bool_decide_eq_false_2 in Hb by done.
    apply Forall_cons in Hb as [_ Hb].
    assert (List.filter not_deleted (link_stored c ++ [FTGC_HASHINDEX_UNUSED])
            = link_stored c ++ [FTGC_HASHINDEX_UNUSED]) as ->.
    { clear -Hb. induction Hb as [|x l Hx _ IH]; cbn; [done|].
      rewrite not_deleted_true by apply Hx.
      by rewrite IH. }
    clear -Hb. induction Hb as [|x l Hx _ IH]; cbn; [done|].
    rewrite bool_decide_eq_false_2 by apply Hx.
    by rewrite IH.
  - destruct Hv as [Hvu Hvd].
    destruct (add_key_slot_distinct ctx key v t c)
      as (r & ctx1 & t1 & c1 & Hrun & Ht1 & Hc1 & Htd1 & Hl1 & He1 & Hb1);
      try done.
    destruct (IH ctx1 t1 c1) as (ctx' & t' & c' & Hrun' & ?); try done.
    { rewrite Hb1. unfold add_distinct. case_bool_decide; [done|].
      apply Forall_app. split; [done|]. by apply Forall_singleton. }
    exists ctx', t', c'. cbn. rewrite Hrun. cbn. rewrite Hrun'.
    by rewrite <- Hb1.
Qed.

(** The table entry of a slot is not a node of its chain, and [add_key]
    on a tombstoned table entry does not look at the chain: in a
    four-slot index, [add_key(1,5)], [add_key(1,7)], [remove_first(1)],
    [add_key(1,7)] leave slot 1 with 7 in the table entry and 7 in the
    chain, whose nodes stay distinct. *)
Example readded_value_heads_its_chain :
  index4_readded
    = Ok (mk_hashindex [-1; 7; -1; -1]
            [Link_end (-1); Link 7 (Link_end (-1));
             Link_end (-1); Link_end (-1)] 4 3) /\
  (ctx ← index4_readded; slot_entries ctx 1)
    = Ok [7; 7; FTGC_HASHINDEX_UNUSED] /\
  (ctx ← index4_readded; iter_sequence 4 ctx 1) = Ok [7; 7] /\
  (ctx ← run_ops index4 [OpAddKey true 1 5; OpAddKey true 1 7; OpRemoveFirst 1];
   ftgc_hashindex_add_key true ctx 1 7)
    = (ctx ← index4_readded; Ok (0, ctx)).
Proof. vm_compute. repeat split; reflexivity. Qed.

End HashIndexProps.

Lemma iteration_visits_witness :
  HashIndex.iter_sequence 5
    (HashIndex.mk_hashindex [-1; 5; -1; -1]
       [HashIndex.Link_end (-1);
        HashIndex.Link (-2) (HashIndex.Link 9 (HashIndex.Link_end (-1)));
        HashIndex.Link_end (-1); HashIndex.Link_end (-1)] 4 3) 1
  = Ok [5; 9].
Proof.
  refine (proj1 (iteration_visits _ 1 5
            (HashIndex.Link (-2) (HashIndex.Link 9 (HashIndex.Link_end (-1))))
            5%nat _ _ _ _)).
  - lia.
  - reflexivity.
  - reflexivity.
  - cbn. lia.
Defined.

(** ** Variants *)

Section VariantProps.
Import Variant.

Lemma c_str_terminated (s rest : list ascii) :
  c_str (c_str s ++ NUL :: rest) = c_str s.
Proof.
  induction s as [|c s IH]; cbn.
  - done.
  - destruct (is_nul c) eqn:E; cbn; [done|]. by rewrite E, IH.
Qed.

Lemma owned_Some (x : ftgc_variant_s) (p : ptr) :
  owned x = Some p <->
  field_type x = FTGC_VARTYPE_STRING /\ internal_storage x = p /\ p <> NULL.
Proof.
  unfold owned. do 2 case_bool_decide; cbn; split.
  all: try (intros [= <-]; done).
  all: try done.
  all: try (intros (? & ? & ?); congruence).
Qed.

Lemma variant_clear_spec (h : gmap Z (list ascii)) (x : ftgc_variant_s) :
  variant_wf h x ->
  FTGC__VARIANT_CLEAR h x
  = Ok (released h x, mk_variant NULL NULL FTGC_VARTYPE_VOID).
Proof.
  intros Hwf. unfold FTGC__VARIANT_CLEAR, released.
  destruct (owned x) as [p|] eqn:Ho.
  - destruct (Hwf p Ho) as [s Hs].
    apply owned_Some in Ho as (Ht & Hi & Hp).
    rewrite !bool_decide_eq_true_2 by done.
    rewrite bool_decide_eq_false_2 by congruence. cbn.
    unfold FTGC_FREE. rewrite bool_decide_eq_false_2 by congruence.
    rewrite Hi, Hs. done.
  - unfold owned in Ho.
    destruct (bool_decide (field_type x = FTGC_VARTYPE_STRING) &&
              negb (bool_decide (internal_storage x = NULL))); [done|].
    done.
Qed.

Lemma released_lookup (h : gmap Z (list ascii)) (x : ftgc_variant_s)
    (p : ptr) (s : list ascii) :
  h !! p = Some s -> owned x <> Some p -> released h x !! p = Some s.
Proof.
  intros Hp Ho. unfold released. destruct (owned x) as [q|]; [|done].
  rewrite lookup_delete_ne; [done | congruence].
Qed.

(** C3, as stated, fails: a failed [set_string] on a freshly initialised
    variant reports failure but leaves the tag STRING, not VOID; on a
    variant that owned a buffer, that buffer is gone as well. *)
Lemma set_string_alloc_failure_counterexample :
  ftgc_variant_set_string NULL heap_hello
    (ftgc_variant_init (mk_variant NULL NULL FTGC_VARTYPE_VOID)) 100
  = Ok (0, heap_hello, mk_variant NULL NULL FTGC_VARTYPE_STRING) /\
  ftgc_variant_set_string NULL heap_hello variant_old 100
  = Ok (0, delete 200 heap_hello, mk_variant NULL NULL FTGC_VARTYPE_STRING) /\
  FTGC_VARTYPE_STRING <> FTGC_VARTYPE_VOID.
Proof. repeat split; [vm_compute; reflexivity.. | discriminate]. Qed.

(** C3 (amended): when the allocation inside [set_string] fails, the call
    reports failure (0) and leaves the variant with tag STRING and both
    string pointers NULL; the buffer it owned before, if any, has been
    freed. *)
Theorem set_string_alloc_failure (h : gmap Z (list ascii))
    (ctx : ftgc_variant_s) (str : ptr) (s : list ascii) :
  variant_wf h ctx -> h !! str = Some s -> owned ctx <> Some str ->
  ftgc_variant_set_string NULL h ctx str
  = Ok (0, released h ctx, mk_variant NULL NULL FTGC_VARTYPE_STRING).
Proof.
  intros Hwf Hs Ho. unfold ftgc_variant_set_string.
  rewrite variant_clear_spec by done. cbn.
  unfold heap_read. rewrite (released_lookup _ _ _ _ Hs Ho). done.
Qed.

Lemma variant_set_string_ok (h : gmap Z (list ascii))
    (ctx : ftgc_variant_s) (str a : ptr) (s : list ascii) :
  variant_wf h ctx -> h !! str = Some s -> owned ctx <> Some str ->
  a <> NULL ->
  ftgc_variant_set_string a h ctx str
  = Ok (1, <[a := c_str s ++ [NUL]]> (released h ctx),
        mk_variant NULL a FTGC_VARTYPE_STRING).
Proof.
  intros Hwf Hs Ho Ha. unfold ftgc_variant_set_string.
  rewrite variant_clear_spec by done. cbn.
  unfold heap_read. rewrite (released_lookup _ _ _ _ Hs Ho). cbn.
  by rewrite bool_decide_eq_false_2.
Qed.

(** C8: after a successful [set_string] of the string at address [str],
    [get_string] returns the address the allocator handed out, which is
    not [str] and holds a copy of the string; the caller's string is
    untouched. After [set_string_ptr p], [get_string] returns [p] itself
    and no block was allocated. *)
Theorem string_owned_or_borrowed (h : gmap Z (list ascii))
    (ctx : ftgc_variant_s) (str a p : ptr) (s : list ascii) :
  variant_wf h ctx ->
  (h !! str = Some s -> owned ctx <> Some str ->
   a <> NULL -> released h ctx !! a = None ->
   exists h' ctx',
     ftgc_variant_set_string a h ctx str = Ok (1, h', ctx') /\
     field_type ctx' = FTGC_VARTYPE_STRING /\
     ftgc_variant_get_string_asserts ctx' = true /\
     ftgc_variant_get_string ctx' = a /\
     a <> str /\
     c_str <$> h' !! a = Some (c_str s) /\
     h' !! str = Some s /\
     owned ctx' = Some a) /\
  (exists ctx',
     ftgc_variant_set_string_ptr h ctx p = Ok (released h ctx, ctx') /\
     field_type ctx' = FTGC_VARTYPE_STRING /\
     ftgc_variant_get_string ctx' = p /\
     owned ctx' = None).
Proof.
  intros Hwf. split.
  - intros Hs Ho Ha Hfresh.
    pose proof (released_lookup _ _ _ _ Hs Ho) as Hs'.
    assert (a <> str) as Hne by congruence.
    unfold ftgc_variant_set_string.
    rewrite variant_clear_spec by done. cbn.
    unfold heap_read. rewrite Hs'. cbn.
    rewrite bool_decide_eq_false_2 by done.
    eexists _, _. split; [reflexivity|]. cbn.
    split; [done|]. split; [done|]. split.
    { unfold ftgc_variant_get_string. cbn. done. }
    split; [done|]. split.
    { rewrite lookup_insert_eq. cbn. by rewrite c_str_terminated. }
    split.
    { by rewrite lookup_insert_ne. }
    apply owned_Some. done.
  - unfold ftgc_variant_set_string_ptr.
    rewrite variant_clear_spec by done. cbn.
    eexists. split; [reflexivity|]. cbn. split; [done|]. split.
    + unfold ftgc_variant_get_string. cbn. case_bool_decide; cbn; [|done].
      by subst.
    + unfold owned. cbn. done.
Qed.

End VariantProps.

Lemma set_string_alloc_failure_witness :
  Variant.ftgc_variant_set_string NULL Variant.heap_hello Variant.variant_old 100
  = Ok (0, Variant.released Variant.heap_hello Variant.variant_old,
        Variant.mk_variant NULL NULL Variant.FTGC_VARTYPE_STRING).
Proof.
  apply (set_string_alloc_failure Variant.heap_hello Variant.variant_old 100
           (list_ascii_of_string "hello" ++ [NUL])).
  - intros p Hp. vm_compute in Hp. inversion Hp; subst. vm_compute. eauto.
  - vm_compute. reflexivity.
  - vm_compute. discriminate.
Defined.

Lemma string_owned_or_borrowed_witness :
  exists h' ctx',
    Variant.ftgc_variant_set_string 200 Variant.heap_hello Variant.variant_old 100
      = Ok (1, h', ctx') /\
    Variant.ftgc_variant_get_string ctx' = 200 /\
    (200 : Z) <> 100.
Proof.
  destruct (string_owned_or_borrowed Variant.heap_hello Variant.variant_old
              100 200 100 (list_ascii_of_string "hello" ++ [NUL]))
    as [H _].
  - intros p Hp. vm_compute in Hp. inversion Hp; subst. vm_compute. eauto.
  - destruct H as (h' & ctx' & H1 & _ & _ & H3 & H4 & _).
    + vm_compute. reflexivity.
    + vm_compute. discriminate.
    + discriminate.
    + vm_compute. reflexivity.
    + exists h', ctx'. repeat split; assumption.
Defined.

Lemma index4_wf : HashIndex.hashindex_wf HashIndex.index4.
Proof.
  unfold HashIndex.hashindex_wf. vm_compute.
  repeat split; try discriminate; try reflexivity.
  repeat constructor.
Qed.


Lemma tombstone_is_reusable_witness :
  exists ctx1 ctx2,
    HashIndex.ftgc_hashindex_remove_first HashIndex.index4 1 = Ok ctx1 /\
    HashIndex.ftgc_hashindex_add_key true ctx1 1 5 = Ok (0, ctx2) /\
    HashIndex.ftgc_hashindex_iter_get_first ctx2 None 1 = Ok (5, None).
Proof.
  destruct (tombstone_is_reusable HashIndex.index4 1 5 true)
    as (ctx1 & ctx2 & H1 & _ & H3 & H4 & _).
  - exact index4_wf.
  - vm_compute. split; [discriminate | reflexivity].
  - exists ctx1, ctx2. repeat split; assumption.
Defined.

Lemma key_range_assert_off_by_one_witness :
  HashIndex.ftgc_hashindex_remove_first_asserts HashIndex.index4 4 = true /\
  HashIndex.ftgc_hashindex_remove_first HashIndex.index4 4 = Fault OutOfBounds.
Proof.
  destruct (key_range_assert_off_by_one HashIndex.index4 None index4_wf)
    as (H1 & H2 & _).
  split; [exact H1 | exact H2].
Defined.

(** ** Dictionaries *)

Section DictProps.
Import HashIndex Variant Dict.

(** *** Hash keys are in range *)

Lemma hash_step_nonneg (hash : Z) (c : ascii) : 0 <= hash_step hash c.
Proof.
  unfold hash_step. apply Z.land_nonneg. right.
  unfold uint32. apply Z.mod_pos_bound. lia.
Qed.

Lemma hash_string_nonneg (str : list ascii) (hash : Z) :
  0 <= hash -> 0 <= hash_string str hash.
Proof.
  revert hash. induction str as [|c str IH]; intros hash Hh; cbn; [done|].
  destruct (is_nul c); [done|]. apply IH, hash_step_nonneg.
Qed.

Lemma land_upper_bound (a b : Z) : 0 <= b -> Z.land a b <= b.
Proof.
  intros Hb.
  assert (Z.land (Z.ldiff b a) (Z.land b a) = 0) as Hdisj.
  { rewrite (Z.land_comm b a), Z.land_assoc, Z.land_ldiff. apply Z.land_0_l. }
  pose proof (Z.lor_ldiff_and b a) as Hor.
  rewrite <- (Z.lxor_lor _ _ Hdisj), <- (Z.add_nocarry_lxor _ _ Hdisj) in Hor.
  assert (0 <= Z.ldiff b a) by (apply Z.ldiff_nonneg; by left).
  rewrite Z.land_comm. lia.
Qed.

Lemma generate_key_range (hi : ftgc_hashindex_s) (str : list ascii) :
  1 <= table_size hi <= 2 ^ 31 -> hash_mask hi = table_size hi - 1 ->
  0 <= ftgc_hashindex_generate_key_string hi str < table_size hi.
Proof.
  intros Hs Hm. unfold ftgc_hashindex_generate_key_string.
  assert (uint32 (hash_mask hi) = hash_mask hi) as ->.
  { unfold uint32. apply Z.mod_small. lia. }
  pose proof (hash_string_nonneg str 0 ltac:(lia)) as Hn.
  assert (0 <= Z.land (hash_string str 0) (hash_mask hi) <= hash_mask hi) as Hb.
  { split; [apply Z.land_nonneg; by left|].
    apply land_upper_bound; lia. }
  unfold sint32. rewrite Z.mod_small by lia. lia.
Qed.

(** *** Comparing keys *)

Lemma char_code_range (c : ascii) : 0 <= char_code c < 256.
Proof.
  unfold char_code. pose proof (N_ascii_bounded c). lia.
Qed.

Lemma char_code_nul (c : ascii) : char_code c = 0 <-> c = NUL.
Proof.
  unfold char_code. split.
  - intros H. assert (N_of_ascii c = 0%N) as H0 by lia.
    rewrite <- (ascii_N_embedding c), H0. reflexivity.
  - intros ->. reflexivity.
Qed.

Lemma tolower_signed_nul (c : ascii) :
  tolower (char_signed c) = 0 <-> c = NUL.
Proof.
  rewrite <- char_code_nul. pose proof (char_code_range c).
  unfold tolower, char_signed. repeat case_bool_decide; lia.
Qed.

Lemma is_nul_true (c : ascii) : is_nul c = true <-> c = NUL.
Proof. unfold is_nul. apply bool_decide_eq_true. Qed.

Lemma is_nul_false (c : ascii) : is_nul c = false <-> c <> NUL.
Proof. unfold is_nul. apply bool_decide_eq_false. Qed.

(** A key compares equal to its own copy in memory. *)
Lemma keycmp_same (s rest : list ascii) :
  ftgc__keycmp s (c_str s ++ NUL :: rest) = Ok 0.
Proof.
  induction s as [|c s IH]; cbn.
  - done.
  - destruct (is_nul c) eqn:E; cbn.
    + apply is_nul_true in E. subst. done.
    + rewrite E. rewrite Z.sub_diag. cbn. exact IH.
Qed.

(** A key does not compare equal to a stored key that ends before it. *)
Lemma keycmp_longer (j : nat) (s mem : list ascii) :
  (j < strlen s)%nat -> mem !! j = Some NUL ->
  exists r, ftgc__keycmp s mem = Ok r /\ r <> 0.
Proof.
  revert s mem. induction j as [|j IH]; intros s mem Hlen Hnul.
  - destruct mem as [|c2 r2]; [done|]. cbn in Hnul. inversion Hnul; subst.
    destruct s as [|c s]; [cbn in Hlen; lia|].
    unfold strlen in Hlen. cbn in Hlen.
    destruct (is_nul c) eqn:E; [cbn in Hlen; lia|].
    cbn. rewrite E.
    assert (tolower (char_signed c) <> 0) as Hc.
    { rewrite tolower_signed_nul. by apply is_nul_false. }
    change (tolower (char_signed NUL)) with 0.
    rewrite bool_decide_eq_true_2 by lia. eexists. split; [done | lia].
  - destruct mem as [|c2 r2]; [done|]. cbn in Hnul.
    destruct s as [|c s]; [cbn in Hlen; lia|].
    unfold strlen in Hlen. cbn in Hlen.
    destruct (is_nul c) eqn:E; [cbn in Hlen; lia|].
    cbn. rewrite E. case_bool_decide as Er.
    + eexists. split; done.
    + apply IH; [|done]. unfold strlen. cbn in Hlen. lia.
Qed.

(** The comparison reads no further than the terminator of the stored
    key. *)
Lemma keycmp_reads_slot (pre a b s : list ascii) :
  NUL ∈ pre -> ftgc__keycmp s (pre ++ a) = ftgc__keycmp s (pre ++ b).
Proof.
  revert s. induction pre as [|c2 pre IH]; intros s Hin.
  - by apply elem_of_nil in Hin.
  - cbn. destruct (is_nul (match s with [] => NUL | c :: _ => c end)) eqn:E;
      [done|].
    case_bool_decide as Er; [done|].
    apply elem_of_cons in Hin as [Hc | Hin]; [|by apply IH].
    subst c2. exfalso.
    change (tolower (char_signed NUL)) with 0 in Er.
    apply is_nul_false in E. rewrite <- tolower_signed_nul in E. lia.
Qed.

Lemma keycmp_total (pre a s : list ascii) :
  NUL ∈ pre -> exists r, ftgc__keycmp s (pre ++ a) = Ok r.
Proof.
  revert s. induction pre as [|c2 pre IH]; intros s Hin.
  - by apply elem_of_nil in Hin.
  - cbn. destruct (is_nul (match s with [] => NUL | c :: _ => c end)) eqn:E;
      [by eexists|].
    case_bool_decide as Er; [by eexists|].
    apply elem_of_cons in Hin as [Hc | Hin]; [|by apply IH].
    subst c2. exfalso.
    change (tolower (char_signed NUL)) with 0 in Er.
    apply is_nul_false in E. rewrite <- tolower_signed_nul in E. lia.
Qed.

(** *** C strings in memory *)

Lemma c_str_app_nul (s rest : list ascii) :
  NUL ∉ s -> c_str (s ++ NUL :: rest) = s.
Proof.
  induction s as [|c s IH]; intros Hn; cbn.
  - done.
  - apply not_elem_of_cons in Hn as [Hc Hn].
    assert (is_nul c = false) as -> by (apply is_nul_false; congruence).
    by rewrite IH.
Qed.

Lemma c_str_no_nul (s : list ascii) : NUL ∉ c_str s.
Proof.
  induction s as [|c s IH]; cbn.
  - apply not_elem_of_nil.
  - destruct (is_nul c) eqn:E; [apply not_elem_of_nil|].
    apply not_elem_of_cons. split; [|done].
    apply is_nul_false in E. congruence.
Qed.

Lemma c_str_split (l : list ascii) :
  (strlen l < length l)%nat ->
  l = c_str l ++ NUL :: drop (S (strlen l)) l.
Proof.
  unfold strlen. induction l as [|c l IH]; cbn; [lia|].
  destruct (is_nul c) eqn:E; cbn.
  - intros _. apply is_nul_true in E. subst. by rewrite drop_0.
  - intros H. f_equal. apply IH. lia.
Qed.

Lemma c_str_nul_at (l : list ascii) :
  (strlen l < length l)%nat -> l !! strlen l = Some NUL.
Proof.
  unfold strlen. induction l as [|c l IH]; cbn; [lia|].
  destruct (is_nul c) eqn:E; cbn.
  - intros _. apply is_nul_true in E. by subst.
  - intros H. apply IH. lia.
Qed.

Lemma take_no_nul (n : nat) (s : list ascii) : NUL ∉ take n (c_str s).
Proof.
  intros H. apply (c_str_no_nul s).
  apply elem_of_take in H as (i & Hi & _). by eapply list_elem_of_lookup_2.
Qed.

(** *** Writing a key *)

Lemma set_key_loop_spec (n : nat) (src ks : list ascii) (dst : nat) :
  (dst + n < length ks)%nat ->
  set_key_loop src ks (Z.of_nat dst) n
  = Ok (take dst ks ++ take n (c_str src) ++
        NUL :: drop (dst + length (take n (c_str src)) + 1) ks).
Proof.
  assert (Hend : forall (ks : list ascii) (dst : nat), (dst < length ks)%nat ->
            arr_set ks (Z.of_nat dst) NUL
            = Ok (take dst ks ++ [] ++ NUL :: drop (dst + 0 + 1) ks)).
  { intros ks0 dst0 H. rewrite arr_set_in_range by lia.
    rewrite Nat2Z.id. cbn. replace (dst0 + 0 + 1)%nat with (S dst0) by lia.
    by rewrite insert_take_drop. }
  revert src ks dst. induction n as [|n IH]; intros src ks dst Hlen.
  - destruct src; cbn; rewrite Hend by lia; done.
  - destruct src as [|c rest]; cbn.
    + rewrite Hend by lia. done.
    + destruct (is_nul c) eqn:E.
      * rewrite Hend by lia. done.
      * rewrite arr_set_in_range by lia. cbn. rewrite Nat2Z.id.
        replace (Z.of_nat dst + 1) with (Z.of_nat (S dst)) by lia.
        rewrite IH by (rewrite length_insert; lia).
        f_equal.
        rewrite (take_S_r _ _ c)
          by (apply list_lookup_insert_eq; lia).
        rewrite take_insert_ge by lia.
        rewrite drop_insert_lt by lia.
        rewrite <- app_assoc. cbn.
        do 5 f_equal. lia.
Qed.

Lemma splice_length (l mid : list ascii) (a : nat) :
  (a + length mid <= length l)%nat ->
  length (take a l ++ mid ++ drop (a + length mid) l) = length l.
Proof.
  intros H. rewrite !length_app, length_take, length_drop. lia.
Qed.

Lemma splice_lookup_outside (l mid : list ascii) (a m : nat) :
  (a + length mid <= length l)%nat ->
  (m < a \/ a + length mid <= m)%nat ->
  (take a l ++ mid ++ drop (a + length mid) l) !! m = l !! m.
Proof.
  intros Hl [Hm | Hm].
  - rewrite lookup_app_l by (rewrite length_take; lia).
    by rewrite lookup_take_lt.
  - rewrite lookup_app_r by (rewrite length_take; lia).
    rewrite length_take.
    rewrite lookup_app_r by lia.
    rewrite lookup_drop. f_equal. lia.
Qed.

Lemma splice_drop (l mid : list ascii) (a : nat) :
  (a <= length l)%nat ->
  drop a (take a l ++ mid ++ drop (a + length mid) l)
  = mid ++ drop (a + length mid) l.
Proof.
  intros H. rewrite drop_app_length'; [done|]. rewrite length_take. lia.
Qed.

Lemma key_offset_ok (i : Z) :
  0 <= i -> i * FTGC_DICT_KEY_BYTES < 2 ^ 31 ->
  key_offset i = Ok (i * FTGC_DICT_KEY_BYTES).
Proof.
  intros H0 H1. unfold key_offset. cbn zeta.
  rewrite bool_decide_eq_true_2; [done|].
  unfold FTGC_DICT_KEY_BYTES in *. lia.
Qed.

(** From slot 238609295 on the offset is not an [int], and comparing a
    key with such a slot is undefined. *)
Lemma key_offset_overflow (i : Z) :
  238609295 <= i -> key_offset i = Fault IntOverflow.
Proof.
  intros H. unfold key_offset. cbn zeta.
  rewrite bool_decide_eq_false_2; [done|].
  unfold FTGC_DICT_KEY_BYTES. lia.
Qed.

Lemma keycmp_slot_overflow (d : ftgc_dict_s) (key : list ascii) (i : Z) :
  238609295 <= i -> keycmp_slot d key i = Fault IntOverflow.
Proof.
  intros H. unfold keycmp_slot. by rewrite key_offset_overflow.
Qed.

Lemma slot_offset (i : Z) :
  0 <= i -> Z.to_nat (i * FTGC_DICT_KEY_BYTES) = (Z.to_nat i * 9)%nat.
Proof. intros H. unfold FTGC_DICT_KEY_BYTES. lia. Qed.

Lemma slot_bytes_lookup (ks : list ascii) (i : Z) (k : nat) :
  0 <= i -> (k < 9)%nat ->
  slot_bytes ks i !! k = ks !! (Z.to_nat i * 9 + k)%nat.
Proof.
  intros Hi Hk. unfold slot_bytes.
  rewrite lookup_take_lt by (unfold FTGC_DICT_KEY_BYTES; lia).
  rewrite lookup_drop. by rewrite slot_offset.
Qed.

Lemma slot_bytes_agree (ks ks' : list ascii) (i : Z) :
  0 <= i ->
  (forall m, (Z.to_nat i * 9 <= m < Z.to_nat i * 9 + 9)%nat -> ks' !! m = ks !! m) ->
  slot_bytes ks' i = slot_bytes ks i.
Proof.
  intros Hi Hag. apply list_eq. intros k.
  destruct (decide (k < 9)%nat) as [Hk|Hk].
  - rewrite !slot_bytes_lookup by done. apply Hag. lia.
  - unfold slot_bytes.
    rewrite !lookup_take_ge by (unfold FTGC_DICT_KEY_BYTES; lia). done.
Qed.

Lemma drop_slot (ks : list ascii) (i : Z) :
  drop (Z.to_nat (i * FTGC_DICT_KEY_BYTES)) ks
  = slot_bytes ks i ++
    drop (Z.to_nat FTGC_DICT_KEY_BYTES)
         (drop (Z.to_nat (i * FTGC_DICT_KEY_BYTES)) ks).
Proof. unfold slot_bytes. by rewrite take_drop. Qed.

Lemma slot_live_nul (ks : list ascii) (i : Z) :
  slot_live ks i ->
  slot_bytes ks i !! strlen (slot_bytes ks i) = Some NUL.
Proof.
  intros (_ & Hlen & Hs). unfold FTGC_DICT_KEY_BYTES in Hlen.
  apply c_str_nul_at. lia.
Qed.

Lemma slot_live_has_nul (ks : list ascii) (i : Z) :
  slot_live ks i -> NUL ∈ slot_bytes ks i.
Proof. intros H. eapply list_elem_of_lookup_2, slot_live_nul, H. Qed.

(** On a live slot the comparison is defined and depends on the bytes of
    that slot only. *)
Lemma keycmp_slot_live (d : ftgc_dict_s) (key : list ascii) (i : Z) :
  0 <= i -> slot_live (keys d) i ->
  keycmp_slot d key i = ftgc__keycmp key (slot_bytes (keys d) i ++ []) /\
  exists r, keycmp_slot d key i = Ok r.
Proof.
  intros Hi Hl. unfold keycmp_slot.
  rewrite (key_offset_ok i Hi) by apply Hl. cbn [mbind result_bind].
  rewrite bool_decide_eq_true_2 by (unfold FTGC_DICT_KEY_BYTES; lia).
  rewrite drop_slot. split.
  - apply keycmp_reads_slot. by apply slot_live_has_nul.
  - apply keycmp_total. by apply slot_live_has_nul.
Qed.

(** A key longer than eight characters matches no live slot. *)
Lemma keycmp_slot_long (d : ftgc_dict_s) (key : list ascii) (i : Z) :
  0 <= i -> slot_live (keys d) i -> (8 < strlen key)%nat ->
  exists r, keycmp_slot d key i = Ok r /\ r <> 0.
Proof.
  intros Hi Hl Hk. unfold keycmp_slot.
  rewrite (key_offset_ok i Hi) by apply Hl. cbn [mbind result_bind].
  rewrite bool_decide_eq_true_2 by (unfold FTGC_DICT_KEY_BYTES; lia).
  apply (keycmp_longer (strlen (slot_bytes (keys d) i))).
  - destruct Hl as (_ & _ & Hl). lia.
  - rewrite drop_slot. apply lookup_app_l_Some. by apply slot_live_nul.
Qed.

(** The effect of [ftgc__dict_set_key] on the key array. *)
Lemma set_key_effect (key ks : list ascii) (t : Z) :
  0 <= t -> (t + 1) * FTGC_DICT_KEY_BYTES <= Z.of_nat (length ks) ->
  exists ks' post,
    ftgc__dict_set_key key ks (t * FTGC_DICT_KEY_BYTES) = Ok ks' /\
    length ks' = length ks /\
    drop (Z.to_nat (t * FTGC_DICT_KEY_BYTES)) ks'
      = take 8 (c_str key) ++ NUL :: post /\
    (forall m, (m < Z.to_nat t * 9 \/ Z.to_nat t * 9 + 9 <= m)%nat ->
       ks' !! m = ks !! m).
Proof.
  intros Ht Hlen. unfold FTGC_DICT_KEY_BYTES in Hlen.
  unfold ftgc__dict_set_key.
  replace (t * FTGC_DICT_KEY_BYTES) with (Z.of_nat (Z.to_nat t * 9))
    by (unfold FTGC_DICT_KEY_BYTES; lia).
  change (Z.to_nat (FTGC_DICT_KEY_BYTES - 1)) with 8%nat.
  rewrite set_key_loop_spec by lia. rewrite Nat2Z.id.
  set (a := (Z.to_nat t * 9)%nat).
  set (pre := take 8 (c_str key)).
  assert (length pre <= 8)%nat as Hpre by (unfold pre; rewrite length_take; lia).
  eexists _, _. split; [reflexivity|].
  assert (Heq : take a ks ++ pre ++ NUL :: drop (a + length pre + 1) ks
                = take a ks ++ (pre ++ [NUL]) ++ drop (a + length (pre ++ [NUL])) ks).
  { rewrite length_app. cbn. rewrite <- app_assoc. cbn.
    by rewrite Nat.add_assoc. }
  assert (length (pre ++ [NUL]) <= 9)%nat as Hmid by (rewrite length_app; cbn; lia).
  split; [|split].
  - rewrite Heq. apply splice_length. lia.
  - rewrite drop_app_length'; [done|]. rewrite length_take. lia.
  - intros m Hm. rewrite Heq. apply splice_lookup_outside; lia.
Qed.

(** *** Looking a key up *)

Lemma find_loop_collect (fuel : nat) (d : ftgc_dict_s) (key : list ascii)
    (iter : ftgc_hashindex_iter_s) (v : Z) (vs : list Z) :
  iter_collect fuel (hash_index d) iter v = Ok vs ->
  find_loop fuel d key iter v = first_match d key vs.
Proof.
  revert iter v vs. induction fuel as [|f IH]; intros iter v vs; [done|].
  cbn [iter_collect find_loop]. case_bool_decide as Eu.
  - intros [= <-]. done.
  - destruct (ftgc_hashindex_iter_get_next (hash_index d) iter)
      as [[v' iter']|] eqn:En; [|done].
    cbn. destruct (iter_collect f (hash_index d) iter' v') as [rest|] eqn:Ec;
      [|done].
    cbn. intros [= <-]. cbn [first_match].
    case_bool_decide as Ed; [by apply IH|].
    destruct (keycmp_slot d key v) as [r|]; [|done]. cbn.
    case_bool_decide; [done | by apply IH].
Qed.

Lemma find_index_spec (d : ftgc_dict_s) (key : list ascii) (t : Z)
    (c : ftgc__hashlink_s) :
  let hash := ftgc_hashindex_generate_key_string (hash_index d) key in
  0 <= hash ->
  table (hash_index d) !! Z.to_nat hash = Some t ->
  chain (hash_index d) !! Z.to_nat hash = Some c ->
  ftgc__dict_find_index_for_key d key
  = first_match d key
      (until_unused (t :: List.filter not_deleted (link_values c))).
Proof.
  intros hash Hh Ht Hc. unfold ftgc__dict_find_index_for_key.
  fold hash. unfold ftgc_hashindex_iter_get_first.
  assert (arr_get (table (hash_index d)) hash = Ok t) as ->
    by (by apply arr_get_Ok).
  cbn. apply find_loop_collect.
  apply (iter_collect_spec _ _ hash c); [done | done | done |].
  unfold find_fuel. rewrite Hc. lia.
Qed.

Lemma until_unused_app (l r : list Z) :
  Forall (fun v => v <> FTGC_HASHINDEX_UNUSED) l ->
  until_unused (l ++ FTGC_HASHINDEX_UNUSED :: r) = l.
Proof.
  induction 1 as [|v l Hv _ IH]; cbn.
  - done.
  - rewrite bool_decide_eq_false_2 by done. by rewrite IH.
Qed.

Lemma filter_not_deleted_id (l : list Z) :
  Forall (fun v => v <> FTGC_HASHINDEX_DELETED) l ->
  List.filter not_deleted l = l.
Proof.
  induction 1 as [|v l Hv _ IH]; cbn; [done|].
  rewrite not_deleted_true by done. by rewrite IH.
Qed.

Lemma bucket_shape (skip : option Z) (h : gmap Z (list ascii))
    (d : ftgc_dict_s) (hash : Z) :
  dict_wf_except skip h d -> 0 <= hash < table_size (hash_index d) ->
  exists t c,
    table (hash_index d) !! Z.to_nat hash = Some t /\
    chain (hash_index d) !! Z.to_nat hash = Some c /\
    link_last c = FTGC_HASHINDEX_UNUSED /\
    (t = FTGC_HASHINDEX_UNUSED \/ 0 <= t < num_pairs d) /\
    Forall (fun v => 0 <= v < num_pairs d) (link_stored c) /\
    until_unused (t :: List.filter not_deleted (link_values c)) = bucket_of t c.
Proof.
  intros (Hhi & _ & _ & _ & _ & _ & _ & [Het Hec] & _) Hh.
  destruct (arr_get_in_range _ _ (wf_table_range _ _ Hhi Hh)) as (t & _ & Ht).
  destruct (arr_get_in_range _ _ (wf_chain_range _ _ Hhi Hh)) as (c & _ & Hc).
  exists t, c. split; [done|]. split; [done|].
  destruct Hhi as (_ & _ & _ & Hlast).
  rewrite Forall_lookup in Hlast. specialize (Hlast _ _ Hc). cbn in Hlast.
  rewrite Forall_lookup in Het. specialize (Het _ _ Ht). cbn in Het.
  rewrite Forall_lookup in Hec. specialize (Hec _ _ Hc). cbn in Hec.
  split; [done|]. split; [done|]. split; [done|].
  unfold bucket_of. cbn [until_unused]. case_bool_decide as Et; [done|].
  f_equal. rewrite link_values_stored, Hlast.
  rewrite filter_not_deleted_id.
  - apply until_unused_app. eapply Forall_impl; [exact Hec|].
    cbn. intros v Hv. unfold FTGC_HASHINDEX_UNUSED. lia.
  - apply Forall_app. split.
    + eapply Forall_impl; [exact Hec|].
      cbn. intros v Hv. unfold FTGC_HASHINDEX_DELETED. lia.
    + by repeat constructor.
Qed.

Lemma bucket_below (t : Z) (c : ftgc__hashlink_s) (n : Z) :
  t = FTGC_HASHINDEX_UNUSED \/ 0 <= t < n ->
  Forall (fun v => 0 <= v < n) (link_stored c) ->
  Forall (fun v => 0 <= v < n) (bucket_of t c).
Proof.
  intros Ht Hc. unfold bucket_of. case_bool_decide; [constructor|].
  constructor; [|done]. destruct Ht; [done | lia].
Qed.

(** On live slots the search is defined; it yields UNUSED only when no
    visited slot compares equal, and otherwise a visited slot that
    does. *)
Lemma first_match_live (d : ftgc_dict_s) (key : list ascii) (l : list Z) :
  Forall (fun e => 0 <= e /\ slot_live (keys d) e) l ->
  exists r, first_match d key l = Ok r /\
    ((r = FTGC_HASHINDEX_UNUSED /\
      Forall (fun e => exists x, keycmp_slot d key e = Ok x /\ x <> 0) l) \/
     (0 <= r /\ r ∈ l /\ keycmp_slot d key r = Ok 0)).
Proof.
  induction 1 as [|e l [He Hl] _ IH]; cbn.
  - eexists. split; [done|]. left. split; [done | constructor].
  - rewrite bool_decide_eq_false_2 by (unfold FTGC_HASHINDEX_DELETED; lia).
    destruct (keycmp_slot_live d key e He Hl) as [_ [x Hx]].
    rewrite Hx. cbn. case_bool_decide as E0.
    + subst x. eexists. split; [done|]. right.
      split; [done|]. split; [apply elem_of_cons; by left | done].
    + destruct IH as (r & Hr & [[Hu Hall] | (H0 & Hin & Hk)]).
      * exists r. split; [done|]. left. split; [done|].
        constructor; [|done]. by exists x.
      * exists r. split; [done|]. right.
        split; [done|]. split; [apply elem_of_cons; by right | done].
Qed.

Lemma first_match_long (d : ftgc_dict_s) (key : list ascii) (l : list Z) :
  (8 < strlen key)%nat ->
  Forall (fun e => 0 <= e /\ slot_live (keys d) e) l ->
  first_match d key l = Ok FTGC_HASHINDEX_UNUSED.
Proof.
  intros Hk. induction 1 as [|e l [He Hl] _ IH]; cbn; [done|].
  rewrite bool_decide_eq_false_2 by (unfold FTGC_HASHINDEX_DELETED; lia).
  destruct (keycmp_slot_long d key e He Hl Hk) as (x & -> & Hx). cbn.
  by rewrite bool_decide_eq_false_2.
Qed.

(** The search after the key of slot [target] has been rewritten to the
    searched key: visited slots other than [target] compare as before. *)
Lemma first_match_hit (d d' : ftgc_dict_s) (key : list ascii) (target : Z)
    (l : list Z) :
  0 <= target ->
  Forall (fun e => e <> target -> keycmp_slot d' key e = keycmp_slot d key e) l ->
  keycmp_slot d' key target = Ok 0 ->
  first_match d key l = Ok target ->
  first_match d' key l = Ok target.
Proof.
  intros Ht Hall Hnew. induction Hall as [|e l He _ IH]; cbn.
  - intros [= E]. unfold FTGC_HASHINDEX_UNUSED in E. lia.
  - case_bool_decide as Ed; [done|].
    destruct (decide (e = target)) as [->|Hne].
    + intros _. rewrite Hnew. cbn. done.
    + rewrite (He Hne). destruct (keycmp_slot d key e) as [x|]; [|done]. cbn.
      case_bool_decide; [|done]. intros [= E]. done.
Qed.

Lemma first_match_miss (d' : ftgc_dict_s) (key : list ascii) (target : Z)
    (l : list Z) :
  0 <= target ->
  Forall (fun e => 0 <= e /\ (e <> target ->
                    exists x, keycmp_slot d' key e = Ok x /\ x <> 0)) l ->
  keycmp_slot d' key target = Ok 0 ->
  first_match d' key (l ++ [target]) = Ok target.
Proof.
  intros Ht Hall Hnew. induction Hall as [|e l [He Hx] _ IH]; cbn.
  - rewrite bool_decide_eq_false_2 by (unfold FTGC_HASHINDEX_DELETED; lia).
    rewrite Hnew. cbn. done.
  - rewrite bool_decide_eq_false_2 by (unfold FTGC_HASHINDEX_DELETED; lia).
    destruct (decide (e = target)) as [->|Hne].
    + rewrite Hnew. cbn. done.
    + destruct (Hx Hne) as (x & -> & Hnz). cbn.
      by rewrite bool_decide_eq_false_2.
Qed.

(** *** Growing the arrays and claiming a slot *)

Lemma realloc_grow_app {A} (l : list A) (n : nat) (junk : nat -> A) :
  (length l <= n)%nat ->
  realloc_grow l n junk = l ++ map junk (seq (length l) (n - length l)) /\
  length (realloc_grow l n junk) = n.
Proof.
  intros H. unfold realloc_grow. rewrite take_ge by done. split; [done|].
  rewrite length_app, length_map, length_seq. lia.
Qed.

Lemma init_values_spec (n : nat) (vs : list ftgc_variant_s) (i : nat) :
  (i + n <= length vs)%nat ->
  init_values vs (Z.of_nat i) n
  = Ok (take i vs ++ replicate n (mk_variant NULL NULL FTGC_VARTYPE_VOID)
        ++ drop (i + n) vs).
Proof.
  revert vs i. induction n as [|n IH]; intros vs i Hlen; cbn.
  - rewrite Nat.add_0_r. by rewrite take_drop.
  - destruct (arr_get_in_range vs (Z.of_nat i)) as (v & -> & _); [lia|].
    cbn. rewrite arr_set_in_range by lia. cbn. rewrite Nat2Z.id.
    replace (Z.of_nat i + 1) with (Z.of_nat (S i)) by lia.
    rewrite IH by (rewrite length_insert; lia). f_equal.
    rewrite (take_S_r _ _ (mk_variant NULL NULL FTGC_VARTYPE_VOID))
      by (apply list_lookup_insert_eq; lia).
    rewrite take_insert_ge by lia. rewrite drop_insert_lt by lia.
    rewrite <- app_assoc. cbn.
    replace (S (i + n))%nat with (i + S n)%nat by lia. done.
Qed.

Lemma slot_live_app (ks tail : list ascii) (i : Z) :
  0 <= i -> slot_live ks i -> slot_live (ks ++ tail) i.
Proof.
  intros Hi (Hoff & Hlen & Hs).
  assert (slot_bytes (ks ++ tail) i = slot_bytes ks i) as Heq;
    [|unfold slot_live; by rewrite Heq].
  apply list_eq. intros k.
  destruct (decide (k < 9)%nat) as [Hk|Hk].
  - rewrite !slot_bytes_lookup by done.
    assert (is_Some (slot_bytes ks i !! k)) as [c Hc].
    { apply lookup_lt_is_Some. rewrite Hlen. unfold FTGC_DICT_KEY_BYTES. lia. }
    rewrite slot_bytes_lookup in Hc by done.
    rewrite Hc. by apply lookup_app_l_Some.
  - unfold slot_bytes.
    rewrite !lookup_take_ge by (unfold FTGC_DICT_KEY_BYTES; lia). done.
Qed.

Lemma sint32_small (z : Z) : 0 <= z < 2 ^ 31 -> sint32 z = z.
Proof. intros H. unfold sint32. rewrite Z.mod_small by lia. lia. Qed.

Lemma reallocate_ok (al : dict_allocs) (h : gmap Z (list ascii))
    (d : ftgc_dict_s) (jk : nat -> ascii) (jv : nat -> ftgc_variant_s) :
  dict_wf h d -> dict_size d < 2 ^ 30 ->
  realloc_keys al = Some jk -> realloc_values al = Some jv ->
  exists d1 tail,
    ftgc__dict_reallocate al d (sint32 (dict_size d + FTGC_DICT_KEY_BYTES))
      = Ok (1, d1) /\
    dict_wf h d1 /\
    dict_size d1 = dict_size d + FTGC_DICT_KEY_BYTES /\
    num_pairs d1 = num_pairs d /\
    hash_index d1 = hash_index d /\
    keys d1 = keys d ++ tail /\
    values d1
      = values d ++ replicate 9 (mk_variant NULL NULL FTGC_VARTYPE_VOID).
Proof.
  intros Hwf Hb Hk Hv.
  destruct Hwf as (Hhi & Hts & Hm & Hnp & Hlk & Hlv & Hlive & Hent & Hown).
  unfold ftgc__dict_reallocate. rewrite Hk, Hv.
  unfold FTGC_DICT_KEY_BYTES in *.
  rewrite sint32_small by lia.
  destruct (realloc_grow_app (keys d) (Z.to_nat (9 * (dict_size d + 9))) jk)
    as [Hke Hkl]; [lia|].
  destruct (realloc_grow_app (values d) (Z.to_nat (dict_size d + 9)) jv)
    as [Hve Hvl]; [lia|].
  replace (Z.to_nat (dict_size d + 9 - dict_size d)) with 9%nat by lia.
  assert (Hinit :
    init_values (realloc_grow (values d) (Z.to_nat (dict_size d + 9)) jv)
      (dict_size d) 9
    = Ok (values d ++ replicate 9 (mk_variant NULL NULL FTGC_VARTYPE_VOID))).
  { rewrite <- Hlv. rewrite init_values_spec by (rewrite Hlv, Hvl; lia).
    rewrite Hlv, Hve. rewrite take_app_length.
    rewrite drop_ge by (rewrite length_app, length_map, length_seq; lia).
    by rewrite app_nil_r. }
  rewrite Hinit. cbn [mbind result_bind]. rewrite Hke.
  remember (replicate 9 (mk_variant NULL NULL FTGC_VARTYPE_VOID)) as void9
    eqn:Hvoid.
  eexists _, _. split; [reflexivity|]. cbn.
  split; [|done].
  unfold dict_wf, dict_wf_except. cbn. unfold FTGC_DICT_KEY_BYTES.
  split; [done|]. split; [done|]. split; [done|]. split; [lia|].
  split. { rewrite <- Hke, Hkl. lia. }
  split. { rewrite length_app, Hvoid, length_replicate. lia. }
  split. { intros i Hi Hs. apply slot_live_app; [lia|]. by apply Hlive. }
  split; [done|].
  destruct Hown as [Hown1 Hown2]. subst void9. split.
  - intros i v p Hi Ho. apply lookup_app_Some in Hi as [Hi | [_ Hi]].
    + by eapply Hown1.
    + apply lookup_replicate_1 in Hi as [-> _]. done.
  - intros i j v w p Hi Hj Hov How.
    apply lookup_app_Some in Hi as [Hi | [_ Hi]];
      [|apply lookup_replicate_1 in Hi as [-> _]; done].
    apply lookup_app_Some in Hj as [Hj | [_ Hj]];
      [|apply lookup_replicate_1 in Hj as [-> _]; done].
    by eapply Hown2.
Qed.

Lemma slot_live_first (ks : list ascii) (i : Z) :
  0 <= i -> slot_live ks i ->
  exists c, arr_get ks (i * FTGC_DICT_KEY_BYTES) = Ok c /\ is_nul c = false.
Proof.
  intros Hi (Hoff & Hlen & Hs).
  destruct (slot_bytes ks i) as [|c rest] eqn:E; [cbn in Hs; lia|].
  unfold strlen in Hs. cbn in Hs.
  destruct (is_nul c) eqn:En; [cbn in Hs; lia|].
  exists c. split; [|done]. apply arr_get_Ok.
  split; [unfold FTGC_DICT_KEY_BYTES; lia|].
  rewrite slot_offset by done.
  rewrite <- (Nat.add_0_r (Z.to_nat i * 9)).
  rewrite <- slot_bytes_lookup by (done || lia). by rewrite E.
Qed.

Lemma find_empty_none (ks : list ascii) (n : nat) (i0 : Z) :
  0 <= i0 ->
  (forall i, i0 <= i < i0 + Z.of_nat n -> slot_live ks i) ->
  find_empty_loop ks i0 n = Ok None.
Proof.
  revert i0. induction n as [|n IH]; intros i0 Hi Hl;
    cbn [find_empty_loop]; [done|].
  rewrite (key_offset_ok i0 Hi) by (apply Hl; lia). cbn [mbind result_bind].
  destruct (slot_live_first ks i0 Hi) as (c & -> & Hc); [apply Hl; lia|].
  cbn. rewrite Hc. apply IH; [lia|]. intros i Hi'. apply Hl. lia.
Qed.

Lemma find_empty_slot_fresh (h : gmap Z (list ascii)) (d : ftgc_dict_s) :
  dict_wf h d -> num_pairs d < 2 ^ 30 ->
  ftgc__dict_find_empty_slot d
  = Ok (num_pairs d,
        mk_dict (dict_size d) (num_pairs d + 1) (keys d) (values d)
                (hash_index d)).
Proof.
  intros (_ & _ & _ & Hnp & _ & _ & Hlive & _) Hb.
  unfold ftgc__dict_find_empty_slot.
  rewrite find_empty_none; [|lia|].
  - cbn. by rewrite sint32_small by lia.
  - intros i Hi. apply Hlive; [lia | done].
Qed.

(** *** Storing a pair *)

Lemma written_slot (ks post : list ascii) (key : list ascii) (t : Z) :
  0 <= t ->
  (Z.to_nat t * 9 + 9 <= length ks)%nat ->
  drop (Z.to_nat (t * FTGC_DICT_KEY_BYTES)) ks = take 8 (c_str key) ++ NUL :: post ->
  length (slot_bytes ks t) = Z.to_nat FTGC_DICT_KEY_BYTES /\
  c_str (slot_bytes ks t) = take 8 (c_str key).
Proof.
  intros Ht Hlen Hdrop. unfold slot_bytes. split.
  - rewrite length_take, length_drop, slot_offset by done.
    unfold FTGC_DICT_KEY_BYTES. lia.
  - rewrite Hdrop. rewrite take_app.
    assert (length (take 8 (c_str key)) <= 8)%nat
      by (rewrite length_take; lia).
    rewrite take_ge by (unfold FTGC_DICT_KEY_BYTES; lia).
    replace (Z.to_nat FTGC_DICT_KEY_BYTES - length (take 8 (c_str key)))%nat
      with (S (8 - length (take 8 (c_str key))))
      by (unfold FTGC_DICT_KEY_BYTES; lia).
    cbn [take]. apply c_str_app_nul, take_no_nul.
Qed.

Lemma written_slot_live (ks post : list ascii) (key : list ascii) (t : Z) :
  0 <= t -> t * FTGC_DICT_KEY_BYTES < 2 ^ 31 ->
  (Z.to_nat t * 9 + 9 <= length ks)%nat ->
  (1 <= strlen key)%nat ->
  drop (Z.to_nat (t * FTGC_DICT_KEY_BYTES)) ks = take 8 (c_str key) ++ NUL :: post ->
  slot_live ks t.
Proof.
  intros Ht Hoff Hlen Hk Hdrop.
  destruct (written_slot ks post key t Ht Hlen Hdrop) as [Hl Hc].
  split; [done|]. split; [done|].
  unfold strlen in *. rewrite Hc, length_take. lia.
Qed.

Lemma keycmp_written (d : ftgc_dict_s) (post key : list ascii) (t : Z) :
  0 <= t -> t * FTGC_DICT_KEY_BYTES < 2 ^ 31 -> (strlen key <= 8)%nat ->
  drop (Z.to_nat (t * FTGC_DICT_KEY_BYTES)) (keys d)
    = take 8 (c_str key) ++ NUL :: post ->
  keycmp_slot d key t = Ok 0.
Proof.
  intros Ht Hoff Hk Hdrop. unfold keycmp_slot.
  rewrite (key_offset_ok t Ht Hoff). cbn [mbind result_bind].
  rewrite bool_decide_eq_true_2 by (unfold FTGC_DICT_KEY_BYTES; lia).
  rewrite Hdrop. rewrite take_ge by done. apply keycmp_same.
Qed.

Lemma keycmp_slot_unchanged (d d' : ftgc_dict_s) (key : list ascii) (e : Z) :
  0 <= e -> slot_live (keys d) e ->
  (forall m, (Z.to_nat e * 9 <= m < Z.to_nat e * 9 + 9)%nat ->
     keys d' !! m = keys d !! m) ->
  slot_live (keys d') e /\ keycmp_slot d' key e = keycmp_slot d key e.
Proof.
  intros He Hl Hag.
  pose proof (slot_bytes_agree _ _ e He Hag) as Heq.
  assert (slot_live (keys d') e) as Hl' by (unfold slot_live; by rewrite Heq).
  split; [done|].
  destruct (keycmp_slot_live d key e He Hl) as [-> _].
  destruct (keycmp_slot_live d' key e He Hl') as [-> _].
  by rewrite Heq.
Qed.

Lemma generate_key_mask (hi hi' : ftgc_hashindex_s) (key : list ascii) :
  hash_mask hi' = hash_mask hi ->
  ftgc_hashindex_generate_key_string hi' key
  = ftgc_hashindex_generate_key_string hi key.
Proof. intros H. unfold ftgc_hashindex_generate_key_string. by rewrite H. Qed.

Lemma find_on_bucket (h : gmap Z (list ascii)) (d : ftgc_dict_s)
    (key : list ascii) (t : Z) (c : ftgc__hashlink_s) :
  let hash := ftgc_hashindex_generate_key_string (hash_index d) key in
  dict_wf h d ->
  table (hash_index d) !! Z.to_nat hash = Some t ->
  chain (hash_index d) !! Z.to_nat hash = Some c ->
  ftgc__dict_find_index_for_key d key = first_match d key (bucket_of t c) /\
  Forall (fun e => 0 <= e /\ slot_live (keys d) e) (bucket_of t c).
Proof.
  intros hash Hwf Ht Hc.
  pose proof Hwf as (_ & Hts & Hm & _ & _ & _ & Hlive & _).
  pose proof (generate_key_range (hash_index d) key Hts Hm) as Hh. fold hash in Hh.
  destruct (bucket_shape None h d hash Hwf Hh)
    as (t0 & c0 & Ht0 & Hc0 & _ & Htb & Hcb & Hvis).
  rewrite Ht in Ht0. rewrite Hc in Hc0.
  inversion Ht0; inversion Hc0; subst t0 c0.
  split.
  - rewrite (find_index_spec d key t c); [by rewrite Hvis | lia | done | done].
  - eapply Forall_impl; [exact (bucket_below _ _ _ Htb Hcb)|].
    cbn. intros e He. split; [lia|]. by apply Hlive.
Qed.

(** A key longer than eight characters is never found. *)
Lemma find_long (h : gmap Z (list ascii)) (d : ftgc_dict_s) (key : list ascii) :
  dict_wf h d -> (8 < strlen key)%nat ->
  ftgc__dict_find_index_for_key d key = Ok FTGC_HASHINDEX_UNUSED.
Proof.
  intros Hwf Hk.
  pose proof Hwf as (Hhi & Hts & Hm & _).
  pose proof (generate_key_range (hash_index d) key Hts Hm) as Hh.
  destruct (arr_get_in_range _ _ (wf_table_range _ _ Hhi Hh)) as (t & _ & Ht).
  destruct (arr_get_in_range _ _ (wf_chain_range _ _ Hhi Hh)) as (c & _ & Hc).
  destruct (find_on_bucket h d key t c Hwf Ht Hc) as [-> Hall].
  by apply first_match_long.
Qed.

Lemma owns_after_store (h : gmap Z (list ascii)) (vs : list ftgc_variant_s)
    (v : ftgc_variant_s) (target : nat) (a : ptr) (b : list ascii) :
  owns_distinct h vs ->
  vs !! target = Some v ->
  a <> NULL ->
  (is_Some (h !! a) -> owned v = Some a) ->
  owns_distinct (<[a := b]> (released h v))
    (<[target := mk_variant NULL a FTGC_VARTYPE_STRING]> vs).
Proof.
  intros [Hlive Hdist] Hv Ha Hfresh.
  assert (Hnew : owned (mk_variant NULL a FTGC_VARTYPE_STRING) = Some a)
    by (by apply owned_Some).
  assert (Hlt : (target < length vs)%nat) by (by eapply lookup_lt_Some).
  assert (Hother : forall j w p, j <> target -> vs !! j = Some w ->
            owned w = Some p -> p <> a /\ released h v !! p = h !! p).
  { intros j w p Hj Hw Hp.
    assert (owned v <> Some p) as Hvp.
    { intros Hvp. apply Hj. symmetry. by eapply (Hdist target j v w p). }
    split.
    - intros ->. apply Hvp, Hfresh. by eapply Hlive.
    - unfold released. destruct (owned v) as [q|]; [|done].
      rewrite lookup_delete_ne; [done | congruence]. }
  split.
  - intros i w p Hi Hp. destruct (decide (i = target)) as [->|Hne].
    + rewrite list_lookup_insert_eq in Hi by done. inversion Hi; subst w.
      rewrite Hnew in Hp. inversion Hp; subst p.
      rewrite lookup_insert_eq. by eexists.
    + rewrite list_lookup_insert_ne in Hi by done.
      destruct (Hother i w p Hne Hi Hp) as [Hpa Hrel].
      rewrite lookup_insert_ne by done. rewrite Hrel. by eapply Hlive.
  - intros i j w1 w2 p Hi Hj Hp1 Hp2.
    destruct (decide (i = target)) as [->|Hi'];
      destruct (decide (j = target)) as [->|Hj']; [done | | |].
    + rewrite list_lookup_insert_eq in Hi by done. inversion Hi; subst w1.
      rewrite Hnew in Hp1. inversion Hp1; subst p.
      rewrite list_lookup_insert_ne in Hj by done.
      by destruct (Hother j w2 a Hj' Hj Hp2) as [? _].
    + rewrite list_lookup_insert_eq in Hj by done. inversion Hj; subst w2.
      rewrite Hnew in Hp2. inversion Hp2; subst p.
      rewrite list_lookup_insert_ne in Hi by done.
      by destruct (Hother i w1 a Hi' Hi Hp1) as [? _].
    + rewrite list_lookup_insert_ne in Hi by done.
      rewrite list_lookup_insert_ne in Hj by done.
      by eapply Hdist.
Qed.

Lemma released_fresh (h : gmap Z (list ascii)) (v : ftgc_variant_s) (a : ptr) :
  (is_Some (h !! a) -> owned v = Some a) -> released h v !! a = None.
Proof.
  intros H. unfold released. destruct (h !! a) as [b|] eqn:E.
  - rewrite H by (by eexists). apply lookup_delete_eq.
  - destruct (owned v) as [q|]; [|done].
    destruct (decide (q = a)) as [->|Hne]; [apply lookup_delete_eq|].
    by rewrite lookup_delete_ne.
Qed.

(** Everything [dict_store] does before it registers the slot in the
    index. *)
Lemma store_prefix (al : dict_allocs) (h : gmap Z (list ascii))
    (d : ftgc_dict_s) (key : list ascii) (value : ptr) (s : list ascii)
    (target : Z) :
  dict_wf_except (Some target) h d ->
  0 <= target < num_pairs d ->
  target * FTGC_DICT_KEY_BYTES < 2 ^ 31 ->
  caller_string h d value s ->
  malloc_string al <> NULL ->
  exists ks' post v,
    values d !! Z.to_nat target = Some v /\
    length ks' = length (keys d) /\
    drop (Z.to_nat (target * FTGC_DICT_KEY_BYTES)) ks'
      = take 8 (c_str key) ++ NUL :: post /\
    (forall m, (m < Z.to_nat target * 9 \/ Z.to_nat target * 9 + 9 <= m)%nat ->
       ks' !! m = keys d !! m) /\
    dict_store al h d key value target
    = ftgc_hashindex_add_key (malloc_node_ok al) (hash_index d)
        (ftgc_hashindex_generate_key_string (hash_index d) key) target
      ≫= (fun '(r, hi) =>
            let ctx := mk_dict (dict_size d) (num_pairs d) ks'
                         (<[Z.to_nat target :=
                              mk_variant NULL (malloc_string al)
                                         FTGC_VARTYPE_STRING]> (values d)) hi in
            let h' := <[malloc_string al := c_str s ++ [NUL]]> (released h v) in
            if bool_decide (r = -1) then Ok (0, h', ctx) else Ok (1, h', ctx)).
Proof.
  intros (Hhi & Hts & Hm & Hnp & Hlk & Hlv & Hlive & Hent & Hown) Ht Hoff
    [Hval Hnot] Ha.
  pose proof (key_offset_ok target ltac:(lia) Hoff) as Hko.
  unfold FTGC_DICT_KEY_BYTES in Hlk.
  destruct (set_key_effect key (keys d) target)
    as (ks' & post & Hset & Hlen & Hdrop & Hout);
    [lia | unfold FTGC_DICT_KEY_BYTES; lia |].
  destruct (arr_get_in_range (values d) target) as (v & Hget & Hv); [lia|].
  exists ks', post, v. split; [done|]. split; [done|]. split; [done|].
  split; [done|].
  unfold dict_store. rewrite Hko. cbn [mbind result_bind].
  rewrite Hset. cbn [mbind result_bind].
  rewrite Hget. cbn [mbind result_bind].
  rewrite (variant_set_string_ok h v value (malloc_string al) s);
    [| intros p Hp; destruct Hown as [Hl _]; by eapply Hl
     | done | by eapply Hnot | done].
  cbn [mbind result_bind].
  rewrite arr_set_in_range by lia. cbn [mbind result_bind].
  done.
Qed.

(** The dictionary invariant after [dict_store], for any index that is
    itself well formed and refers to claimed slots only. *)
Lemma store_wf (h : gmap Z (list ascii)) (d : ftgc_dict_s)
    (key ks' post : list ascii) (v : ftgc_variant_s) (a : ptr)
    (b : list ascii) (target : Z) (hi' : ftgc_hashindex_s) :
  dict_wf_except (Some target) h d ->
  0 <= target < num_pairs d ->
  target * FTGC_DICT_KEY_BYTES < 2 ^ 31 ->
  (1 <= strlen key)%nat ->
  values d !! Z.to_nat target = Some v ->
  a <> NULL -> (is_Some (h !! a) -> owned v = Some a) ->
  length ks' = length (keys d) ->
  drop (Z.to_nat (target * FTGC_DICT_KEY_BYTES)) ks'
    = take 8 (c_str key) ++ NUL :: post ->
  (forall m, (m < Z.to_nat target * 9 \/ Z.to_nat target * 9 + 9 <= m)%nat ->
     ks' !! m = keys d !! m) ->
  hashindex_wf hi' -> table_size hi' = table_size (hash_index d) ->
  hash_mask hi' = hash_mask (hash_index d) ->
  entries_below hi' (num_pairs d) ->
  dict_wf (<[a := b]> (released h v))
    (mk_dict (dict_size d) (num_pairs d) ks'
       (<[Z.to_nat target := mk_variant NULL a FTGC_VARTYPE_STRING]> (values d))
       hi').
Proof.
  intros (Hhi & Hts & Hm & Hnp & Hlk & Hlv & Hlive & Hent & Hown) Ht Hoff Hkey
    Hv Ha Hfresh Hlen Hdrop Hout Hhi' Hts' Hm' Hent'.
  unfold FTGC_DICT_KEY_BYTES in Hlk.
  unfold dict_wf, dict_wf_except. cbn.
  split; [done|]. split; [by rewrite Hts'|]. split; [by rewrite Hm', Hts'|].
  split; [done|]. split; [unfold FTGC_DICT_KEY_BYTES; lia|].
  split; [by rewrite length_insert|].
  split; [|split; [done | by apply owns_after_store]].
  intros i Hi _. destruct (decide (i = target)) as [->|Hne].
  - apply (written_slot_live ks' post key target);
      [lia | done | lia | done | done].
  - assert (slot_live (keys d) i) as Hl.
    { apply Hlive; [done|]. congruence. }
    assert (slot_bytes ks' i = slot_bytes (keys d) i) as Heq.
    { apply slot_bytes_agree; [lia|]. intros m Hm0. apply Hout. lia. }
    unfold slot_live. by rewrite Heq.
Qed.

Lemma bucket_slots_unchanged (h : gmap Z (list ascii)) (d d' : ftgc_dict_s)
    (key : list ascii) (target : Z) (l : list Z) :
  dict_wf_except (Some target) h d -> 0 <= target ->
  Forall (fun e => 0 <= e < num_pairs d) l ->
  (forall m, (m < Z.to_nat target * 9 \/ Z.to_nat target * 9 + 9 <= m)%nat ->
     keys d' !! m = keys d !! m) ->
  Forall (fun e => e <> target -> keycmp_slot d' key e = keycmp_slot d key e) l.
Proof.
  intros (_ & _ & _ & _ & _ & _ & Hlive & _) Ht0 Hl Hout.
  eapply Forall_impl; [exact Hl|]. cbn. intros e He Hne.
  apply keycmp_slot_unchanged; [lia | |].
  - apply Hlive; [done | congruence].
  - intros m Hm. apply Hout. lia.
Qed.

(** [dict_store] on a claimed slot: its result, and the state it leaves
    when it reports success. *)
Lemma dict_store_spec (al : dict_allocs) (h : gmap Z (list ascii))
    (d : ftgc_dict_s) (key : list ascii) (value : ptr) (s : list ascii)
    (target t : Z) (c : ftgc__hashlink_s) :
  let hash := ftgc_hashindex_generate_key_string (hash_index d) key in
  dict_wf_except (Some target) h d ->
  0 <= target < num_pairs d ->
  target * FTGC_DICT_KEY_BYTES < 2 ^ 31 ->
  (1 <= strlen key)%nat ->
  caller_string h d value s ->
  malloc_string al <> NULL ->
  (is_Some (h !! malloc_string al) ->
   exists v, values d !! Z.to_nat target = Some v /\
             owned v = Some (malloc_string al)) ->
  table (hash_index d) !! Z.to_nat hash = Some t ->
  chain (hash_index d) !! Z.to_nat hash = Some c ->
  (((target ∈ bucket_of t c) /\
    first_match d key (bucket_of t c) = Ok target) \/
   ((target ∉ bucket_of t c) /\
    Forall (fun e => exists x, keycmp_slot d key e = Ok x /\ x <> 0)
           (bucket_of t c))) ->
  exists r h' d',
    dict_store al h d key value target = Ok (r, h', d') /\
    (r = 1 \/ r = 0) /\
    (r = 0 <-> malloc_node_ok al = false /\ t <> FTGC_HASHINDEX_UNUSED /\
               (target ∉ bucket_of t c)) /\
    caller_string h' d' value s /\
    (r = 1 ->
     dict_wf h' d' /\
     num_pairs d' = num_pairs d /\ dict_size d' = dict_size d /\
     values d' !! Z.to_nat target
       = Some (mk_variant NULL (malloc_string al) FTGC_VARTYPE_STRING) /\
     h' !! malloc_string al = Some (c_str s ++ [NUL]) /\
     c_str (slot_bytes (keys d') target) = take 8 (c_str key) /\
     ((strlen key <= 8)%nat ->
      ftgc__dict_find_index_for_key d' key = Ok target)).
Proof.
  intros hash Hwf Ht Hoff Hkey Hcs Ha Hfresh Htl Hcl Hsel.
  destruct (store_prefix al h d key value s target Hwf Ht Hoff Hcs Ha)
    as (ks' & post & v & Hv & Hlen & Hdrop & Hout & Hrun).
  rewrite Hrun. fold hash. clear Hrun.
  assert (Hfresh' : is_Some (h !! malloc_string al) ->
                    owned v = Some (malloc_string al)).
  { intros Hs. destruct (Hfresh Hs) as (v0 & Hv0 & Ho). congruence. }
  pose proof Hwf as (Hhi & Hts & Hm & Hnp & Hlk & Hlv & Hlive & Hent & Hown).
  pose proof (generate_key_range (hash_index d) key Hts Hm) as Hh.
  fold hash in Hh.
  destruct (bucket_shape _ h d hash Hwf Hh)
    as (t0 & c0 & Ht0 & Hc0 & Hlast & Htb & Hcb & _).
  rewrite Htl in Ht0. rewrite Hcl in Hc0.
  inversion Ht0; inversion Hc0; subst t0 c0. clear Ht0 Hc0.
  pose proof (bucket_below _ _ _ Htb Hcb) as Hbb.
  set (h' := <[malloc_string al := c_str s ++ [NUL]]> (released h v)).
  set (vs' := <[Z.to_nat target :=
                 mk_variant NULL (malloc_string al) FTGC_VARTYPE_STRING]>
               (values d)).
  assert (Hval' : forall hi',
            caller_string h'
              (mk_dict (dict_size d) (num_pairs d) ks' vs' hi') value s).
  { intros hi'. destruct Hcs as [Hs Hnot]. unfold h'.
    assert (malloc_string al <> value) as Hne.
    { intros E. apply (Hnot _ _ Hv). rewrite <- E. apply Hfresh'.
      rewrite E. by eexists. }
    split.
    - rewrite lookup_insert_ne by done.
      apply released_lookup; [done | by eapply Hnot].
    - cbn. intros i w Hw. unfold vs' in Hw.
      destruct (decide (i = Z.to_nat target)) as [->|Hi].
      + rewrite list_lookup_insert_eq in Hw by lia. inversion Hw; subst w.
        assert (owned (mk_variant NULL (malloc_string al) FTGC_VARTYPE_STRING)
                = Some (malloc_string al)) as -> by (by apply owned_Some).
        congruence.
      + rewrite list_lookup_insert_ne in Hw by done. by eapply Hnot. }
  assert (Hread : h' !! malloc_string al = Some (c_str s ++ [NUL]))
    by (unfold h'; by rewrite lookup_insert_eq).
  assert (Hvt : vs' !! Z.to_nat target
                = Some (mk_variant NULL (malloc_string al) FTGC_VARTYPE_STRING)).
  { unfold vs'. apply list_lookup_insert_eq. lia. }
  (* what holds of every state built from a well-formed index *)
  assert (Hpost : forall hi',
    hashindex_wf hi' -> table_size hi' = table_size (hash_index d) ->
    hash_mask hi' = hash_mask (hash_index d) ->
    entries_below hi' (num_pairs d) ->
    forall t' c',
      table hi' !! Z.to_nat hash = Some t' ->
      chain hi' !! Z.to_nat hash = Some c' ->
      ((strlen key <= 8)%nat ->
       first_match (mk_dict (dict_size d) (num_pairs d) ks' vs' hi') key
         (bucket_of t' c') = Ok target) ->
      dict_wf h' (mk_dict (dict_size d) (num_pairs d) ks' vs' hi') /\
      num_pairs d = num_pairs d /\ dict_size d = dict_size d /\
      vs' !! Z.to_nat target
        = Some (mk_variant NULL (malloc_string al) FTGC_VARTYPE_STRING) /\
      h' !! malloc_string al = Some (c_str s ++ [NUL]) /\
      c_str (slot_bytes ks' target) = take 8 (c_str key) /\
      ((strlen key <= 8)%nat ->
       ftgc__dict_find_index_for_key
         (mk_dict (dict_size d) (num_pairs d) ks' vs' hi') key = Ok target)).
  { intros hi' Hhi' Hts' Hm' Hent' t' c' Ht' Hc' Hfm.
    assert (Hwf' : dict_wf h' (mk_dict (dict_size d) (num_pairs d) ks' vs' hi'))
      by (by apply (store_wf h d key ks' post v)).
    split; [done|]. do 4 (split; [done|]).
    split.
    { unfold FTGC_DICT_KEY_BYTES in Hlk.
      apply (written_slot ks' post key target); [lia | lia | done]. }
    intros Hshort.
    assert (Hhash : ftgc_hashindex_generate_key_string hi' key = hash)
      by (by apply generate_key_mask).
    destruct (find_on_bucket h' _ key t' c' Hwf') as [-> _]; cbn;
      try (by rewrite Hhash).
    by apply Hfm. }
  assert (Hcmp : forall hi', (strlen key <= 8)%nat ->
            keycmp_slot (mk_dict (dict_size d) (num_pairs d) ks' vs' hi')
              key target = Ok 0).
  { intros hi' Hshort.
    apply (keycmp_written _ post); [lia | done | done | done]. }
  assert (Hnd : target <> FTGC_HASHINDEX_DELETED)
    by (unfold FTGC_HASHINDEX_DELETED; lia).
  destruct (decide (t = FTGC_HASHINDEX_UNUSED)) as [Etu|Etu].
  - (* empty table slot *)
    rewrite (add_key_empty _ hash target t); [|lia | done | by left].
    cbn [mbind result_bind]. rewrite bool_decide_eq_false_2 by done.
    eexists 1, h', _. split; [reflexivity|]. split; [by left|].
    split; [split; [done | intros (_ & ? & _); done]|].
    split; [done|]. intros _.
    destruct Hhi as (Hs0 & Hl1 & Hl2 & Hl3).
    apply (Hpost _) with (t' := target) (c' := c).
    + unfold hashindex_wf. cbn. rewrite length_insert. done.
    + done.
    + done.
    + destruct Hent as [He1 He2]. split; [|done]. cbn.
      apply Forall_insert; [done|]. right. lia.
    + cbn. apply list_lookup_insert_eq. lia.
    + done.
    + intros Hshort. unfold bucket_of.
      rewrite bool_decide_eq_false_2 by (unfold FTGC_HASHINDEX_UNUSED; lia).
      cbn [first_match]. rewrite bool_decide_eq_false_2 by done.
      rewrite Hcmp by done. done.
  - assert (Htr : 0 <= t < num_pairs d) by (destruct Htb; [done | lia]).
    assert (Htd : t <> FTGC_HASHINDEX_DELETED)
      by (unfold FTGC_HASHINDEX_DELETED; lia).
    assert (Hbk : bucket_of t c = t :: link_stored c)
      by (unfold bucket_of; by rewrite bool_decide_eq_false_2).
    destruct (decide (target ∈ bucket_of t c)) as [Hin|Hnin].
    + (* already registered *)
      rewrite (add_key_duplicate _ hash target t c);
        [|lia | done | done | done | done
         | rewrite Hbk in Hin; by apply elem_of_cons in Hin].
      cbn [mbind result_bind]. rewrite bool_decide_eq_false_2 by done.
      eexists 1, h', _. split; [reflexivity|]. split; [by left|].
      split; [split; [done | intros (_ & _ & ?); done]|].
      split; [done|]. intros _.
      apply (Hpost _) with (t' := t) (c' := c); try done.
      intros Hshort. destruct Hsel as [[_ Hfm] | [Hn _]]; [|done].
      apply (first_match_hit d); [lia | | by apply Hcmp | done].
      apply (bucket_slots_unchanged h); [done | lia | done | done].
    + (* appended to the chain *)
      destruct (add_key_append (hash_index d) hash target t c
                  (malloc_node_ok al)) as (c' & Hvals & ->);
        [lia | done | done | done | done
         | intros ->; apply Hnin; rewrite Hbk; apply elem_of_cons; by left
         | intros Hs; apply Hnin; rewrite Hbk; apply elem_of_cons; by right|].
      cbn [mbind result_bind].
      destruct (malloc_node_ok al) eqn:Eok.
      * rewrite bool_decide_eq_false_2 by done.
        eexists 1, h', _. split; [reflexivity|]. split; [by left|].
        split; [split; [done | intros (? & _); done]|].
        split; [done|]. intros _.
        destruct (link_stored_of_values c' (link_stored c ++ [target])
                    FTGC_HASHINDEX_UNUSED) as [Hst' Hla'].
        { rewrite Hvals. by rewrite <- app_assoc. }
        destruct Hhi as (Hs0 & Hl1 & Hl2 & Hl3).
        apply (Hpost _) with (t' := t) (c' := c').
        -- unfold hashindex_wf. cbn. rewrite length_insert.
           split; [done|]. split; [done|]. split; [done|].
           by apply Forall_insert.
        -- done.
        -- done.
        -- destruct Hent as [He1 He2]. split; [done|]. cbn.
           apply Forall_insert; [done|]. rewrite Hst'.
           apply Forall_app. split; [done|].
           apply Forall_cons. split; [done | constructor].
        -- done.
        -- cbn. apply list_lookup_insert_eq. lia.
        -- intros Hshort. unfold bucket_of.
           rewrite bool_decide_eq_false_2 by done. rewrite Hst'.
           change (t :: link_stored c ++ [target])
             with ((t :: link_stored c) ++ [target]).
           rewrite <- Hbk. destruct Hsel as [[Hi _] | [_ Hall]]; [done|].
           apply first_match_miss; [lia | | by apply Hcmp].
           pose proof (bucket_slots_unchanged h d
                         (mk_dict (dict_size d) (num_pairs d) ks' vs'
                            (set_chain (hash_index d)
                               (<[Z.to_nat hash := c']> (chain (hash_index d)))))
                         key target _ Hwf (proj1 Ht) Hbb Hout) as Hun.
           rewrite Forall_forall in Hun, Hall, Hbb. apply Forall_forall.
           intros e He. split; [specialize (Hbb e He); lia|].
           intros Hne. rewrite (Hun e He Hne). by apply Hall.
      * rewrite bool_decide_eq_true_2 by done.
        eexists 0, h', _. split; [reflexivity|]. split; [by right|].
        split; [done|]. split; [done|]. done.
Qed.

(** *** Selecting the slot *)

Lemma select_hit (al : dict_allocs) (d : ftgc_dict_s) (key : list ascii)
    (idx : Z) :
  ftgc__dict_find_index_for_key d key = Ok idx ->
  idx <> FTGC_HASHINDEX_UNUSED ->
  dict_select_slot al d key = Ok (Some idx, d).
Proof.
  intros Hf Hne. unfold dict_select_slot. rewrite Hf. cbn.
  by rewrite bool_decide_eq_false_2.
Qed.

Lemma select_miss_fail (al : dict_allocs) (d : ftgc_dict_s) (key : list ascii) :
  ftgc__dict_find_index_for_key d key = Ok FTGC_HASHINDEX_UNUSED ->
  num_pairs d = dict_size d ->
  realloc_keys al = None \/ realloc_values al = None ->
  exists d0, dict_select_slot al d key = Ok (None, d0) /\
             values d0 = values d.
Proof.
  intros Hf Hfull Hfail. unfold dict_select_slot. rewrite Hf.
  cbn [mbind result_bind].
  rewrite !bool_decide_eq_true_2 by done.
  unfold ftgc__dict_reallocate.
  destruct (realloc_keys al) as [jk|]; [|by eexists].
  destruct Hfail as [?|Hv]; [done|]. rewrite Hv. cbn.
  eexists. split; [reflexivity|]. by destruct (keys_moved al).
Qed.

Lemma select_miss_claim (al : dict_allocs) (h : gmap Z (list ascii))
    (d : ftgc_dict_s) (key : list ascii) :
  dict_wf h d -> dict_size d < 2 ^ 30 ->
  ftgc__dict_find_index_for_key d key = Ok FTGC_HASHINDEX_UNUSED ->
  ~ (num_pairs d = dict_size d /\
     (realloc_keys al = None \/ realloc_values al = None)) ->
  exists d1 tail vt,
    dict_select_slot al d key
      = Ok (Some (num_pairs d),
            mk_dict (dict_size d1) (num_pairs d + 1) (keys d1) (values d1)
                    (hash_index d)) /\
    dict_wf h d1 /\ num_pairs d1 = num_pairs d /\
    hash_index d1 = hash_index d /\
    keys d1 = keys d ++ tail /\
    values d1 = values d ++ vt /\ Forall (fun v => owned v = None) vt /\
    num_pairs d < dict_size d1 /\
    dict_size d <= dict_size d1 <= dict_size d + FTGC_DICT_KEY_BYTES.
Proof.
  intros Hwf Hb Hf Hok. unfold dict_select_slot. rewrite Hf.
  cbn [mbind result_bind].
  rewrite (bool_decide_eq_true_2 (FTGC_HASHINDEX_UNUSED = FTGC_HASHINDEX_UNUSED))
    by done.
  pose proof Hwf as (_ & _ & _ & Hnp & _).
  case_bool_decide as Efull.
  - destruct (realloc_keys al) as [jk|] eqn:Ek; [|exfalso; apply Hok; auto].
    destruct (realloc_values al) as [jv|] eqn:Ev; [|exfalso; apply Hok; auto].
    destruct (reallocate_ok al h d jk jv Hwf Hb Ek Ev)
      as (d1 & tail & -> & Hwf1 & Hds & Hnp1 & Hhi1 & Hk1 & Hv1).
    cbn. rewrite (find_empty_slot_fresh h d1 Hwf1) by lia. cbn.
    exists d1, tail, (replicate 9 (mk_variant NULL NULL FTGC_VARTYPE_VOID)).
    rewrite Hnp1, Hhi1. split; [done|]. split; [done|]. split; [done|].
    split; [done|]. split; [done|]. split; [done|].
    split; [by apply Forall_replicate|].
    unfold FTGC_DICT_KEY_BYTES in *. lia.
  - cbn. rewrite (find_empty_slot_fresh h d Hwf) by lia. cbn.
    exists d, [], []. rewrite !app_nil_r.
    split; [done|]. split; [done|]. split; [done|]. split; [done|].
    split; [done|]. split; [done|]. split; [constructor|].
    unfold FTGC_DICT_KEY_BYTES. lia.
Qed.

(** A dictionary with one more slot claimed, its key not yet written. *)
Lemma claimed_wf (h : gmap Z (list ascii)) (d1 : ftgc_dict_s) :
  dict_wf h d1 -> num_pairs d1 < dict_size d1 ->
  dict_wf_except (Some (num_pairs d1)) h
    (mk_dict (dict_size d1) (num_pairs d1 + 1) (keys d1) (values d1)
             (hash_index d1)).
Proof.
  intros (Hhi & Hts & Hm & Hnp & Hlk & Hlv & Hlive & [He1 He2] & Hown) Hlt.
  unfold dict_wf_except. cbn.
  split; [done|]. split; [done|]. split; [done|]. split; [lia|].
  split; [done|]. split; [done|]. split; [|split; [|done]].
  - intros i Hi Hs. apply Hlive; [|done].
    assert (i <> num_pairs d1) by congruence. lia.
  - split.
    + eapply Forall_impl; [exact He1|]. cbn. intros x [?|?]; [by left | right; lia].
    + eapply Forall_impl; [exact He2|]. cbn. intros x Hx.
      eapply Forall_impl; [exact Hx|]. cbn. intros; lia.
Qed.

Lemma wf_weaken (h : gmap Z (list ascii)) (d : ftgc_dict_s) (skip : option Z) :
  dict_wf h d -> dict_wf_except skip h d.
Proof.
  intros (Hhi & Hts & Hm & Hnp & Hlk & Hlv & Hlive & Hent & Hown).
  unfold dict_wf_except. repeat (split; [done|]).
  split; [|done]. intros i Hi _. by apply Hlive.
Qed.

(** *** [ftgc_dict_set_string] as a whole *)

(** On a dictionary satisfying the invariant, with a non-empty key, the
    caller's value string and a succeeding string copy:
    [ftgc_dict_set_string] returns 1 or 0; it returns 0 exactly when the
    key was not found and either the arrays were full and their growth
    failed, or the slot of the index was occupied and the chain node
    could not be allocated; when it returns 1 the invariant holds again,
    the value is stored in the slot found or claimed, and a key of at
    most eight characters is found there. *)
Lemma set_string_spec (al : dict_allocs) (h : gmap Z (list ascii))
    (d : ftgc_dict_s) (key : list ascii) (value : ptr) (s : list ascii) :
  let hash := ftgc_hashindex_generate_key_string (hash_index d) key in
  dict_wf h d -> FTGC_DICT_KEY_BYTES * dict_size d < 2 ^ 31 ->
  (1 <= strlen key)%nat ->
  caller_string h d value s ->
  string_copy_ok h d key (malloc_string al) ->
  exists t c idx r h' d',
    table (hash_index d) !! Z.to_nat hash = Some t /\
    chain (hash_index d) !! Z.to_nat hash = Some c /\
    ftgc__dict_find_index_for_key d key = Ok idx /\
    (idx = FTGC_HASHINDEX_UNUSED \/ 0 <= idx < num_pairs d) /\
    ftgc_dict_set_string al h d key value = Ok (r, h', d') /\
    (r = 1 \/ r = 0) /\
    (r = 0 <->
     idx = FTGC_HASHINDEX_UNUSED /\
     ((num_pairs d = dict_size d /\
       (realloc_keys al = None \/ realloc_values al = None)) \/
      (malloc_node_ok al = false /\ t <> FTGC_HASHINDEX_UNUSED))) /\
    caller_string h' d' value s /\
    (r = 1 ->
     let target := if bool_decide (idx = FTGC_HASHINDEX_UNUSED)
                   then num_pairs d else idx in
     dict_wf h' d' /\
     num_pairs d' = (if bool_decide (idx = FTGC_HASHINDEX_UNUSED)
                     then num_pairs d + 1 else num_pairs d) /\
     dict_size d <= dict_size d' <= dict_size d + FTGC_DICT_KEY_BYTES /\
     values d' !! Z.to_nat target
       = Some (mk_variant NULL (malloc_string al) FTGC_VARTYPE_STRING) /\
     h' !! malloc_string al = Some (c_str s ++ [NUL]) /\
     c_str (slot_bytes (keys d') target) = take 8 (c_str key) /\
     ((strlen key <= 8)%nat ->
      ftgc__dict_find_index_for_key d' key = Ok target)).
Proof.
  intros hash Hwf Hoff Hkey Hcs [Ha Hcopy].
  assert (Hb : dict_size d < 2 ^ 30)
    by (unfold FTGC_DICT_KEY_BYTES in Hoff; lia).
  pose proof Hwf as (Hhi & Hts & Hm & Hnp & Hlk & Hlv & Hlive & Hent & Hown).
  pose proof (generate_key_range (hash_index d) key Hts Hm) as Hh.
  fold hash in Hh.
  destruct (bucket_shape None h d hash Hwf Hh)
    as (t & c & Ht & Hc & Hlast & Htb & Hcb & _).
  pose proof (bucket_below _ _ _ Htb Hcb) as Hbb.
  destruct (find_on_bucket h d key t c Hwf Ht Hc) as [Hfind Hall].
  destruct (first_match_live d key _ Hall)
    as (idx & Hfm & [[-> Hnz] | (Hi0 & Hin & Hk0)]).
  - (* the key is not in the dictionary *)
    rewrite Hfm in Hfind.
    destruct (decide (num_pairs d = dict_size d /\
                      (realloc_keys al = None \/ realloc_values al = None)))
      as [[Hfull Hfail] | Hgrow].
    + destruct (select_miss_fail al d key Hfind Hfull Hfail)
        as (d0 & Hsel & Hv0).
      exists t, c, FTGC_HASHINDEX_UNUSED, 0, h, d0.
      unfold ftgc_dict_set_string. rewrite Hsel. cbn [mbind result_bind].
      split; [done|]. split; [done|]. split; [done|]. split; [by left|].
      split; [done|]. split; [by right|].
      split; [split; [intros _; split; [done | by left] | done]|].
      split; [|done]. destruct Hcs as [Hs Hnot]. split; [done|].
      by rewrite Hv0.
    + destruct (select_miss_claim al h d key Hwf Hb Hfind Hgrow)
        as (d1 & tail & vt & Hsel & Hwf1 & Hnp1 & Hhi1 & Hk1 & Hv1 & Hvt
            & Hlt & Hds).
      set (d2 := mk_dict (dict_size d1) (num_pairs d + 1) (keys d1)
                         (values d1) (hash_index d)) in *.
      assert (Hwf2 : dict_wf_except (Some (num_pairs d)) h d2).
      { pose proof (claimed_wf h d1 Hwf1) as Hcl.
        rewrite Hnp1, Hhi1 in Hcl. apply Hcl. lia. }
      destruct (dict_store_spec al h d2 key value s (num_pairs d) t c)
        as (r & h' & d' & Hrun & Hr & Hr0 & Hval & Hsucc).
      * done.
      * cbn. lia.
      * unfold FTGC_DICT_KEY_BYTES in *. lia.
      * done.
      * destruct Hcs as [Hs Hnot]. split; [done|]. cbn. rewrite Hv1.
        intros i v Hiv. apply lookup_app_Some in Hiv as [Hiv | [_ Hiv]].
        -- by eapply Hnot.
        -- rewrite Forall_forall in Hvt.
           rewrite (Hvt v) by (by eapply list_elem_of_lookup_2). done.
      * done.
      * intros Hlive'. destruct (Hcopy Hlive') as (i & v & Hfi & Hi & _).
        rewrite Hfind in Hfi. inversion Hfi; subst i.
        unfold FTGC_HASHINDEX_UNUSED in Hi. lia.
      * done.
      * done.
      * right. split.
        -- intros Hin. rewrite Forall_forall in Hbb.
           specialize (Hbb _ Hin). cbn in Hbb. lia.
        -- rewrite Forall_forall in Hnz, Hall. apply Forall_forall.
           intros e He. destruct (Hall e He) as [He0 Hel].
           destruct (keycmp_slot_unchanged d d2 key e He0 Hel) as [_ ->];
             [|by apply Hnz].
           intros m Hm0. cbn. rewrite Hk1.
           destruct Hel as (_ & Hlen & _).
           assert (is_Some (slot_bytes (keys d) e !! (m - Z.to_nat e * 9)%nat))
             as [x Hx].
           { apply lookup_lt_is_Some. rewrite Hlen.
             unfold FTGC_DICT_KEY_BYTES. lia. }
           rewrite slot_bytes_lookup in Hx by (done || lia).
           replace (Z.to_nat e * 9 + (m - Z.to_nat e * 9))%nat with m in Hx by lia.
           rewrite Hx. by apply lookup_app_l_Some.
      * exists t, c, FTGC_HASHINDEX_UNUSED, r, h', d'.
        unfold ftgc_dict_set_string. rewrite Hsel. cbn [mbind result_bind].
        fold d2. rewrite Hrun.
        split; [done|]. split; [done|]. split; [done|]. split; [by left|].
        split; [done|]. split; [done|]. split.
        { rewrite Hr0. split.
          - intros (Hno & Htu & _). split; [done|]. by right.
          - intros [_ [Hg | [Hno Htu]]]; [done|].
            split; [done|]. split; [done|].
            intros Hin. rewrite Forall_forall in Hbb.
            specialize (Hbb _ Hin). cbn in Hbb. lia. }
        split; [done|]. intros Hr1.
        destruct (Hsucc Hr1)
          as (Hwf' & Hnp' & Hds' & Hvv & Hhv & Hcut & Hfound).
        rewrite bool_decide_eq_true_2 by done. cbn in Hnp', Hds'.
        split; [done|]. split; [done|]. split; [lia|].
        split; [done|]. split; [done|]. split; done.
  - (* the key is in slot [idx] *)
    rewrite Hfm in Hfind.
    assert (Hidx : 0 <= idx < num_pairs d).
    { rewrite Forall_forall in Hbb. by apply Hbb. }
    assert (Hnu : idx <> FTGC_HASHINDEX_UNUSED)
      by (unfold FTGC_HASHINDEX_UNUSED; lia).
    destruct (dict_store_spec al h d key value s idx t c)
      as (r & h' & d' & Hrun & Hr & Hr0 & Hval & Hsucc).
    + by apply wf_weaken.
    + done.
    + unfold FTGC_DICT_KEY_BYTES in *. lia.
    + done.
    + done.
    + done.
    + intros Hlive'. destruct (Hcopy Hlive') as (i & v & Hfi & Hi & Hv & Ho).
      rewrite Hfind in Hfi. inversion Hfi; subst i. by exists v.
    + done.
    + done.
    + left. split; [done|]. by rewrite <- Hfm.
    + assert (r = 1) as ->.
      { destruct Hr as [?|E0]; [done|]. apply Hr0 in E0 as (_ & _ & ?). done. }
      exists t, c, idx, 1, h', d'.
      unfold ftgc_dict_set_string.
      rewrite (select_hit al d key idx Hfind Hnu). cbn [mbind result_bind].
      rewrite Hrun.
      split; [done|]. split; [done|]. split; [done|]. split; [by right|].
      split; [done|]. split; [by left|].
      split; [split; [done | intros [? _]; done]|].
      split; [done|]. intros _.
      destruct (Hsucc eq_refl)
        as (Hwf' & Hnp' & Hds' & Hvv & Hhv & Hcut & Hfound).
      rewrite bool_decide_eq_false_2 by done.
      split; [done|]. split; [done|].
      split; [unfold FTGC_DICT_KEY_BYTES; lia|].
      split; [done|]. split; [done|]. split; done.
Qed.

(** *** Reading a value back *)

Lemma get_string_found (d : ftgc_dict_s) (key : list ascii) (fallback : ptr)
    (target : Z) (v : ftgc_variant_s) :
  ftgc__dict_find_index_for_key d key = Ok target ->
  0 <= target -> values d !! Z.to_nat target = Some v ->
  ftgc_dict_get_string d key fallback = Ok (ftgc_variant_get_string v).
Proof.
  intros Hf Ht Hv. unfold ftgc_dict_get_string. rewrite Hf. cbn.
  rewrite bool_decide_eq_false_2 by (unfold FTGC_HASHINDEX_UNUSED; lia). cbn.
  assert (arr_get (values d) target = Ok v) as -> by (by apply arr_get_Ok).
  done.
Qed.

Lemma get_string_missing (d : ftgc_dict_s) (key : list ascii) (fallback : ptr) :
  ftgc__dict_find_index_for_key d key = Ok FTGC_HASHINDEX_UNUSED ->
  ftgc_dict_get_string d key fallback = Ok fallback.
Proof. intros Hf. unfold ftgc_dict_get_string. by rewrite Hf. Qed.

(** The dictionary [ftgc_dict_init(&d, 4, 4)] builds. *)
Example dict4_init :
  ftgc_dict_init true true (Some (fun _ => "x"%char))
    (Some (fun _ => junk_variant)) 4 4 = Ok dict4.
Proof. reflexivity. Qed.

Lemma dict4_wf (h : gmap Z (list ascii)) : dict_wf h dict4.
Proof.
  unfold dict_wf, dict_wf_except.
  split. { unfold hashindex_wf. vm_compute.
           repeat split; try discriminate. repeat constructor. }
  split. { vm_compute. split; discriminate. }
  split; [reflexivity|].
  split. { vm_compute. split; discriminate. }
  split; [reflexivity|]. split; [reflexivity|].
  split. { intros i Hi. change (num_pairs dict4) with 0 in Hi. lia. }
  split. { split; repeat constructor. }
  split.
  - intros i v p Hi Ho.
    destruct i as [|[|[|[|i]]]]; vm_compute in Hi; inversion Hi; subst;
      discriminate Ho.
  - intros i j v w p Hi _ Ho.
    destruct i as [|[|[|[|i]]]]; vm_compute in Hi; inversion Hi; subst;
      discriminate Ho.
Qed.

(** *** The results of [ftgc_dict_set_string] *)

(** C2, as stated, fails both ways. With "a" stored in a fresh four-slot
    dictionary, storing "e" (same hash slot) reports failure when the
    chain node cannot be allocated, although neither the array growth nor
    the string copy failed; and storing "a" reports success when the
    string copy fails, the slot then holding a NULL string. *)
Lemma set_string_failure_counterexample :
  ('(_, h, d) ← ftgc_dict_set_string (allocs_ok 1000) heap_v dict4 key_a 10;
   '(r, _, _) ← ftgc_dict_set_string (allocs_no_node 1001) h d key_e 10;
   Ok r) = Ok 0 /\
  ('(r, _, d) ← ftgc_dict_set_string allocs_no_string heap_v dict4 key_a 10;
   p ← ftgc_dict_get_string d key_a 77;
   Ok (r, p)) = Ok (1, NULL).
Proof. split; vm_compute; reflexivity. Qed.

(** C2 (amended): on a dictionary satisfying its invariant and small
    enough for the [int] offset of every key buffer (at most 238609294
    slots), for a non-empty key and a value whose string copy succeeds,
    [ftgc_dict_set_string] returns 1 or 0, and it returns 0 exactly when
    the key is new and either the key/value arrays are full and their
    growth fails, or the key's table slot is occupied and the chain node
    cannot be allocated. So it fails only on an allocation failure, and
    succeeds whenever all allocations succeed. *)
Theorem set_string_fails_on_allocation_only (al : dict_allocs)
    (h : gmap Z (list ascii)) (d : ftgc_dict_s) (key : list ascii)
    (value : ptr) (s : list ascii) :
  dict_wf h d -> FTGC_DICT_KEY_BYTES * dict_size d < 2 ^ 31 ->
  (1 <= strlen key)%nat ->
  caller_string h d value s ->
  string_copy_ok h d key (malloc_string al) ->
  exists t idx r h' d',
    table (hash_index d)
      !! Z.to_nat (ftgc_hashindex_generate_key_string (hash_index d) key)
      = Some t /\
    ftgc__dict_find_index_for_key d key = Ok idx /\
    ftgc_dict_set_string al h d key value = Ok (r, h', d') /\
    (r = 1 \/ r = 0) /\
    (r = 0 <->
     idx = FTGC_HASHINDEX_UNUSED /\
     ((num_pairs d = dict_size d /\
       (realloc_keys al = None \/ realloc_values al = None)) \/
      (malloc_node_ok al = false /\ t <> FTGC_HASHINDEX_UNUSED))) /\
    (r = 0 ->
     realloc_keys al = None \/ realloc_values al = None \/
     malloc_node_ok al = false) /\
    (realloc_keys al <> None -> realloc_values al <> None ->
     malloc_node_ok al = true -> r = 1).
Proof.
  intros Hwf Hb Hkey Hcs Hcopy.
  destruct (set_string_spec al h d key value s Hwf Hb Hkey Hcs Hcopy)
    as (t & c & idx & r & h' & d' & Ht & _ & Hf & _ & Hrun & Hr & Hr0 & _).
  exists t, idx, r, h', d'.
  split; [done|]. split; [done|]. split; [done|]. split; [done|].
  split; [done|]. split.
  - intros E0. apply Hr0 in E0 as [_ [[_ [?|?]] | [? _]]]; auto.
  - intros Hk Hv Hn. destruct Hr as [?|E0]; [done|].
    apply Hr0 in E0 as [_ [[_ [?|?]] | [? _]]]; congruence.
Qed.

(** C9: on a dictionary satisfying its invariant, small enough for the
    [int] offset of every key buffer also after one growth of the
    arrays, a successful [set_string(key, v)] (string copy included)
    stores the first eight characters of the key; a following
    [get_string(key, fallback)] returns a copy of [v] when the key has at
    most eight characters, and [fallback] when it has more, the full key
    being compared with the stored one. A long key is therefore never
    found, and every further successful [set_string] with it claims one
    more slot. *)
Theorem long_keys_are_never_found (al al2 : dict_allocs)
    (h : gmap Z (list ascii)) (d : ftgc_dict_s) (key : list ascii)
    (value fallback : ptr) (s : list ascii) :
  dict_wf h d ->
  FTGC_DICT_KEY_BYTES * (dict_size d + FTGC_DICT_KEY_BYTES) < 2 ^ 31 ->
  (1 <= strlen key)%nat ->
  caller_string h d value s ->
  string_copy_ok h d key (malloc_string al) ->
  exists r h' d',
    ftgc_dict_set_string al h d key value = Ok (r, h', d') /\
    (realloc_keys al <> None -> realloc_values al <> None ->
     malloc_node_ok al = true -> r = 1) /\
    (r = 1 ->
     (exists target,
        0 <= target < num_pairs d' /\
        c_str (slot_bytes (keys d') target) = take 8 (c_str key)) /\
     ((strlen key <= 8)%nat ->
      exists p, ftgc_dict_get_string d' key fallback = Ok p /\
                c_str <$> h' !! p = Some (c_str s)) /\
     ((8 < strlen key)%nat ->
      ftgc__dict_find_index_for_key d key = Ok FTGC_HASHINDEX_UNUSED /\
      ftgc_dict_get_string d' key fallback = Ok fallback /\
      num_pairs d' = num_pairs d + 1 /\
      (string_copy_ok h' d' key (malloc_string al2) ->
       exists r2 h2 d2,
         ftgc_dict_set_string al2 h' d' key value = Ok (r2, h2, d2) /\
         (r2 = 1 ->
          num_pairs d2 = num_pairs d + 2 /\
          ftgc_dict_get_string d2 key fallback = Ok fallback)))).
Proof.
  intros Hwf Hb Hkey Hcs Hcopy. unfold FTGC_DICT_KEY_BYTES in Hb.
  destruct (set_string_spec al h d key value s Hwf
              ltac:(unfold FTGC_DICT_KEY_BYTES; lia) Hkey Hcs Hcopy)
    as (t & c & idx & r & h' & d' & Ht & _ & Hf & Hidx & Hrun & Hr & Hr0
        & Hcs' & Hsucc).
  exists r, h', d'. split; [done|]. split.
  { intros Hk Hv Hn. destruct Hr as [?|E0]; [done|].
    apply Hr0 in E0 as [_ [[_ [?|?]] | [? _]]]; congruence. }
  intros Hr1.
  destruct (Hsucc Hr1) as (Hwf' & Hnp' & Hds' & Hvv & Hhv & Hcut & Hfound).
  split.
  { eexists. split; [|exact Hcut]. rewrite Hnp'.
    destruct Hwf as (_ & _ & _ & [? _] & _). case_bool_decide; lia. }
  split.
  - intros Hshort. exists (malloc_string al). split.
    + rewrite (get_string_found d' key fallback _
                 (mk_variant NULL (malloc_string al) FTGC_VARTYPE_STRING)
                 (Hfound Hshort)).
      * unfold ftgc_variant_get_string. cbn. done.
      * case_bool_decide; [|lia]. by destruct Hwf as (_ & _ & _ & [? _] & _).
      * done.
    + rewrite Hhv. cbn. by rewrite c_str_terminated.
  - intros Hlong.
    pose proof (find_long h d key Hwf Hlong) as Hmiss.
    rewrite Hf in Hmiss. inversion Hmiss; subst idx.
    rewrite bool_decide_eq_true_2 in Hnp' by done.
    split; [done|]. split.
    { apply get_string_missing. by apply (find_long h'). }
    split; [done|]. intros Hcopy2.
    unfold FTGC_DICT_KEY_BYTES in Hds'.
    destruct (set_string_spec al2 h' d' key value s Hwf'
                ltac:(unfold FTGC_DICT_KEY_BYTES; lia) Hkey Hcs' Hcopy2)
      as (t2 & c2 & idx2 & r2 & h2 & d2 & _ & _ & Hf2 & _ & Hrun2 & _ & _
          & _ & Hsucc2).
    exists r2, h2, d2. split; [done|]. intros Hr2.
    destruct (Hsucc2 Hr2) as (Hwf2 & Hnp2 & _).
    pose proof (find_long h' d' key Hwf' Hlong) as Hmiss2.
    rewrite Hf2 in Hmiss2. inversion Hmiss2; subst idx2.
    rewrite bool_decide_eq_true_2 in Hnp2 by done.
    split; [lia|]. apply get_string_missing. by apply (find_long h2).
Qed.

End DictProps.

Lemma caller_string_dict4 :
  Dict.caller_string Dict.heap_v Dict.dict4 10 (list_ascii_of_string "v").
Proof.
  split; [reflexivity|]. intros i v Hi.
  destruct i as [|[|[|[|i]]]]; vm_compute in Hi; inversion Hi; subst;
    discriminate.
Qed.

Lemma string_copy_ok_dict4 (key : list ascii) :
  Dict.string_copy_ok Dict.heap_v Dict.dict4 key 1000.
Proof.
  split; [discriminate|]. intros [x Hx]. vm_compute in Hx. discriminate.
Qed.

Lemma set_string_fails_on_allocation_only_witness :
  exists h' d',
    Dict.ftgc_dict_set_string (Dict.allocs_ok 1000) Dict.heap_v Dict.dict4
      Dict.key_a 10 = Ok (1, h', d').
Proof.
  destruct (set_string_fails_on_allocation_only (Dict.allocs_ok 1000)
              Dict.heap_v Dict.dict4 Dict.key_a 10 (list_ascii_of_string "v"))
    as (t & idx & r & h' & d' & _ & _ & Hrun & _ & _ & _ & Hok).
  - apply dict4_wf.
  - vm_compute. reflexivity.
  - vm_compute. lia.
  - apply caller_string_dict4.
  - apply string_copy_ok_dict4.
  - exists h', d'. rewrite Hrun. rewrite Hok; [reflexivity | | | ].
    + discriminate.
    + discriminate.
    + reflexivity.
Defined.

Lemma long_keys_are_never_found_witness :
  exists h' d',
    Dict.ftgc_dict_set_string (Dict.allocs_ok 1000) Dict.heap_v Dict.dict4
      Dict.key_long 10 = Ok (1, h', d') /\
    Dict.ftgc_dict_get_string d' Dict.key_long 77 = Ok 77.
Proof.
  destruct (long_keys_are_never_found (Dict.allocs_ok 1000)
              (Dict.allocs_ok 1001) Dict.heap_v Dict.dict4 Dict.key_long 10 77
              (list_ascii_of_string "v"))
    as (r & h' & d' & Hrun & Hok & Hsucc).
  - apply dict4_wf.
  - vm_compute. reflexivity.
  - vm_compute. lia.
  - apply caller_string_dict4.
  - apply string_copy_ok_dict4.
  - assert (r = 1) as ->.
    { apply Hok; [discriminate | discriminate | reflexivity]. }
    exists h', d'. split; [exact Hrun|].
    destruct (Hsucc eq_refl) as (_ & _ & Hlong).
    destruct Hlong as (_ & Hget & _); [vm_compute; lia | exact Hget].
Defined.

(* ================================================================== *)
(** * Further properties of the code *)
(* ================================================================== *)

(** ** Resizable arrays: contents *)

Section ArrayContents.
Import Array.
Context {T : Type}.

Lemma default_new_elem_count_small (c i : Z) :
  0 <= c < 2 ^ 22 -> 0 < i < 2 ^ 22 ->
  ftgc__default_new_elem_count c i = Z.max (c * 3 / 2) (c + i).
Proof.
  intros Hc Hi. unfold ftgc__default_new_elem_count, expand_elem_count.
  rewrite mod_small_size by lia. case_bool_decide; lia.
Qed.

(** One successful append, in full: what the block holds afterwards. *)
Lemma append_step (a : handle T) (d : T) :
  array_ok a -> capacity a < 2 ^ 22 - 1 ->
  exists b',
    ftgc_array_append true a d = Ok (Some b') /\
    array_ok (Some b') /\
    elems b' = array_elems a ++ [d] /\
    raw_count b' = ftgc_array_count a + 1 /\
    raw_size b' = Z.max (capacity a) (ftgc_array_count a + 1).
Proof.
  intros [Hwf Hlen] Hcap.
  unfold ftgc_array_append, ftgc__array_grow_if_needed.
  destruct a as [b|]; cbn in *.
  - destruct Hwf as (Hc & Ha & Hs). unfold ftgc__array_size.
    rewrite mod_small_size by lia.
    case_bool_decide as Hg.
    + (* full: the block grows by one element *)
      assert (raw_count b = raw_size b) as Hfull by lia.
      unfold ftgc__array_grow, ftgc__array_size.
      rewrite default_new_elem_count_small by lia.
      destruct (decide (raw_size b = 0)) as [Hz|Hz].
      * rewrite (bool_decide_eq_true_2 (raw_size b = 0)) by done. cbn.
        rewrite mod_small_size by lia.
        rewrite bool_decide_eq_true_2 by lia.
        assert (elems b = []) as He.
        { destruct (elems b); [done|]. cbn in Hlen. lia. }
        eexists. split; [reflexivity|]. cbn. rewrite He. cbn.
        unfold array_ok, array_wf. cbn. repeat split; lia.
      * rewrite (bool_decide_eq_false_2 (raw_size b = 0)) by done. cbn.
        rewrite mod_small_size by lia.
        rewrite bool_decide_eq_true_2 by lia.
        eexists. split; [reflexivity|]. cbn.
        rewrite mod_small_size by lia.
        rewrite firstn_all2 by lia.
        unfold array_ok, array_wf. cbn. rewrite length_app. cbn.
        repeat split; lia.
    + rewrite bool_decide_eq_true_2 by lia.
      eexists. split; [reflexivity|]. cbn.
      rewrite mod_small_size by lia.
      rewrite firstn_all2 by lia.
      unfold array_ok, array_wf. cbn. rewrite length_app. cbn.
      repeat split; lia.
  - unfold ftgc__array_grow.
    rewrite default_new_elem_count_small by lia.
    rewrite (bool_decide_eq_true_2 (0 = 0)) by done. cbn.
    eexists. split; [reflexivity|]. cbn.
    unfold array_ok, array_wf. cbn. rewrite !mod_small_size by lia.
    repeat split; lia.
Qed.

Lemma append_all_spec (l : list T) (a : handle T) :
  array_ok a -> capacity a + Z.of_nat (length l) < 2 ^ 22 - 1 ->
  exists a',
    append_all true a l = Ok a' /\
    array_ok a' /\
    array_elems a' = array_elems a ++ l /\
    ftgc_array_count a' = ftgc_array_count a + Z.of_nat (length l) /\
    capacity a' = Z.max (capacity a) (ftgc_array_count a + Z.of_nat (length l)).
Proof.
  revert a. induction l as [|d l IH]; intros a Hok Hcap; cbn [append_all].
  - exists a. split; [done|]. split; [done|]. rewrite app_nil_r. cbn.
    destruct Hok as [Hwf Hlen]. destruct a as [b|]; cbn in *; repeat split; lia.
  - cbn [length] in Hcap.
    assert (0 <= ftgc_array_count a <= capacity a) as Hcc
      by (destruct Hok as [Hwf _]; destruct a; cbn in *; lia).
    destruct (append_step a d Hok) as (b' & -> & Hok' & He & Hc & Hs); [lia|].
    cbn [mbind result_bind].
    destruct (IH (Some b') Hok') as (a' & -> & Hok2 & He2 & Hc2 & Hs2).
    { cbn. lia. }
    exists a'. split; [done|]. split; [done|]. cbn in *.
    rewrite He2, He, <- app_assoc. cbn. repeat split; lia.
Qed.

(** X1: a successful append stores the element behind the ones already
    there: the array then holds the old elements followed by the new one,
    [ftgc_array_last] reads the new element, every earlier index reads
    what it read before, and the array invariant is kept. A NULL array
    counts as an empty one. *)
Theorem array_append_stores (a : handle T) (d : T) :
  array_ok a -> capacity a < 2 ^ 22 - 1 ->
  exists a',
    ftgc_array_append true a d = Ok a' /\
    array_ok a' /\
    array_elems a' = array_elems a ++ [d] /\
    ftgc_array_count a' = ftgc_array_count a + 1 /\
    ftgc_array_last a' = Ok d /\
    (forall j, 0 <= j < ftgc_array_count a ->
       array_index a' j = array_index a j).
Proof.
  intros Hok Hcap.
  destruct (append_step a d Hok Hcap) as (b' & Hrun & Hok' & He & Hc & Hs).
  exists (Some b'). split; [done|]. split; [done|]. split; [done|].
  split; [done|].
  destruct Hok as [Hwf Hlen].
  assert (0 <= ftgc_array_count a < 2 ^ 22) as Hcount.
  { destruct a as [b|]; cbn in *; lia. }
  split.
  - unfold ftgc_array_last, array_index. cbn. rewrite Hc, He.
    rewrite mod_small_size by lia.
    apply arr_get_Ok. split; [lia|].
    apply list_lookup_middle. lia.
  - intros j Hj. destruct a as [b|]; cbn in *; [|lia].
    rewrite He. unfold arr_get. rewrite bool_decide_eq_true_2 by lia.
    rewrite lookup_app_l by lia. done.
Qed.

(** X2: after [ftgc_array_init(a, n)] and the appends of the elements of
    [l], every allocation succeeding, the array holds exactly [l], its
    count is the length of [l] and its recorded capacity is the larger of
    [n] and that length: the capacity stays [n] until the array is full
    and then follows the count. *)
Theorem array_init_then_appends (n : Z) (l : list T) :
  0 <= n -> n + Z.of_nat (length l) < 2 ^ 22 - 1 ->
  exists a',
    append_all true (ftgc_array_init true n) l = Ok a' /\
    array_ok a' /\
    array_elems a' = l /\
    ftgc_array_count a' = Z.of_nat (length l) /\
    capacity a' = Z.max n (Z.of_nat (length l)).
Proof.
  intros Hn Hl.
  assert (Hinit : @ftgc_array_init T true n
                  = Some (mk_array n 0 (ftgc__default_new_elem_count 0 n) [])).
  { unfold ftgc_array_init, ftgc_array_reserve, ftgc__array_grow.
    rewrite (bool_decide_eq_true_2 (0 = 0)) by done. cbn.
    by rewrite mod_small_size by lia. }
  assert (Hnew : n <= ftgc__default_new_elem_count 0 n).
  { unfold ftgc__default_new_elem_count, expand_elem_count. cbn.
    rewrite mod_small_size by lia. case_bool_decide; lia. }
  destruct (append_all_spec l (ftgc_array_init true n))
    as (a' & Hrun & Hok & He & Hc & Hs).
  { rewrite Hinit. unfold array_ok, array_wf. cbn. repeat split; lia. }
  { rewrite Hinit. cbn. lia. }
  exists a'. rewrite Hinit in *. cbn in *.
  split; [done|]. split; [done|]. split; [done|]. split; lia.
Qed.

(** X3: an append that has to grow the array does not report a failed
    reallocation. On a NULL array it writes through the NULL pointer; on
    a block that was allocated for exactly its capacity it writes one
    element past the block; on a block with slack it stores the element
    and leaves the count above the recorded capacity. *)
Theorem array_append_realloc_failure (a : handle T) (d : T) :
  array_ok a -> ftgc_array_count a = capacity a ->
  (a = None -> ftgc_array_append false a d = Fault InvalidPointer) /\
  (a <> None -> allocated a = capacity a ->
   ftgc_array_append false a d = Fault OutOfBounds) /\
  (capacity a < allocated a ->
   exists a',
     ftgc_array_append false a d = Ok a' /\
     array_elems a' = array_elems a ++ [d] /\
     capacity a' = capacity a /\
     ftgc_array_count a' = capacity a' + 1).
Proof.
  intros [Hwf Hlen] Hfull.
  split; [by intros ->|].
  destruct a as [b|]; cbn in *.
  - destruct Hwf as (Hc & Ha & Hs).
    assert (Hgrow : ftgc__array_grow_if_needed false (Some b) 1 = Some b).
    { unfold ftgc__array_grow_if_needed. cbn. unfold ftgc__array_size.
      rewrite mod_small_size by lia.
      rewrite bool_decide_eq_true_2 by lia. done. }
    unfold ftgc_array_append. rewrite Hgrow. split.
    + intros _ Hal. by rewrite bool_decide_eq_false_2 by lia.
    + intros Hal. rewrite bool_decide_eq_true_2 by lia.
      eexists. split; [reflexivity|]. cbn.
      rewrite mod_small_size by lia. rewrite firstn_all2 by lia.
      repeat split; lia.
  - split; [done | lia].
Qed.

End ArrayContents.

Lemma array4_ok : Array.array_ok Array.array4.
Proof. unfold Array.array_ok, Array.array_wf. cbn. lia. Qed.

Lemma array_append_stores_witness :
  exists a',
    Array.ftgc_array_append true Array.array4 4 = Ok a' /\
    Array.array_elems a' = [0; 1; 2; 3; 4] /\
    Array.ftgc_array_last a' = Ok 4.
Proof.
  destruct (array_append_stores Array.array4 4) as (a' & H1 & _ & H2 & _ & H3 & _).
  - exact array4_ok.
  - cbn. lia.
  - exists a'. split; [exact H1|]. split; [exact H2 | exact H3].
Defined.

Lemma array_init_then_appends_witness :
  exists a',
    Array.append_all true (Array.ftgc_array_init true 3) [0; 1; 2; 3; 4] = Ok a' /\
    Array.array_elems a' = [0; 1; 2; 3; 4] /\
    Array.capacity a' = 5.
Proof.
  destruct (array_init_then_appends 3 [0; 1; 2; 3; 4])
    as (a' & H1 & _ & H2 & _ & H3).
  - lia.
  - cbn. lia.
  - exists a'. split; [exact H1|]. split; [exact H2 | exact H3].
Defined.

Lemma array_append_realloc_failure_witness :
  Array.ftgc_array_append false Array.array4 4 = Fault OutOfBounds.
Proof.
  destruct (array_append_realloc_failure Array.array4 4) as (_ & H & _).
  - exact array4_ok.
  - reflexivity.
  - apply H; [discriminate | reflexivity].
Defined.

(** ** Hashindex: sizing and keys *)

Section HashIndexSizing.
Import HashIndex.

(** One [v |= v >> s] step widens the window of bits of [x] that each bit
    of [v] collects. *)
Lemma smear_window (x y w s : Z) :
  0 <= s <= w ->
  (forall i, 0 <= i ->
     Z.testbit y i = true
     <-> exists j, 0 <= j < w /\ Z.testbit x (i + j) = true) ->
  forall i, 0 <= i ->
    Z.testbit (Z.lor y (Z.shiftr y s)) i = true
    <-> exists j, 0 <= j < w + s /\ Z.testbit x (i + j) = true.
Proof.
  intros Hs Hy i Hi. rewrite Z.lor_spec, Z.shiftr_spec by lia.
  rewrite orb_true_iff, (Hy i Hi), (Hy (i + s)) by lia.
  split.
  - intros [(j & Hj & Hb) | (j & Hj & Hb)].
    + exists j. split; [lia | done].
    + exists (s + j). split; [lia|]. by rewrite Z.add_assoc.
  - intros (j & Hj & Hb). destruct (decide (j < w)).
    + left. exists j. split; [lia | done].
    + right. exists (j - s). split; [lia|].
      by replace (i + s + (j - s)) with (i + j) by lia.
Qed.

(** The five steps together set every bit below the highest set bit. *)
Lemma smear_all (x : Z) :
  0 < x < 2 ^ 31 ->
  (let v := x in
   let v := Z.lor v (Z.shiftr v 1) in
   let v := Z.lor v (Z.shiftr v 2) in
   let v := Z.lor v (Z.shiftr v 4) in
   let v := Z.lor v (Z.shiftr v 8) in
   Z.lor v (Z.shiftr v 16)) = 2 ^ (Z.log2 x + 1) - 1.
Proof.
  intros Hx. cbn zeta.
  assert (H1 : forall i, 0 <= i ->
            Z.testbit x i = true
            <-> exists j, 0 <= j < 1 /\ Z.testbit x (i + j) = true).
  { intros i Hi. split.
    - intros Hb. exists 0. split; [lia|]. by rewrite Z.add_0_r.
    - intros (j & Hj & Hb). by replace (i + j) with i in Hb by lia. }
  pose proof (smear_window x _ 1 1 ltac:(lia) H1) as H2.
  pose proof (smear_window x _ 2 2 ltac:(lia) H2) as H4.
  pose proof (smear_window x _ 4 4 ltac:(lia) H4) as H8.
  pose proof (smear_window x _ 8 8 ltac:(lia) H8) as H16.
  pose proof (smear_window x _ 16 16 ltac:(lia) H16) as H32.
  clear H1 H2 H4 H8 H16. cbn in H32.
  assert (Hlog : 0 <= Z.log2 x < 31).
  { split; [apply Z.log2_nonneg|]. apply Z.log2_lt_pow2; lia. }
  replace (2 ^ (Z.log2 x + 1) - 1) with (Z.ones (Z.log2 x + 1))
    by (rewrite Z.ones_equiv; lia).
  apply Z.bits_inj'. intros i Hi. apply eq_true_iff_eq.
  rewrite (H32 i Hi). split.
  - intros (j & Hj & Hb).
    destruct (decide (i + j <= Z.log2 x)) as [Hle|Hgt].
    + apply Z.ones_spec_low. lia.
    + rewrite Z.bits_above_log2 in Hb by lia. discriminate.
  - intros Hb. destruct (decide (i < Z.log2 x + 1)) as [Hlt|Hge].
    + exists (Z.log2 x - i). split; [lia|].
      replace (i + (Z.log2 x - i)) with (Z.log2 x) by lia.
      apply Z.bit_log2. lia.
    + rewrite Z.ones_spec_high in Hb by lia. discriminate.
Qed.

Lemma pow2_roundup_spec_aux (v : Z) :
  1 <= v <= 2 ^ 30 ->
  ftgc__pow2_roundup v = 2 ^ Z.log2_up v /\
  v <= ftgc__pow2_roundup v < 2 * v.
Proof.
  intros Hv. unfold ftgc__pow2_roundup.
  rewrite (sint32_small (v - 1)) by lia.
  destruct (decide (v = 1)) as [->|Hne].
  { vm_compute. repeat split; discriminate. }
  pose proof (smear_all (v - 1) ltac:(lia)) as Hsm.
  cbn zeta in Hsm. cbn zeta. rewrite Hsm. clear Hsm.
  assert (Hlog : 0 <= Z.log2 (v - 1) < 30).
  { split; [apply Z.log2_nonneg|]. apply Z.log2_lt_pow2; lia. }
  assert (Hup : Z.log2_up v = Z.log2 (v - 1) + 1).
  { rewrite Z.log2_up_eqn by lia. unfold Z.succ, Z.pred. done. }
  assert (Hpow : 2 ^ (Z.log2 (v - 1) + 1) <= 2 ^ 30).
  { apply Z.pow_le_mono_r; lia. }
  replace (2 ^ (Z.log2 (v - 1) + 1) - 1 + 1) with (2 ^ (Z.log2 (v - 1) + 1)) by lia.
  assert (0 < 2 ^ (Z.log2 (v - 1) + 1)) by (apply Z.pow_pos_nonneg; lia).
  rewrite sint32_small by lia.
  rewrite Hup. split; [done|].
  pose proof (Z.log2_up_spec v ltac:(lia)) as [Hlo Hhi].
  rewrite Hup in Hlo, Hhi. unfold Z.pred in Hlo.
  replace (Z.log2 (v - 1) + 1 + -1) with (Z.log2 (v - 1)) in Hlo by lia.
  rewrite Z.pow_add_r by lia. rewrite Z.pow_add_r in Hhi by lia. lia.
Qed.

(** X4: for [1 <= v <= 2^30], [ftgc__pow2_roundup] returns the least
    power of two that is not below [v]: it is [2 ^ ceil(log2 v)], at
    least [v] and below [2 * v]; a power of two is returned unchanged. *)
Theorem pow2_roundup_least_power (v : Z) :
  1 <= v <= 2 ^ 30 ->
  ftgc__pow2_roundup v = 2 ^ Z.log2_up v /\
  v <= ftgc__pow2_roundup v < 2 * v /\
  (forall k, 0 <= k -> v = 2 ^ k -> ftgc__pow2_roundup v = v).
Proof.
  intros Hv. destruct (pow2_roundup_spec_aux v Hv) as (Heq & Hlo & Hhi).
  split; [done|]. split; [done|].
  intros k Hk ->. rewrite Heq. f_equal. by apply Z.log2_up_pow2.
Qed.

End HashIndexSizing.

Lemma pow2_roundup_least_power_witness :
  HashIndex.ftgc__pow2_roundup 100 = 128.
Proof.
  destruct (pow2_roundup_least_power 100) as [H _].
  - lia.
  - rewrite H. reflexivity.
Defined.

Section HashIndexKeys.
Import HashIndex.

Lemma add_key_total (ctx : ftgc_hashindex_s) (key value : Z) (malloc_ok : bool) :
  hashindex_wf ctx -> 0 <= key < table_size ctx ->
  is_Ok (ftgc_hashindex_add_key malloc_ok ctx key value).
Proof.
  intros Hwf Hk.
  destruct (arr_get_in_range (table ctx) key (wf_table_range _ _ Hwf Hk))
    as (t & _ & Ht).
  destruct (arr_get_in_range (chain ctx) key (wf_chain_range _ _ Hwf Hk))
    as (c & _ & Hc).
  destruct (decide (t = FTGC_HASHINDEX_UNUSED \/ t = FTGC_HASHINDEX_DELETED))
    as [Hd|Hd].
  { rewrite (add_key_empty ctx key value t) by (lia || done). by eexists. }
  destruct (decide (value = t \/ value ∈ link_stored c)) as [Hdup|Hnew].
  { rewrite (add_key_duplicate ctx key value t c) by (lia || tauto).
    by eexists. }
  destruct (add_key_append ctx key value t c malloc_ok) as (c' & _ & ->);
    [lia | done | done | tauto | tauto | tauto | tauto |].
  by eexists.
Qed.

Lemma init_index_ok (size : Z) :
  1 <= size <= 2 ^ 30 ->
  exists n,
    1 <= n <= 2 ^ 30 /\ n = 2 ^ Z.log2_up size /\
    ftgc_hashindex_init true true size
    = (1, mk_hashindex (replicate (Z.to_nat n) FTGC_HASHINDEX_UNUSED)
            (replicate (Z.to_nat n) (Link_end FTGC_HASHINDEX_UNUSED))
            n (n - 1)).
Proof.
  intros Hv. destruct (pow2_roundup_spec_aux size Hv) as (Hsz & Hlo & Hhi).
  exists (ftgc__pow2_roundup size).
  assert (Hpow : 1 <= ftgc__pow2_roundup size <= 2 ^ 30).
  { rewrite Hsz. split.
    - pose proof (Z.pow_pos_nonneg 2 (Z.log2_up size) ltac:(lia)
                    (Z.log2_up_nonneg _)). lia.
    - apply Z.pow_le_mono_r; [lia|].
      destruct (decide (size = 1)) as [->|]; [done|].
      apply Z.log2_up_le_pow2; lia. }
  split; [done|]. split; [done|].
  unfold ftgc_hashindex_init. cbn -[Z.pow ftgc__pow2_roundup].
  by rewrite (sint32_small (ftgc__pow2_roundup size - 1)) by lia.
Qed.

(** X5: [ftgc_hashindex_init] reports success exactly when both
    allocations succeed. For [1 <= vert_size <= 2^30] the table then has
    [2 ^ ceil(log2 vert_size)] slots, the mask is that size less one, the
    index satisfies its invariant and every slot is empty: iterating any
    key visits nothing. After a failed allocation the context has no
    table, and adding to it is an access outside any storage. *)
Theorem hashindex_init_empty (vert_size : Z) (table_ok chain_ok : bool) :
  1 <= vert_size <= 2 ^ 30 ->
  let r := (ftgc_hashindex_init table_ok chain_ok vert_size).1 in
  let ctx := (ftgc_hashindex_init table_ok chain_ok vert_size).2 in
  (r = 1 \/ r = 0) /\
  (r = 1 <-> table_ok = true /\ chain_ok = true) /\
  table_size ctx = 2 ^ Z.log2_up vert_size /\
  hash_mask ctx = table_size ctx - 1 /\
  (r = 1 ->
   hashindex_wf ctx /\ chains_clean ctx /\
   forall key, 0 <= key < table_size ctx ->
     ftgc_hashindex_iter_get_first ctx None key
       = Ok (FTGC_HASHINDEX_UNUSED, None) /\
     iterate ctx key = Ok []) /\
  (r = 0 ->
   forall ok key value,
     ftgc_hashindex_add_key ok ctx key value = Fault OutOfBounds).
Proof.
  intros Hv.
  destruct (pow2_roundup_spec_aux vert_size Hv) as (Hsz & Hlo & Hhi).
  assert (Hpow : 1 <= ftgc__pow2_roundup vert_size <= 2 ^ 30).
  { rewrite Hsz. split.
    - pose proof (Z.pow_pos_nonneg 2 (Z.log2_up vert_size) ltac:(lia)
                    (Z.log2_up_nonneg _)). lia.
    - apply Z.pow_le_mono_r; [lia|].
      destruct (decide (vert_size = 1)) as [->|]; [done|].
      apply Z.log2_up_le_pow2; lia. }
  unfold ftgc_hashindex_init.
  destruct table_ok, chain_ok; cbn -[Z.pow Z.log2_up ftgc__pow2_roundup].
  all: rewrite (sint32_small (ftgc__pow2_roundup vert_size - 1)) by lia.
  all: split; [auto|]; split; [intuition (discriminate || lia || auto)|].
  all: split; [done|]; split; [done|]; split.
  all: try (intros Hr; discriminate Hr).
  all: try (intros _ ok key value; unfold ftgc_hashindex_add_key, arr_get;
            cbn [table]; case_bool_decide; [by rewrite lookup_nil | done]).
  - intros _. set (n := ftgc__pow2_roundup vert_size) in *.
    split; [|split].
    + unfold hashindex_wf. cbn. rewrite !length_replicate.
      split; [lia|]. split; [lia|]. split; [lia|].
      by apply Forall_replicate.
    + unfold chains_clean. cbn. apply Forall_replicate. cbn.
      apply not_elem_of_nil.
    + intros key Hk.
      assert (Ht : replicate (Z.to_nat n) FTGC_HASHINDEX_UNUSED !! Z.to_nat key
                   = Some FTGC_HASHINDEX_UNUSED)
        by (apply lookup_replicate_2; lia).
      unfold iterate, iter_sequence, iter_fuel, ftgc_hashindex_iter_get_first.
      cbn. unfold arr_get. rewrite bool_decide_eq_true_2 by lia.
      rewrite Ht. cbn.
      rewrite lookup_replicate_2 by lia. cbn. done.
Qed.

Lemma land_mask_range (a m : Z) : 0 <= m -> 0 <= Z.land a m <= m.
Proof.
  intros Hm. split; [|by apply land_upper_bound].
  apply Z.land_nonneg. by right.
Qed.

(** X6: on an index whose mask is its table size less one, which is what
    [ftgc_hashindex_init] sets up, the key generated from a string, from
    an [int] or from a pointer is a valid slot number,
    [0 <= key < table_size]; on a well-formed index [add_key] with a
    generated key therefore never indexes outside the table. *)
Theorem generated_keys_in_range (ctx : ftgc_hashindex_s) (str : list ascii)
    (value p : Z) :
  1 <= table_size ctx <= 2 ^ 31 -> hash_mask ctx = table_size ctx - 1 ->
  0 <= ftgc_hashindex_generate_key_string ctx str < table_size ctx /\
  0 <= ftgc_hashindex_generate_key_int ctx value < table_size ctx /\
  0 <= ftgc_hashindex_generate_key_ptr ctx p < table_size ctx /\
  (hashindex_wf ctx ->
   forall ok v,
     is_Ok (ftgc_hashindex_add_key ok ctx
              (ftgc_hashindex_generate_key_string ctx str) v) /\
     is_Ok (ftgc_hashindex_add_key ok ctx
              (ftgc_hashindex_generate_key_int ctx value) v) /\
     is_Ok (ftgc_hashindex_add_key ok ctx
              (ftgc_hashindex_generate_key_ptr ctx p) v)).
Proof.
  intros Hsz Hmask.
  pose proof (generate_key_range ctx str Hsz Hmask) as Hstr.
  assert (Hint : forall x, 0 <= ftgc_hashindex_generate_key_int ctx x
                           < table_size ctx).
  { intros x. unfold ftgc_hashindex_generate_key_int. cbn zeta.
    rewrite Hmask.
    pose proof (land_mask_range
                  (Z.lxor (Z.shiftr (int_mix (int_mix x)) 16)
                          (int_mix (int_mix x)))
                  (table_size ctx - 1) ltac:(lia)). lia. }
  split; [done|]. split; [done|]. split; [apply Hint|].
  intros Hwf ok v. repeat split; apply add_key_total; try done; apply Hint.
Qed.

(** X7: the key of the NULL pointer, and of the integer 0, is 0 in every
    index; and once [ftgc_hashindex_free] has zeroed the mask, every key
    generated for the index is 0. (The source's test
    [ftgc__test_hashindex_basic] asserts that the key of a NULL pointer,
    generated after the free, is not 0.) *)
Theorem null_pointer_key_is_zero (ctx : ftgc_hashindex_s) (str : list ascii)
    (value p : Z) :
  ftgc_hashindex_generate_key_ptr ctx NULL = 0 /\
  ftgc_hashindex_generate_key_int ctx 0 = 0 /\
  ftgc_hashindex_generate_key_ptr (ftgc_hashindex_free ctx) NULL = 0 /\
  ftgc_hashindex_generate_key_string (ftgc_hashindex_free ctx) str = 0 /\
  ftgc_hashindex_generate_key_int (ftgc_hashindex_free ctx) value = 0 /\
  ftgc_hashindex_generate_key_ptr (ftgc_hashindex_free ctx) p = 0.
Proof.
  assert (Hint0 : forall c, ftgc_hashindex_generate_key_int c 0 = 0).
  { intros c. unfold ftgc_hashindex_generate_key_int. cbn zeta.
    replace (int_mix 0) with 0 by (vm_compute; reflexivity).
    replace (int_mix 0) with 0 by (vm_compute; reflexivity).
    cbn. done. }
  assert (Hnull : forall c, ftgc_hashindex_generate_key_ptr c NULL = 0).
  { intros c. unfold ftgc_hashindex_generate_key_ptr. cbv zeta.
    set (w := sint32 _).
    assert (w = 0) as -> by (vm_compute; reflexivity). apply Hint0. }
  assert (Hfree : forall x, ftgc_hashindex_generate_key_int
                              (ftgc_hashindex_free ctx) x = 0).
  { intros x. unfold ftgc_hashindex_generate_key_int, ftgc_hashindex_free.
    cbn [hash_mask]. cbn zeta. apply Z.land_0_r. }
  split; [apply Hnull|]. split; [apply Hint0|]. split; [apply Hnull|].
  split; [|split; [apply Hfree | apply Hfree]].
  unfold ftgc_hashindex_generate_key_string, ftgc_hashindex_free.
  cbn [hash_mask]. replace (uint32 0) with 0 by (vm_compute; reflexivity).
  rewrite Z.land_0_r. vm_compute. reflexivity.
Qed.

End HashIndexKeys.

Lemma hashindex_init_empty_witness :
  (HashIndex.ftgc_hashindex_init true true 100).1 = 1 /\
  HashIndex.table_size (HashIndex.ftgc_hashindex_init true true 100).2 = 128 /\
  HashIndex.iterate (HashIndex.ftgc_hashindex_init true true 100).2 5 = Ok [].
Proof.
  destruct (hashindex_init_empty 100 true true) as (_ & H1 & H2 & _ & H3 & _).
  - lia.
  - destruct H1 as [_ H1]. specialize (H1 (conj eq_refl eq_refl)).
    destruct (H3 H1) as (_ & _ & H4).
    split; [exact H1|]. split; [rewrite H2; reflexivity|].
    apply H4. rewrite H2. vm_compute. split; [discriminate | reflexivity].
Defined.

Lemma generated_keys_in_range_witness :
  0 <= HashIndex.ftgc_hashindex_generate_key_int HashIndex.index4 1000 < 4.
Proof.
  destruct (generated_keys_in_range HashIndex.index4 [] 1000 0) as (_ & H & _).
  - vm_compute. split; discriminate.
  - reflexivity.
  - exact H.
Defined.

(** ** Hashindex: iteration after updates *)

Section HashIndexIteration.
Import HashIndex.

Lemma iterate_spec (ctx : ftgc_hashindex_s) (key t : Z) (c : ftgc__hashlink_s) :
  0 <= key ->
  table ctx !! Z.to_nat key = Some t ->
  chain ctx !! Z.to_nat key = Some c ->
  iterate ctx key = Ok (visited t c).
Proof.
  intros Hk Ht Hc. unfold iterate, iter_fuel, iter_sequence,
    ftgc_hashindex_iter_get_first. rewrite Hc.
  assert (arr_get (table ctx) key = Ok t) as -> by (by apply arr_get_Ok).
  cbn. by apply (iter_collect_spec _ ctx key c Hk Hc 0%nat c).
Qed.

Lemma iterate_same_slot (ctx ctx' : ftgc_hashindex_s) (k : Z) :
  hashindex_wf ctx -> 0 <= k < table_size ctx ->
  table ctx' !! Z.to_nat k = table ctx !! Z.to_nat k ->
  chain ctx' !! Z.to_nat k = chain ctx !! Z.to_nat k ->
  iterate ctx' k = iterate ctx k.
Proof.
  intros Hwf Hk Ht Hc.
  destruct (arr_get_in_range (table ctx) k (wf_table_range _ _ Hwf Hk))
    as (t & _ & Ht0).
  destruct (arr_get_in_range (chain ctx) k (wf_chain_range _ _ Hwf Hk))
    as (c & _ & Hc0).
  rewrite (iterate_spec ctx k t c) by (lia || done).
  rewrite (iterate_spec ctx' k t c) by (lia || congruence). done.
Qed.

Lemma filter_not_deleted_app (l r : list Z) :
  List.filter not_deleted (l ++ r)
  = List.filter not_deleted l ++ List.filter not_deleted r.
Proof. apply List.filter_app. Qed.

Lemma elem_of_filter_not_deleted (l : list Z) (x : Z) :
  x ∈ List.filter not_deleted l <-> x ∈ l /\ x <> FTGC_HASHINDEX_DELETED.
Proof.
  rewrite !list_elem_of_In, filter_In. unfold not_deleted.
  split; intros [H1 H2]; (split; [done|]).
  - intros ->. by rewrite bool_decide_eq_true_2 in H2.
  - by rewrite bool_decide_eq_false_2.
Qed.

(** What the iteration visits on a slot whose chain ends in its UNUSED
    node and holds no other UNUSED. *)
Lemma visited_clean (t : Z) (c : ftgc__hashlink_s) :
  link_last c = FTGC_HASHINDEX_UNUSED ->
  FTGC_HASHINDEX_UNUSED ∉ link_stored c ->
  t <> FTGC_HASHINDEX_UNUSED ->
  visited t c = t :: List.filter not_deleted (link_stored c).
Proof.
  intros Hlast Hclean Ht. unfold visited. cbn [until_unused].
  rewrite bool_decide_eq_false_2 by done. f_equal.
  rewrite link_values_stored, Hlast, filter_not_deleted_app. cbn.
  apply until_unused_app. apply Forall_forall. intros x Hx ->.
  apply elem_of_filter_not_deleted in Hx as [Hx _]. done.
Qed.

Lemma wf_slot (ctx : ftgc_hashindex_s) (key : Z) :
  hashindex_wf ctx -> 0 <= key < table_size ctx ->
  exists t c,
    table ctx !! Z.to_nat key = Some t /\
    chain ctx !! Z.to_nat key = Some c /\
    link_last c = FTGC_HASHINDEX_UNUSED.
Proof.
  intros Hwf Hk.
  destruct (arr_get_in_range (table ctx) key (wf_table_range _ _ Hwf Hk))
    as (t & _ & Ht).
  destruct (arr_get_in_range (chain ctx) key (wf_chain_range _ _ Hwf Hk))
    as (c & _ & Hc).
  exists t, c. split; [done|]. split; [done|].
  destruct Hwf as (_ & _ & _ & Hall).
  rewrite Forall_lookup in Hall. exact (Hall _ _ Hc).
Qed.

Lemma wf_set_table (ctx : ftgc_hashindex_s) (i : nat) (v : Z) :
  hashindex_wf ctx -> hashindex_wf (set_table ctx (<[i := v]> (table ctx))).
Proof.
  intros (H1 & H2 & H3 & H4). unfold hashindex_wf. cbn.
  by rewrite length_insert.
Qed.

Lemma wf_set_chain (ctx : ftgc_hashindex_s) (i : nat) (c : ftgc__hashlink_s) :
  hashindex_wf ctx -> link_last c = FTGC_HASHINDEX_UNUSED ->
  hashindex_wf (set_chain ctx (<[i := c]> (chain ctx))).
Proof.
  intros (H1 & H2 & H3 & H4) Hc. unfold hashindex_wf. cbn.
  rewrite length_insert. repeat split; try done. by apply Forall_insert.
Qed.

(** X8: lookup after insert. On a well-formed index whose chains hold no
    stray UNUSED, [add_key] of a value that is not a sentinel, the
    allocation succeeding, returns 0 or 1, keeps both properties of the
    index, makes the iteration of the key visit the value, and leaves the
    iteration of every other key as it was. *)
Theorem add_key_then_iterate (ctx : ftgc_hashindex_s) (key value : Z) :
  hashindex_wf ctx -> chains_clean ctx -> 0 <= key < table_size ctx ->
  value <> FTGC_HASHINDEX_UNUSED -> value <> FTGC_HASHINDEX_DELETED ->
  exists r ctx' l,
    ftgc_hashindex_add_key true ctx key value = Ok (r, ctx') /\
    (r = 0 \/ r = 1) /\
    hashindex_wf ctx' /\ chains_clean ctx' /\
    table_size ctx' = table_size ctx /\
    iterate ctx' key = Ok l /\ value ∈ l /\
    (forall k, 0 <= k < table_size ctx -> k <> key ->
       iterate ctx' k = iterate ctx k).
Proof.
  intros Hwf Hclean Hk Hvu Hvd.
  destruct (wf_slot ctx key Hwf Hk) as (t & c & Ht & Hc & Hlast).
  assert (Hcc : FTGC_HASHINDEX_UNUSED ∉ link_stored c).
  { unfold chains_clean in Hclean. rewrite Forall_lookup in Hclean.
    exact (Hclean _ _ Hc). }
  assert (Hother : forall k, k <> key -> 0 <= k -> Z.to_nat k <> Z.to_nat key)
    by (intros; lia).
  destruct (decide (t = FTGC_HASHINDEX_UNUSED \/ t = FTGC_HASHINDEX_DELETED))
    as [Hd|Hd].
  - (* the table entry is free *)
    rewrite (add_key_empty ctx key value t) by (lia || done).
    eexists _, _, _. split; [reflexivity|]. split; [by left|].
    split; [by apply wf_set_table|]. split; [done|]. split; [done|].
    split.
    { apply (iterate_spec _ key value c); [lia | | done].
      cbn. apply list_lookup_insert_eq. by apply lookup_lt_Some in Ht. }
    split.
    { rewrite visited_clean by done. apply elem_of_cons. by left. }
    intros k Hkr Hne. apply iterate_same_slot; [done | done | | done].
    cbn. apply list_lookup_insert_ne. lia.
  - assert (Htu : t <> FTGC_HASHINDEX_UNUSED) by tauto.
    assert (Htd : t <> FTGC_HASHINDEX_DELETED) by tauto.
    destruct (decide (value = t \/ value ∈ link_stored c)) as [Hdup|Hnew].
    + (* the value is there already *)
      rewrite (add_key_duplicate ctx key value t c) by (lia || done).
      eexists _, _, _. split; [reflexivity|]. split; [by right|].
      split; [done|]. split; [done|]. split; [done|].
      split; [by apply (iterate_spec _ key t c); [lia | |]|].
      split; [|done].
      rewrite visited_clean by done. apply elem_of_cons.
      destruct Hdup as [->|Hin]; [by left | right].
      by apply elem_of_filter_not_deleted.
    + (* the value goes to the end of the chain *)
      destruct (add_key_append ctx key value t c true) as (c' & Hvals & ->);
        [lia | done | done | done | done | tauto | tauto |].
      destruct (link_stored_of_values c' (link_stored c ++ [value])
                  FTGC_HASHINDEX_UNUSED) as [Hst Hla].
      { rewrite Hvals. by rewrite <- app_assoc. }
      assert (Hcc' : FTGC_HASHINDEX_UNUSED ∉ link_stored c').
      { rewrite Hst, elem_of_app, list_elem_of_singleton. intros [?|?]; done. }
      eexists _, _, _. split; [reflexivity|]. split; [by right|].
      split; [by apply wf_set_chain|].
      split; [by apply Forall_insert|]. split; [done|].
      split.
      { apply (iterate_spec _ key t c'); [lia | done |].
        cbn. apply list_lookup_insert_eq. by apply lookup_lt_Some in Hc. }
      split.
      { rewrite visited_clean by done. apply elem_of_cons. right.
        apply elem_of_filter_not_deleted. split; [|done].
        rewrite Hst, elem_of_app, list_elem_of_singleton. by right. }
      intros k Hkr Hne. apply iterate_same_slot; [done | done | done |].
      cbn. apply list_lookup_insert_ne. lia.
Qed.

(** X9: [remove_first] on an in-range key replaces the first entry the
    iteration of that key visits by the DELETED marker and leaves the
    entries behind it, and every other key, as they were. On a slot that
    was empty it leaves a tombstone too: the iteration no longer stops at
    once but yields DELETED. *)
Theorem remove_first_then_iterate (ctx : ftgc_hashindex_s) (key : Z) :
  hashindex_wf ctx -> 0 <= key < table_size ctx ->
  exists ctx' l l',
    ftgc_hashindex_remove_first ctx key = Ok ctx' /\
    hashindex_wf ctx' /\
    iterate ctx key = Ok l /\
    iterate ctx' key = Ok (FTGC_HASHINDEX_DELETED :: l') /\
    (forall t rest, l = t :: rest -> l' = rest) /\
    (forall k, 0 <= k < table_size ctx -> k <> key ->
       iterate ctx' k = iterate ctx k).
Proof.
  intros Hwf Hk.
  destruct (wf_slot ctx key Hwf Hk) as (t & c & Ht & Hc & Hlast).
  unfold ftgc_hashindex_remove_first.
  rewrite arr_set_in_range by (by apply wf_table_range).
  cbn [mbind result_bind].
  eexists _, (visited t c),
    (until_unused (List.filter not_deleted (link_values c))).
  split; [reflexivity|]. split; [by apply wf_set_table|].
  split; [by apply iterate_spec; [lia | |]|]. split.
  { rewrite (iterate_spec _ key FTGC_HASHINDEX_DELETED c); [done | lia | | done].
    cbn. apply list_lookup_insert_eq. by apply lookup_lt_Some in Ht. }
  split.
  { intros t0 rest. unfold visited. cbn [until_unused].
    case_bool_decide; [done|]. by intros [= _ <-]. }
  intros k Hkr Hne. apply iterate_same_slot; [done | done | | done].
  cbn. apply list_lookup_insert_ne. lia.
Qed.

(** Values added under one key of a freshly initialised index, all
    allocations succeeding. *)
Lemma add_only_fresh (vert_size key : Z) (vs : list Z) :
  1 <= vert_size <= 2 ^ 30 ->
  0 <= key < table_size (ftgc_hashindex_init true true vert_size).2 ->
  Forall (fun v => v <> FTGC_HASHINDEX_UNUSED /\
                   v <> FTGC_HASHINDEX_DELETED) vs ->
  exists ctx' t c,
    run_ops (ftgc_hashindex_init true true vert_size).2
      (map (OpAddKey true key) vs) = Ok ctx' /\
    table ctx' !! Z.to_nat key = Some t /\
    chain ctx' !! Z.to_nat key = Some c /\
    link_last c = FTGC_HASHINDEX_UNUSED /\
    bucket_of t c = distinct_values vs /\
    iterate ctx' key = Ok (distinct_values vs).
Proof.
  intros Hv Hk Hvs.
  destruct (init_index_ok vert_size Hv) as (n & Hn & _ & Hinit).
  rewrite Hinit in *. cbn [snd table_size] in *.
  set (ctx := mk_hashindex _ _ n (n - 1)) in *.
  destruct (add_only_slot_distinct vs ctx key FTGC_HASHINDEX_UNUSED
              (Link_end FTGC_HASHINDEX_UNUSED))
    as (ctx' & t' & c' & Hrun & Ht' & Hc' & Hl & Hb & Hit); try done.
  - lia.
  - apply lookup_replicate_2. lia.
  - apply lookup_replicate_2. lia.
  - exists ctx', t', c'. do 5 (split; [done|]).
    unfold iterate, iter_fuel. rewrite Hc'. exact Hit.
Qed.

(** X22: non-negative values added under one key of a freshly
    initialised index, all allocations succeeding, are kept without
    duplicates and in the order in which they were first added: iterating
    the key yields each distinct value once, whatever number of times it
    was added. *)
Theorem added_values_iterate_distinct (vert_size key : Z) (vs : list Z) :
  1 <= vert_size <= 2 ^ 30 ->
  0 <= key < table_size (ftgc_hashindex_init true true vert_size).2 ->
  Forall (fun v => 0 <= v) vs ->
  exists ctx' l,
    run_ops (ftgc_hashindex_init true true vert_size).2
      (map (OpAddKey true key) vs) = Ok ctx' /\
    iterate ctx' key = Ok l /\
    l = distinct_values vs /\
    NoDup l /\ (forall x, x ∈ l <-> x ∈ vs).
Proof.
  intros Hv Hk Hvs.
  destruct (add_only_fresh vert_size key vs Hv Hk)
    as (ctx' & t' & c' & Hrun & _ & _ & _ & _ & Hit).
  { eapply Forall_impl; [exact Hvs|]. cbn.
    unfold FTGC_HASHINDEX_UNUSED, FTGC_HASHINDEX_DELETED. intros x Hx. lia. }
  exists ctx', (distinct_values vs). split; [done|]. split; [done|].
  split; [done | apply distinct_values_spec].
Qed.

(** C1: in every index reached from [ftgc_hashindex_init] by a sequence
    of [add_key] and [remove_first] calls, whatever the keys, the values
    and the allocator's answers, the nodes of each chain hold pairwise
    distinct values. And when only [add_key] is called, with one key and
    values that are not sentinels, all allocations succeeding, the slot
    holds each distinct value exactly once: its table entry followed by
    its chain values is the list of the distinct values in order of
    first addition, and that is what iterating the key yields, however
    often a value was added. *)
Theorem chain_values_stay_distinct (vert_size : Z) :
  1 <= vert_size <= 2 ^ 30 ->
  let ctx0 := (ftgc_hashindex_init true true vert_size).2 in
  (forall ops ctx',
     run_ops ctx0 ops = Ok ctx' -> Forall chain_distinct (chain ctx')) /\
  (forall key vs,
     0 <= key < table_size ctx0 ->
     Forall (fun v => v <> FTGC_HASHINDEX_UNUSED /\
                      v <> FTGC_HASHINDEX_DELETED) vs ->
     exists ctx' t c l,
       run_ops ctx0 (map (OpAddKey true key) vs) = Ok ctx' /\
       table ctx' !! Z.to_nat key = Some t /\
       chain ctx' !! Z.to_nat key = Some c /\
       l = (if bool_decide (t = FTGC_HASHINDEX_UNUSED) then []
            else t :: link_stored c) /\
       link_last c = FTGC_HASHINDEX_UNUSED /\
       iterate ctx' key = Ok l /\
       l = distinct_values vs /\
       NoDup l /\ (forall x, x ∈ l <-> x ∈ vs)).
Proof.
  intros Hv ctx0. split.
  - intros ops ctx' Hrun.
    apply (reachable_chain_distinct ops ctx0); [|done].
    unfold ctx0, ftgc_hashindex_init. cbn.
    apply Forall_replicate. split; [constructor | by left].
  - intros key vs Hk Hvs.
    destruct (add_only_fresh vert_size key vs Hv Hk Hvs)
      as (ctx' & t & c & Hrun & Ht & Hc & Hl & Hb & Hit).
    exists ctx', t, c, (distinct_values vs).
    split; [done|]. split; [done|]. split; [done|].
    split; [by rewrite <- Hb|]. split; [done|]. split; [done|].
    split; [done | apply distinct_values_spec].
Qed.

End HashIndexIteration.

Lemma index4_clean : HashIndex.chains_clean HashIndex.index4.
Proof.
  unfold HashIndex.chains_clean. vm_compute.
  repeat constructor; apply not_elem_of_nil.
Qed.

Lemma add_key_then_iterate_witness :
  exists r ctx' l,
    HashIndex.ftgc_hashindex_add_key true HashIndex.index4 1 5 = Ok (r, ctx') /\
    HashIndex.iterate ctx' 1 = Ok l /\ 5 ∈ l.
Proof.
  destruct (add_key_then_iterate HashIndex.index4 1 5)
    as (r & ctx' & l & H1 & _ & _ & _ & _ & H2 & H3 & _).
  - exact index4_wf.
  - exact index4_clean.
  - vm_compute. split; [discriminate | reflexivity].
  - discriminate.
  - discriminate.
  - exists r, ctx', l. split; [exact H1|]. split; [exact H2 | exact H3].
Defined.

Lemma added_values_iterate_distinct_witness :
  exists ctx',
    HashIndex.run_ops (HashIndex.ftgc_hashindex_init true true 4).2
      (map (HashIndex.OpAddKey true 1) [5; 7; 5; 9; 7]) = Ok ctx' /\
    HashIndex.iterate ctx' 1 = Ok [5; 7; 9].
Proof.
  destruct (added_values_iterate_distinct 4 1 [5; 7; 5; 9; 7])
    as (ctx' & l & H1 & H2 & H3 & _).
  - lia.
  - vm_compute. split; [discriminate | reflexivity].
  - repeat constructor; lia.
  - exists ctx'. split; [exact H1|]. rewrite H2, H3. reflexivity.
Defined.

Lemma chain_values_stay_distinct_witness :
  (exists ctx',
     HashIndex.run_ops HashIndex.index4
       [HashIndex.OpAddKey true 1 5; HashIndex.OpAddKey true 1 7;
        HashIndex.OpRemoveFirst 1; HashIndex.OpAddKey true 1 7] = Ok ctx' /\
     Forall HashIndex.chain_distinct (HashIndex.chain ctx')) /\
  (exists ctx',
     HashIndex.run_ops HashIndex.index4
       (map (HashIndex.OpAddKey true 1) [5; 7; 5; 9; 7]) = Ok ctx' /\
     HashIndex.iterate ctx' 1 = Ok [5; 7; 9]).
Proof.
  destruct (chain_values_stay_distinct 4) as [H1 H2]; [lia|].
  split.
  - eexists. split; [vm_compute; reflexivity|].
    apply (H1 [HashIndex.OpAddKey true 1 5; HashIndex.OpAddKey true 1 7;
               HashIndex.OpRemoveFirst 1; HashIndex.OpAddKey true 1 7]).
    vm_compute. reflexivity.
  - destruct (H2 1 [5; 7; 5; 9; 7])
      as (ctx' & t & c & l & Hrun & _ & _ & _ & _ & Hit & Hl & _).
    + vm_compute. split; [discriminate | reflexivity].
    + repeat constructor; discriminate.
    + exists ctx'. split; [exact Hrun|]. rewrite Hit, Hl. reflexivity.
Defined.

Lemma remove_first_then_iterate_witness :
  exists ctx' l',
    HashIndex.ftgc_hashindex_remove_first HashIndex.index4 1 = Ok ctx' /\
    HashIndex.iterate ctx' 1 = Ok (HashIndex.FTGC_HASHINDEX_DELETED :: l').
Proof.
  destruct (remove_first_then_iterate HashIndex.index4 1)
    as (ctx' & l & l' & H1 & _ & _ & H2 & _).
  - exact index4_wf.
  - vm_compute. split; [discriminate | reflexivity].
  - exists ctx', l'. split; [exact H1 | exact H2].
Defined.

(** ** Hashindex: removal through the iterator *)

Section HashIndexRemoveCurrent.
Import HashIndex.

Lemma link_values_set_node (c : ftgc__hashlink_s) (d : nat) (v : Z) :
  link_values (set_node_value c d v) = <[d := v]> (link_values c).
Proof.
  revert d. induction c as [w|w nx IH]; intros [|d]; cbn; try done.
  by rewrite IH.
Qed.

Lemma node_at_set_node_after (c : ftgc__hashlink_s) (d e : nat) (v : Z) :
  (d < e)%nat -> node_at (set_node_value c d v) e = node_at c e.
Proof.
  revert d e. induction c as [w|w nx IH]; intros [|d] [|e] Hlt; cbn;
    try done; try lia.
  apply IH. lia.
Qed.

Lemma node_at_value (c n : ftgc__hashlink_s) (d : nat) :
  node_at c d = Some n -> link_values c !! d = Some (link_value n).
Proof.
  revert c. induction d as [|d IH]; intros c Hn; cbn in *.
  - inversion Hn; subst. by destruct n.
  - destruct c as [w|w nx]; [done|]. cbn. by apply IH.
Qed.

Lemma node_at_set_node (c n : ftgc__hashlink_s) (d : nat) (v : Z) :
  node_at c d = Some n -> is_Some (node_at (set_node_value c d v) d).
Proof.
  revert c. induction d as [|d IH]; intros c Hn; cbn in *.
  - destruct c; by eexists.
  - destruct c as [w|w nx]; [done|]. cbn. by apply IH.
Qed.

Lemma link_last_set_node (c : ftgc__hashlink_s) (d : nat) (v : Z) :
  (d < length (link_stored c))%nat ->
  link_last (set_node_value c d v) = link_last c.
Proof.
  revert d. induction c as [w|w nx IH]; intros [|d] Hlt; cbn in *;
    try done; try lia.
  apply IH. lia.
Qed.

(** A node that holds a value other than the one of the last node is not
    the last node. *)
Lemma node_not_last (c n : ftgc__hashlink_s) (d : nat) :
  node_at c d = Some n -> link_value n <> link_last c ->
  (d < length (link_stored c))%nat.
Proof.
  revert c. induction d as [|d IH]; intros c Hn Hv; cbn in *.
  - inversion Hn; subst. destruct n; cbn in *; [done | lia].
  - destruct c as [w|w nx]; [done|]. cbn in *.
    specialize (IH nx Hn Hv). lia.
Qed.

(** X10: the entry [iter_get_first] returns cannot be removed through the
    iterator. [iter_get_first] leaves [prev_node] NULL, and
    [iter_remove_current] writes through [prev_node]. *)
Theorem first_entry_not_removable (ctx : ftgc_hashindex_s)
    (it it' : ftgc_hashindex_iter_s) (key v : Z) :
  ftgc_hashindex_iter_get_first ctx (Some it) key = Ok (v, Some it') ->
  prev_node it' = None /\
  ftgc_hashindex_iter_remove_current ctx it' = Fault InvalidPointer.
Proof.
  unfold ftgc_hashindex_iter_get_first. intros H.
  destruct (arr_get (table ctx) key); [|done]. cbn in H.
  inversion H; subst. done.
Qed.

(** X11: after [iter_get_next] has returned a chained value,
    [iter_remove_current] overwrites exactly the node that value came
    from with DELETED. The table and every other node are unchanged, the
    index stays well formed, a later iteration of the slot skips the
    node, and the iterator is not advanced: the next [iter_get_next]
    returns what it would have returned without the removal. *)
Theorem iter_remove_current_marks (ctx : ftgc_hashindex_s)
    (it it' : ftgc_hashindex_iter_s) (v : Z) :
  hashindex_wf ctx ->
  ftgc_hashindex_iter_get_next ctx it = Ok (v, it') ->
  v <> FTGC_HASHINDEX_UNUSED ->
  exists key d c c' ctx',
    0 <= key /\
    prev_node it' = Some (key, d) /\
    chain ctx !! Z.to_nat key = Some c /\
    link_values c !! d = Some v /\
    ftgc_hashindex_iter_remove_current ctx it' = Ok ctx' /\
    table ctx' = table ctx /\
    chain ctx' = <[Z.to_nat key := c']> (chain ctx) /\
    link_values c' = <[d := FTGC_HASHINDEX_DELETED]> (link_values c) /\
    hashindex_wf ctx' /\
    (forall t, table ctx !! Z.to_nat key = Some t ->
       iterate ctx' key = Ok (visited t c')) /\
    ftgc_hashindex_iter_get_next ctx' it' = ftgc_hashindex_iter_get_next ctx it'.
Proof.
  intros Hwf Hnext Hv. unfold ftgc_hashindex_iter_get_next in Hnext.
  destruct (current_node it) as [[k d0]|] eqn:Hcur;
    [|inversion Hnext; subst; by destruct Hv].
  unfold node_deref in Hnext. cbn [fst snd] in Hnext.
  destruct (arr_get (chain ctx) k) as [c|] eqn:Hget; [|done].
  cbn [mbind result_bind] in Hnext.
  destruct (node_at c d0) as [n|] eqn:Hn; [|done].
  cbn [mbind result_bind] in Hnext.
  pose proof (skip_deleted_spec n d0) as Hs.
  destruct (skip_deleted n d0) as [d|];
    [|inversion Hnext; subst; by destruct Hv].
  destruct Hs as (n' & Hle & Hat & Hnd & _ & _).
  pose proof (node_at_add _ _ _ _ _ Hn Hat) as Hn'.
  replace (d0 + (d - d0))%nat with d in Hn' by lia.
  rewrite Hn' in Hnext. cbn [mbind result_bind] in Hnext.
  inversion Hnext; subst v it'. clear Hnext.
  apply arr_get_Ok in Hget as [Hk Hc].
  assert (Hlast : link_last c = FTGC_HASHINDEX_UNUSED).
  { destruct Hwf as (_ & _ & _ & Hall). rewrite Forall_lookup in Hall.
    exact (Hall _ _ Hc). }
  assert (Hd : (d < length (link_stored c))%nat).
  { apply (node_not_last c n'); [done | by rewrite Hlast]. }
  set (c' := set_node_value c d FTGC_HASHINDEX_DELETED).
  assert (Hrange : 0 <= k < Z.of_nat (length (chain ctx)))
    by (apply lookup_lt_Some in Hc; lia).
  assert (Hrun : ftgc_hashindex_iter_remove_current ctx
                   (mk_iter (match link_next n' with
                             | Some _ => Some (k, S d)
                             | None => None
                             end) (Some (k, d)))
                 = Ok (set_chain ctx (<[Z.to_nat k := c']> (chain ctx)))).
  { unfold ftgc_hashindex_iter_remove_current, node_deref. cbn.
    assert (arr_get (chain ctx) k = Ok c) as -> by (by apply arr_get_Ok).
    cbn. rewrite Hn'. cbn. by rewrite arr_set_in_range. }
  exists k, d, c, c', (set_chain ctx (<[Z.to_nat k := c']> (chain ctx))).
  split; [done|]. split; [done|]. split; [done|].
  split; [by apply node_at_value|]. split; [done|]. split; [done|].
  split; [done|]. split; [apply link_values_set_node|].
  split.
  { apply wf_set_chain; [done|]. unfold c'.
    rewrite link_last_set_node by done. done. }
  split.
  { intros t Ht. apply iterate_spec; [done | done |].
    cbn. apply list_lookup_insert_eq. lia. }
  (* the iterator continues as before *)
  unfold ftgc_hashindex_iter_get_next. cbn [current_node prev_node].
  destruct (link_next n') as [nx|] eqn:Hnx; [|done].
  unfold node_deref. cbn [fst snd chain set_chain].
  assert (arr_get (chain ctx) k = Ok c) as -> by (by apply arr_get_Ok).
  assert (arr_get (<[Z.to_nat k := c']> (chain ctx)) k = Ok c') as ->
    by (by apply arr_get_set_eq).
  cbn [mbind result_bind]. unfold c'.
  rewrite node_at_set_node_after by lia.
  destruct (node_at c (S d)) as [n2|] eqn:Hn2; [|done].
  cbn [mbind result_bind].
  pose proof (skip_deleted_spec n2 (S d)) as Hs2.
  destruct (skip_deleted n2 (S d)) as [d2|]; [|done].
  destruct Hs2 as (_ & Hle2 & _).
  rewrite node_at_set_node_after by lia. done.
Qed.

End HashIndexRemoveCurrent.

Lemma first_entry_not_removable_witness :
  HashIndex.ftgc_hashindex_iter_remove_current HashIndex.index4
    (HashIndex.mk_iter (Some (1, 0%nat)) None) = Fault InvalidPointer.
Proof.
  apply (first_entry_not_removable HashIndex.index4
           (HashIndex.mk_iter None None) _ 1 (-1)).
  reflexivity.
Defined.

Lemma iter_remove_current_marks_witness :
  exists ctx',
    HashIndex.ftgc_hashindex_iter_remove_current
      (HashIndex.mk_hashindex [-1; 5; -1; -1]
         [HashIndex.Link_end (-1);
          HashIndex.Link 7 (HashIndex.Link 9 (HashIndex.Link_end (-1)));
          HashIndex.Link_end (-1); HashIndex.Link_end (-1)] 4 3)
      (HashIndex.mk_iter (Some (1, 1%nat)) (Some (1, 0%nat))) = Ok ctx' /\
    HashIndex.iterate ctx' 1 = Ok [5; 9].
Proof.
  destruct (iter_remove_current_marks
              (HashIndex.mk_hashindex [-1; 5; -1; -1]
                 [HashIndex.Link_end (-1);
                  HashIndex.Link 7 (HashIndex.Link 9 (HashIndex.Link_end (-1)));
                  HashIndex.Link_end (-1); HashIndex.Link_end (-1)] 4 3)
              (HashIndex.mk_iter (Some (1, 0%nat)) None)
              (HashIndex.mk_iter (Some (1, 1%nat)) (Some (1, 0%nat))) 7)
    as (key & d & c & c' & ctx' & _ & Hp & Hc & _ & Hrun & _ & _ & Hvals & _
        & Hit & _).
  - unfold HashIndex.hashindex_wf. vm_compute.
    repeat split; try discriminate. repeat constructor.
  - reflexivity.
  - discriminate.
  - exists ctx'. split; [exact Hrun|].
    inversion Hp; subst key d.
    vm_compute in Hc. inversion Hc; subst c.
    rewrite (Hit 5 eq_refl). unfold HashIndex.visited. rewrite Hvals.
    reflexivity.
Defined.

(** ** Variants: the setters and getters of the other types *)

Section VariantSetters.
Import Variant.

Lemma lo32_with_lo32 (w v : Z) : lo32 (with_lo32 w v) = v mod 2 ^ 32.
Proof.
  unfold lo32, with_lo32. rewrite Z.add_comm, Z.mod_add by lia.
  apply Z.mod_mod. lia.
Qed.

Lemma hi32_with_lo32 (w v : Z) : hi32 (with_lo32 w v) = hi32 w.
Proof.
  unfold hi32 at 1, with_lo32.
  rewrite Z.add_comm, Z.div_add by lia.
  rewrite (Z.div_small (v mod 2 ^ 32)) by (apply Z.mod_pos_bound; lia).
  cbn [Z.add]. unfold hi32. apply Z.mod_mod. lia.
Qed.

Lemma hi32_with_hi32 (w v : Z) : hi32 (with_hi32 w v) = v mod 2 ^ 32.
Proof.
  unfold hi32, with_hi32, lo32.
  rewrite Z.add_comm, Z.div_add by lia.
  rewrite (Z.div_small (w mod 2 ^ 32)) by (apply Z.mod_pos_bound; lia).
  cbn [Z.add]. apply Z.mod_mod. lia.
Qed.

Lemma lo32_with_hi32 (w v : Z) : lo32 (with_hi32 w v) = lo32 w.
Proof.
  unfold with_hi32, lo32 at 1. rewrite Z.add_comm, Z.mod_add by lia.
  unfold lo32. apply Z.mod_mod. lia.
Qed.

Lemma sint32_mod (v : Z) :
  - 2 ^ 31 <= v < 2 ^ 31 -> HashIndex.sint32 (v mod 2 ^ 32) = v.
Proof.
  intros Hv. unfold HashIndex.sint32.
  destruct (decide (0 <= v)) as [Hp|Hn].
  - rewrite (Z.mod_small v) by lia. rewrite Z.mod_small by lia. lia.
  - replace (v mod 2 ^ 32) with (v + 2 ^ 32).
    + replace (v + 2 ^ 32 + 2 ^ 31) with (v + 2 ^ 31 + 1 * 2 ^ 32) by lia.
      rewrite Z.mod_add by lia. rewrite Z.mod_small by lia. lia.
    + apply Z.mod_unique with (q := -1); lia.
Qed.

(** Every setter starts with [FTGC__VARIANT_CLEAR]. *)
Lemma clear_then (h : gmap Z (list ascii)) (ctx : ftgc_variant_s)
    {A} (k : gmap Z (list ascii) * ftgc_variant_s -> result A) :
  variant_wf h ctx ->
  (FTGC__VARIANT_CLEAR h ctx ≫= k)
  = k (released h ctx, mk_variant NULL NULL FTGC_VARTYPE_VOID).
Proof. intros Hwf. by rewrite variant_clear_spec. Qed.

(** X12: round trips of the scalar setters. On a valid variant each
    setter frees the string buffer the variant owned, sets the tag of its
    type and leaves a variant that owns nothing; the matching getter then
    returns the stored pointer, the [int] 0 or 1 for a boolean, the
    stored [ftgc_sint32], and for an [ftgc_uint32] the stored value
    converted to [int], which is negative from [2^31] on. *)
Theorem variant_scalar_round_trip (h : gmap Z (list ascii))
    (ctx : ftgc_variant_s) (p v : Z) :
  variant_wf h ctx ->
  (exists x, ftgc_variant_set_void_ptr h ctx p = Ok (released h ctx, x) /\
     field_type x = FTGC_VARTYPE_VOIDPTR /\ owned x = None /\
     ftgc_variant_get_void_ptr x = p) /\
  (exists x, ftgc_variant_set_bool h ctx v = Ok (released h ctx, x) /\
     field_type x = FTGC_VARTYPE_BOOL /\ owned x = None /\
     ftgc_variant_get_bool x = (if bool_decide (v = 0) then 0 else 1)) /\
  (- 2 ^ 31 <= v < 2 ^ 31 ->
   exists x, ftgc_variant_set_sint32 h ctx v = Ok (released h ctx, x) /\
     field_type x = FTGC_VARTYPE_SINT32 /\ owned x = None /\
     ftgc_variant_get_sint32 x = v) /\
  (0 <= v < 2 ^ 32 ->
   exists x, ftgc_variant_set_uint32 h ctx v = Ok (released h ctx, x) /\
     field_type x = FTGC_VARTYPE_UINT32 /\ owned x = None /\
     ftgc_variant_get_uint32 x = (if bool_decide (v < 2 ^ 31) then v
                                  else v - 2 ^ 32)).
Proof.
  intros Hwf.
  unfold ftgc_variant_set_void_ptr, ftgc_variant_set_bool,
    ftgc_variant_set_sint32, ftgc_variant_set_uint32.
  rewrite !clear_then by done.
  split; [|split; [|split]].
  - eexists. split; [reflexivity|]. done.
  - eexists. split; [reflexivity|]. split; [done|]. split; [done|].
    unfold ftgc_variant_get_bool, val_sint32, set_val_word. cbn.
    rewrite lo32_with_lo32. by do 2 case_bool_decide.
  - intros Hv. eexists. split; [reflexivity|]. split; [done|]. split; [done|].
    unfold ftgc_variant_get_sint32, val_sint32, set_val_word. cbn.
    rewrite lo32_with_lo32. by apply sint32_mod.
  - intros Hv. eexists. split; [reflexivity|]. split; [done|]. split; [done|].
    unfold ftgc_variant_get_uint32, val_uint32, set_val_word. cbn.
    rewrite lo32_with_lo32. rewrite Z.mod_small by lia.
    unfold HashIndex.sint32. case_bool_decide.
    + rewrite Z.mod_small by lia. lia.
    + replace (v + 2 ^ 31) with (v - 2 ^ 31 + 1 * 2 ^ 32) by lia.
      rewrite Z.mod_add by lia. rewrite Z.mod_small by lia. lia.
Qed.

(** X13: round trips of the float setters, floats being 32-bit patterns.
    [get_float] returns the stored float; after [set_vec3] the three
    floats behind the pointer [get_vec3] returns are the stored ones;
    after [set_vec2] they are the two stored ones followed by 0.0f. In
    each case the old string buffer is freed and the variant owns
    nothing, although bytes 8-11 of the union, which are also the low
    half of [internal_storage], now hold the third float. *)
Theorem variant_float_round_trip (h : gmap Z (list ascii))
    (ctx : ftgc_variant_s) (a b c : Z) :
  variant_wf h ctx ->
  0 <= a < 2 ^ 32 -> 0 <= b < 2 ^ 32 -> 0 <= c < 2 ^ 32 ->
  (exists x, ftgc_variant_set_float h ctx a = Ok (released h ctx, x) /\
     field_type x = FTGC_VARTYPE_FLOAT /\ owned x = None /\
     ftgc_variant_get_float x = a) /\
  (exists x, ftgc_variant_set_vec2 h ctx [a; b] = Ok (released h ctx, x) /\
     field_type x = FTGC_VARTYPE_VEC2 /\ owned x = None /\
     ftgc_variant_get_vec2 x = [a; b; 0]) /\
  (exists x, ftgc_variant_set_vec3 h ctx [a; b; c] = Ok (released h ctx, x) /\
     field_type x = FTGC_VARTYPE_VEC3 /\ owned x = None /\
     internal_storage x = c /\
     ftgc_variant_get_vec3 x = [a; b; c]) /\
  ftgc_variant_set_vec3 h ctx [a; b] = Fault OutOfBounds.
Proof.
  intros Hwf Ha Hb Hc.
  unfold ftgc_variant_set_float, ftgc_variant_set_vec2, ftgc_variant_set_vec3.
  rewrite !clear_then by done.
  split; [|split; [|split]].
  - eexists. split; [reflexivity|]. split; [done|]. split; [done|].
    unfold ftgc_variant_get_float. cbn.
    rewrite lo32_with_lo32. apply Z.mod_small. lia.
  - eexists. split; [reflexivity|]. split; [done|]. split; [done|].
    unfold ftgc_variant_get_vec2, val_float3. cbn [set_val_float3
      set_val_word external_storage internal_storage set_field_type].
    rewrite lo32_with_hi32, lo32_with_lo32, hi32_with_hi32.
    rewrite !Z.mod_small by lia. done.
  - eexists. split; [reflexivity|]. split; [done|]. split; [done|].
    cbn [set_val_float3 set_val_word external_storage internal_storage
         set_field_type field_type].
    split.
    { unfold with_lo32, hi32, NULL. rewrite (Z.mod_small c) by lia. done. }
    unfold ftgc_variant_get_vec3, val_float3. cbn [external_storage
      internal_storage].
    rewrite lo32_with_hi32, !lo32_with_lo32, hi32_with_hi32.
    rewrite !Z.mod_small by lia. done.
  - done.
Qed.

(** X14: [ftgc_variant_set_from_variant] copies deeply only what
    [other] owns. If [other] owns a string buffer the receiver gets a
    buffer of its own with the same string, so that each variant can be
    freed; if that allocation fails nothing is reported and the receiver
    is left tagged STRING with no string at all. In every other case,
    borrowed strings included, the receiver becomes a bytewise copy of
    [other]. The buffer the receiver owned before is freed first. *)
Theorem set_from_variant_copies (h : gmap Z (list ascii))
    (ctx other : ftgc_variant_s) (a : ptr) :
  variant_wf h ctx -> variant_wf h other ->
  (forall p, owned ctx = Some p -> owned other <> Some p) ->
  (forall p s, owned other = Some p -> h !! p = Some s ->
     a <> NULL -> released h ctx !! a = None ->
     exists h' x,
       ftgc_variant_set_from_variant a h ctx other = Ok (h', x) /\
       field_type x = FTGC_VARTYPE_STRING /\
       owned x = Some a /\ a <> p /\
       ftgc_variant_get_string x = a /\
       c_str <$> h' !! a = Some (c_str s) /\
       h' !! p = Some s) /\
  (forall p, owned other = Some p ->
     ftgc_variant_set_from_variant NULL h ctx other
     = Ok (released h ctx, mk_variant NULL NULL FTGC_VARTYPE_STRING)) /\
  (owned other = None ->
     ftgc_variant_set_from_variant a h ctx other = Ok (released h ctx, other)).
Proof.
  intros Hwf Hwfo Hdis.
  unfold ftgc_variant_set_from_variant.
  rewrite !clear_then by done. unfold set_field_type.
  cbn [external_storage internal_storage field_type].
  assert (Hcond : forall p, owned other = Some p ->
            bool_decide (field_type other = FTGC_VARTYPE_STRING) &&
            negb (bool_decide (internal_storage other = NULL)) = true /\
            internal_storage other = p /\
            field_type other = FTGC_VARTYPE_STRING).
  { intros p Hp. apply owned_Some in Hp as (Ht & Hi & Hn).
    rewrite bool_decide_eq_true_2 by done.
    rewrite bool_decide_eq_false_2 by congruence. done. }
  assert (Hkeep : forall p, owned other = Some p ->
            released h ctx !! p = h !! p).
  { intros p Hp. unfold released. destruct (owned ctx) as [q|] eqn:Hq; [|done].
    apply lookup_delete_ne. intros ->. by apply (Hdis p). }
  assert (Hfresh : variant_wf (released h ctx)
                     (mk_variant NULL NULL FTGC_VARTYPE_STRING)).
  { intros q Hq. by apply owned_Some in Hq as (_ & <- & ?). }
  split; [|split].
  - intros p s Hp Hs Ha Hfree.
    destruct (Hcond p Hp) as (-> & Hi & Ht). rewrite Hi, Ht.
    assert (Hne : a <> p).
    { intros ->. rewrite (Hkeep p Hp) in Hfree. congruence. }
    rewrite (variant_set_string_ok _ _ p a s); try done.
    + cbn [mbind result_bind].
      change (released (released h ctx)
                (mk_variant NULL NULL FTGC_VARTYPE_STRING))
        with (released h ctx).
      eexists _, _. split; [reflexivity|].
      split; [done|]. split; [by apply owned_Some|]. split; [done|].
      split.
      { unfold ftgc_variant_get_string. cbn. done. }
      split.
      * rewrite lookup_insert_eq. cbn. by rewrite c_str_terminated.
      * rewrite lookup_insert_ne by done. by rewrite (Hkeep p Hp).
    + by rewrite (Hkeep p Hp).
  - intros p Hp. destruct (Hcond p Hp) as (-> & Hi & Ht). rewrite Hi, Ht.
    destruct (Hwfo p Hp) as [s Hs].
    unfold ftgc_variant_set_string.
    rewrite clear_then by done. cbn.
    change (released (released h ctx)
              (mk_variant NULL NULL FTGC_VARTYPE_STRING))
      with (released h ctx).
    unfold heap_read. rewrite (Hkeep p Hp), Hs. done.
  - intros Hnone. unfold owned in Hnone.
    destruct (bool_decide (field_type other = FTGC_VARTYPE_STRING) &&
              negb (bool_decide (internal_storage other = NULL))); done.
Qed.

(** X15: [ftgc_variant_free] releases exactly the buffer the variant
    owns and leaves the variant VOID, so a second free of the same
    variant is harmless; a free through a stale copy of the variant that
    still names the buffer is a double free. *)
Theorem variant_free_releases (h : gmap Z (list ascii)) (ctx : ftgc_variant_s) :
  variant_wf h ctx ->
  exists x,
    ftgc_variant_free h ctx = Ok (released h ctx, x) /\
    field_type x = FTGC_VARTYPE_VOID /\ owned x = None /\
    ftgc_variant_free (released h ctx) x = Ok (released h ctx, x) /\
    (forall p, owned ctx = Some p ->
       released h ctx !! p = None /\
       ftgc_variant_free (released h ctx) ctx = Fault InvalidPointer) /\
    (forall q, owned ctx <> Some q -> released h ctx !! q = h !! q).
Proof.
  intros Hwf. exists (mk_variant NULL NULL FTGC_VARTYPE_VOID).
  assert (Hfree : ftgc_variant_free h ctx
                  = Ok (released h ctx, mk_variant NULL NULL FTGC_VARTYPE_VOID)).
  { pose proof (variant_clear_spec h ctx Hwf) as Hc.
    unfold FTGC__VARIANT_CLEAR in Hc. unfold ftgc_variant_free.
    destruct (if bool_decide (field_type ctx = FTGC_VARTYPE_STRING) &&
                 negb (bool_decide (internal_storage ctx = NULL))
              then FTGC_FREE h (internal_storage ctx) else Ok h) as [h'|];
      [|done].
    cbn in *. inversion Hc; subst. done. }
  split; [done|]. split; [done|]. split; [done|]. split; [done|]. split.
  - intros p Hp. unfold released. rewrite Hp.
    split; [apply lookup_delete_eq|].
    apply owned_Some in Hp as (Ht & Hi & Hn).
    unfold ftgc_variant_free.
    rewrite bool_decide_eq_true_2 by done.
    rewrite bool_decide_eq_false_2 by congruence. cbn.
    unfold FTGC_FREE. rewrite bool_decide_eq_false_2 by congruence.
    rewrite Hi, lookup_delete_eq. done.
  - intros q Hq. unfold released. destruct (owned ctx) as [p|]; [|done].
    apply lookup_delete_ne. congruence.
Qed.

End VariantSetters.

Lemma variant_old_wf : Variant.variant_wf Variant.heap_hello Variant.variant_old.
Proof. intros p Hp. vm_compute in Hp. inversion Hp; subst. vm_compute. eauto. Qed.

Lemma variant_scalar_round_trip_witness :
  exists x,
    Variant.ftgc_variant_set_uint32 Variant.heap_hello Variant.variant_old
      4294967295
    = Ok (Variant.released Variant.heap_hello Variant.variant_old, x) /\
    Variant.ftgc_variant_get_uint32 x = -1.
Proof.
  destruct (variant_scalar_round_trip Variant.heap_hello Variant.variant_old
              0 4294967295 variant_old_wf) as (_ & _ & _ & H).
  destruct H as (x & H1 & _ & _ & H2); [lia|].
  exists x. split; [exact H1 | exact H2].
Defined.

Lemma variant_float_round_trip_witness :
  exists x,
    Variant.ftgc_variant_set_vec2 Variant.heap_hello Variant.variant_old
      [1065353216; 1073741824]
    = Ok (Variant.released Variant.heap_hello Variant.variant_old, x) /\
    Variant.ftgc_variant_get_vec2 x = [1065353216; 1073741824; 0].
Proof.
  destruct (variant_float_round_trip Variant.heap_hello Variant.variant_old
              1065353216 1073741824 0 variant_old_wf)
    as (_ & (x & H1 & _ & _ & H2) & _); [lia | lia | lia |].
  exists x. split; [exact H1 | exact H2].
Defined.

Lemma set_from_variant_copies_witness :
  exists h' x,
    Variant.ftgc_variant_set_from_variant 300 Variant.heap_hello
      (Variant.mk_variant NULL NULL Variant.FTGC_VARTYPE_VOID)
      Variant.variant_old = Ok (h', x) /\
    Variant.owned x = Some 300 /\
    c_str <$> h' !! 300 = Some (list_ascii_of_string "old").
Proof.
  destruct (set_from_variant_copies Variant.heap_hello
              (Variant.mk_variant NULL NULL Variant.FTGC_VARTYPE_VOID)
              Variant.variant_old 300) as (H & _).
  - intros p Hp. vm_compute in Hp. discriminate.
  - exact variant_old_wf.
  - intros p Hp. vm_compute in Hp. discriminate.
  - destruct (H 200 (list_ascii_of_string "old" ++ [NUL]))
      as (h' & x & H1 & _ & H2 & _ & _ & H3 & _).
    + reflexivity.
    + reflexivity.
    + discriminate.
    + reflexivity.
    + exists h', x. split; [exact H1|]. split; [exact H2 | exact H3].
Defined.

Lemma variant_free_releases_witness :
  exists x,
    Variant.ftgc_variant_free Variant.heap_hello Variant.variant_old
    = Ok (Variant.released Variant.heap_hello Variant.variant_old, x) /\
    Variant.owned x = None.
Proof.
  destruct (variant_free_releases Variant.heap_hello Variant.variant_old
              variant_old_wf) as (x & H1 & _ & H2 & _).
  exists x. split; [exact H1 | exact H2].
Defined.

(** ** Dictionaries: key comparison *)

Section DictKeys.
Import HashIndex Variant Dict.

Lemma map_fold_nil (l : list ascii) : map fold_case l = [] <-> l = [].
Proof. destruct l; cbn; split; done. Qed.

Lemma c_str_cons (c : ascii) (l : list ascii) :
  c <> NUL -> c_str (c :: l) = c :: c_str l.
Proof. intros Hc. cbn. apply is_nul_false in Hc. by rewrite Hc. Qed.

Lemma c_str_nul_head (l : list ascii) : c_str (NUL :: l) = [].
Proof. done. Qed.

Lemma keycmp_folds (mem s : list ascii) :
  NUL ∈ mem ->
  exists r,
    ftgc__keycmp s mem = Ok r /\
    (r = 0 <-> map fold_case (c_str s) = map fold_case (c_str mem)).
Proof.
  revert s. induction mem as [|c2 r2 IH]; intros s Hnul.
  { by apply elem_of_nil in Hnul. }
  cbn [ftgc__keycmp].
  set (c1 := match s with [] => NUL | c :: _ => c end).
  fold (fold_case c1). fold (fold_case c2).
  destruct (is_nul c1) eqn:E1.
  - (* the key ends here *)
    apply is_nul_true in E1.
    assert (Hs : c_str s = []).
    { destruct s as [|c s]; [done|]. cbn in c1. subst c1. by subst c. }
    eexists. split; [reflexivity|]. rewrite Hs. cbn [map].
    rewrite E1. replace (fold_case NUL) with 0 by done.
    split.
    + intros H0. assert (fold_case c2 = 0) as Hc2 by lia.
      apply tolower_signed_nul in Hc2. by subst c2.
    + intros Hm. symmetry in Hm. apply map_fold_nil in Hm.
      destruct (decide (c2 = NUL)) as [->|Hne]; [done|].
      by rewrite c_str_cons in Hm.
  - apply is_nul_false in E1.
    destruct s as [|c s]; [done|]. cbn in c1. subst c1.
    rewrite (c_str_cons c s) by done. cbn [map].
    case_bool_decide as Er.
    + (* the characters differ *)
      eexists. split; [reflexivity|]. split; [done|].
      destruct (decide (c2 = NUL)) as [->|Hne]; [done|].
      rewrite c_str_cons by done. cbn [map]. intros [= Hh _]. lia.
    + assert (fold_case c = fold_case c2) as Heq by lia.
      assert (c2 <> NUL) as Hne.
      { intros ->. assert (fold_case c = 0) as H0 by (by rewrite Heq).
        by apply tolower_signed_nul in H0. }
      cbn [tail].
      assert (NUL ∈ r2) as Hr2.
      { apply elem_of_cons in Hnul as [?|?]; [congruence | done]. }
      destruct (IH s Hr2) as (r & Hrun & Hiff).
      exists r. split; [done|].
      rewrite (c_str_cons c2 r2) by done. cbn [map].
      rewrite Hiff, Heq. split; [by intros -> | by intros [= ->]].
Qed.

(** X16: [ftgc__keycmp], compiled without [FTGC_DICT_CASE_SENSITIVE], is
    equality up to ASCII case. Against memory that holds a terminated
    string it returns 0 exactly when the key and the stored string have
    the same length and agree character by character after [tolower];
    in particular letters that differ only in case are equal, and a key
    never equals a proper prefix of itself. *)
Theorem keycmp_is_case_insensitive_equality (s mem : list ascii) :
  NUL ∈ mem ->
  exists r,
    ftgc__keycmp s mem = Ok r /\
    (r = 0 <-> map fold_case (c_str s) = map fold_case (c_str mem)) /\
    (r = 0 -> strlen s = strlen mem).
Proof.
  intros Hnul. destruct (keycmp_folds mem s Hnul) as (r & Hrun & Hiff).
  exists r. split; [done|]. split; [done|].
  intros H0. apply Hiff in H0. unfold strlen.
  by rewrite <- (length_map fold_case (c_str s)), H0, length_map.
Qed.

End DictKeys.

Lemma keycmp_is_case_insensitive_equality_witness :
  Dict.ftgc__keycmp (list_ascii_of_string "Key")
    (list_ascii_of_string "kEY" ++ [NUL; "x"%char]) = Ok 0.
Proof.
  destruct (keycmp_is_case_insensitive_equality (list_ascii_of_string "Key")
              (list_ascii_of_string "kEY" ++ [NUL; "x"%char]))
    as (r & H1 & H2 & _).
  - apply list_elem_of_In. cbn. right. right. right. left. reflexivity.
  - rewrite H1. f_equal. apply H2. vm_compute. reflexivity.
Defined.

(** ** Dictionaries: initialisation *)

Section DictInit.
Import HashIndex Variant Dict.

Lemma find_in_unused_slot (d : ftgc_dict_s) (key : list ascii)
    (c : ftgc__hashlink_s) :
  let hash := ftgc_hashindex_generate_key_string (hash_index d) key in
  0 <= hash ->
  table (hash_index d) !! Z.to_nat hash = Some FTGC_HASHINDEX_UNUSED ->
  chain (hash_index d) !! Z.to_nat hash = Some c ->
  ftgc__dict_find_index_for_key d key = Ok FTGC_HASHINDEX_UNUSED.
Proof.
  intros hash Hh Ht Hc.
  rewrite (find_index_spec d key _ c Hh Ht Hc). done.
Qed.

(** The dictionary a successful [ftgc_dict_init] builds, given the
    content [ks] of its key block. *)
Lemma init_dict_shape (h : gmap Z (list ascii)) (ks : list ascii)
    (size n : Z) :
  1 <= size <= 2 ^ 30 -> 1 <= n <= 2 ^ 30 ->
  Z.of_nat (length ks) = FTGC_DICT_KEY_BYTES * size ->
  let d := mk_dict size 0 ks
             (replicate (Z.to_nat size) (mk_variant NULL NULL FTGC_VARTYPE_VOID))
             (mk_hashindex (replicate (Z.to_nat n) FTGC_HASHINDEX_UNUSED)
                (replicate (Z.to_nat n) (Link_end FTGC_HASHINDEX_UNUSED))
                n (n - 1)) in
  dict_wf h d /\
  forall key, ftgc__dict_find_index_for_key d key = Ok FTGC_HASHINDEX_UNUSED.
Proof.
  intros Hs Hn Hks d. split.
  - unfold dict_wf, dict_wf_except, d. cbn [hash_index dict_size num_pairs
      keys values table chain table_size hash_mask].
    split.
    { unfold hashindex_wf. cbn. rewrite !length_replicate.
      split; [lia|]. split; [lia|]. split; [lia|]. by apply Forall_replicate. }
    split; [lia|]. split; [done|]. split; [lia|]. split; [done|].
    split; [rewrite length_replicate; lia|].
    split; [intros i Hi; lia|].
    split.
    { split; apply Forall_replicate; [by left | by cbn]. }
    split.
    + intros i v p Hi Ho. apply lookup_replicate in Hi as [-> _]. done.
    + intros i j v w p Hi _ Ho. apply lookup_replicate in Hi as [-> _]. done.
  - intros key.
    pose proof (generate_key_range (hash_index d) key) as Hr.
    cbn [hash_index d table_size hash_mask] in Hr.
    specialize (Hr ltac:(lia) eq_refl).
    apply (find_in_unused_slot d key (Link_end FTGC_HASHINDEX_UNUSED)).
    + cbn. lia.
    + cbn [hash_index d table]. apply lookup_replicate_2. cbn in *. lia.
    + cbn [hash_index d chain]. apply lookup_replicate_2. cbn in *. lia.
Qed.

(** X17: [ftgc_dict_init(&d, size, hash_size)] with [1 <= size <= 2^30],
    every allocation succeeding, builds a dictionary that satisfies the
    dictionary invariant on any heap, holds no pair, has [size] slots
    whose variants are all VOID, and answers every lookup with the
    fallback string. Its hash index has [2 ^ ceil(log2 size)] slots
    whatever [hash_size] is: the parameter has no effect. *)
Theorem dict_init_empty (h : gmap Z (list ascii)) (jk : nat -> ascii)
    (jv : nat -> ftgc_variant_s) (size hash_size : Z) :
  1 <= size <= 2 ^ 30 ->
  exists d,
    ftgc_dict_init true true (Some jk) (Some jv) size hash_size = Ok d /\
    dict_wf h d /\
    num_pairs d = 0 /\ dict_size d = size /\
    table_size (hash_index d) = 2 ^ Z.log2_up size /\
    values d = replicate (Z.to_nat size) (mk_variant NULL NULL FTGC_VARTYPE_VOID) /\
    (forall key fallback, ftgc_dict_get_string d key fallback = Ok fallback).
Proof.
  intros Hs. destruct (init_index_ok size Hs) as (n & Hn & Hlog & Hinit).
  unfold ftgc_dict_init. rewrite Hinit. cbn [snd].
  destruct (realloc_grow_app (@nil ascii)
              (Z.to_nat (FTGC_DICT_KEY_BYTES * size)) jk) as [_ Hlk];
    [cbn; lia|].
  destruct (realloc_grow_app (@nil ftgc_variant_s) (Z.to_nat size) jv)
    as [_ Hlv]; [cbn; lia|].
  rewrite (init_values_spec (Z.to_nat size) _ 0) by lia.
  cbn [take app]. rewrite drop_ge by lia. rewrite app_nil_r.
  cbn [mbind result_bind].
  destruct (init_dict_shape h
              (realloc_grow [] (Z.to_nat (FTGC_DICT_KEY_BYTES * size)) jk)
              size n Hs Hn) as [Hwf Hfind].
  { rewrite Hlk. unfold FTGC_DICT_KEY_BYTES. lia. }
  eexists. split; [reflexivity|]. split; [exact Hwf|].
  split; [done|]. split; [done|]. split; [done|]. split; [done|].
  intros key fallback. apply get_string_missing. apply Hfind.
Qed.

Lemma set_key_null_block (src : list ascii) (dst : Z) (n : nat) :
  set_key_loop src [] dst n = Fault OutOfBounds.
Proof.
  assert (Hset : forall c, arr_set (@nil ascii) dst c = Fault OutOfBounds).
  { intros c. apply arr_set_out_of_range. cbn. lia. }
  destruct n as [|n], src as [|c rest]; cbn; rewrite ?Hset; try done.
  by destruct (is_nul c).
Qed.

(** X18: [ftgc_dict_init] returns nothing and checks none of its
    allocations. If the value block cannot be allocated, the
    initialisation loop itself writes through the NULL block. If only the
    key block cannot be allocated, the dictionary is built, lookups
    answer with the fallback, and the first [ftgc_dict_set_string] writes
    the key through the NULL block. If the hash index cannot be
    allocated, every lookup and every store indexes a table that is not
    there. *)
Theorem dict_init_unchecked_allocations (jk : nat -> ascii)
    (jv : nat -> ftgc_variant_s) (size hash_size : Z) :
  1 <= size <= 2 ^ 30 ->
  (forall table_ok chain_ok malloc_keys,
     ftgc_dict_init table_ok chain_ok malloc_keys None size hash_size
     = Fault OutOfBounds) /\
  (exists d,
     ftgc_dict_init true true None (Some jv) size hash_size = Ok d /\
     (forall key fallback, ftgc_dict_get_string d key fallback = Ok fallback) /\
     (forall al h key value,
        ftgc_dict_set_string al h d key value = Fault OutOfBounds)) /\
  (forall table_ok chain_ok,
     table_ok = false \/ chain_ok = false ->
     exists d,
       ftgc_dict_init table_ok chain_ok (Some jk) (Some jv) size hash_size
         = Ok d /\
       (forall key fallback,
          ftgc_dict_get_string d key fallback = Fault OutOfBounds) /\
       (forall al h key value,
          ftgc_dict_set_string al h d key value = Fault OutOfBounds)).
Proof.
  intros Hs.
  destruct (realloc_grow_app (@nil ftgc_variant_s) (Z.to_nat size) jv)
    as [_ Hlv]; [cbn; lia|].
  split; [|split].
  - intros table_ok chain_ok malloc_keys. unfold ftgc_dict_init.
    destruct (Z.to_nat size) as [|m] eqn:Hm; [lia|]. done.
  - destruct (init_index_ok size Hs) as (n & Hn & Hlog & Hinit).
    unfold ftgc_dict_init. rewrite Hinit. cbn [snd].
    rewrite (init_values_spec (Z.to_nat size) _ 0) by lia.
    cbn [take app]. rewrite drop_ge by lia. rewrite app_nil_r.
    cbn [mbind result_bind].
    eexists. split; [reflexivity|].
    set (d := mk_dict size 0 [] _ _).
    assert (Hfind : forall key,
              ftgc__dict_find_index_for_key d key = Ok FTGC_HASHINDEX_UNUSED).
    { intros key.
      pose proof (generate_key_range (hash_index d) key) as Hr.
      cbn [hash_index d table_size hash_mask] in Hr.
      specialize (Hr ltac:(lia) eq_refl).
      apply (find_in_unused_slot d key (Link_end FTGC_HASHINDEX_UNUSED)).
      + cbn. lia.
      + cbn [hash_index d table]. apply lookup_replicate_2. cbn in *. lia.
      + cbn [hash_index d chain]. apply lookup_replicate_2. cbn in *. lia. }
    split.
    + intros key fallback. apply get_string_missing. apply Hfind.
    + intros al h key value.
      unfold ftgc_dict_set_string, dict_select_slot. rewrite Hfind.
      cbn [mbind result_bind].
      rewrite (bool_decide_eq_true_2 (FTGC_HASHINDEX_UNUSED = _)) by done.
      cbn [num_pairs dict_size d].
      rewrite (bool_decide_eq_false_2 (0 = size)) by lia.
      cbn [mbind result_bind].
      rewrite (bool_decide_eq_false_2 (1 = 0)) by done.
      unfold ftgc__dict_find_empty_slot. cbn [num_pairs dict_size keys d].
      change (Z.to_nat 0) with 0%nat.
      cbn [find_empty_loop mbind result_bind].
      unfold dict_store.
      rewrite (key_offset_ok 0) by (unfold FTGC_DICT_KEY_BYTES; lia).
      cbn [mbind result_bind].
      unfold ftgc__dict_set_key. cbn [keys].
      by rewrite set_key_null_block.
  - intros table_ok chain_ok Hfail.
    destruct (init_index_ok size Hs) as (n & Hn & Hlog & Hinit).
    assert (Hhi : exists ts m,
              (ftgc_hashindex_init table_ok chain_ok size).2
              = mk_hashindex [] [] ts m).
    { unfold ftgc_hashindex_init.
      destruct Hfail as [-> | ->]; [|destruct table_ok]; cbn; eauto. }
    destruct Hhi as (ts & m & Hhi).
    unfold ftgc_dict_init. rewrite Hhi.
    rewrite (init_values_spec (Z.to_nat size) _ 0) by lia.
    cbn [mbind result_bind].
    eexists. split; [reflexivity|].
    assert (Hfind : forall ks vs key,
              ftgc__dict_find_index_for_key
                (mk_dict size 0 ks vs (mk_hashindex [] [] ts m)) key
              = Fault OutOfBounds).
    { intros ks vs key. unfold ftgc__dict_find_index_for_key,
        ftgc_hashindex_iter_get_first. cbn [hash_index table].
      unfold arr_get. case_bool_decide; [by rewrite lookup_nil | done]. }
    split.
    + intros key fallback. unfold ftgc_dict_get_string. by rewrite Hfind.
    + intros al h key value.
      unfold ftgc_dict_set_string, dict_select_slot. by rewrite Hfind.
Qed.

End DictInit.

Lemma dict_init_unchecked_allocations_witness :
  Dict.ftgc_dict_init true true (Some (fun _ => "x"%char)) None 4 4
  = Fault OutOfBounds.
Proof.
  destruct (dict_init_unchecked_allocations (fun _ => "x"%char)
              (fun _ => Dict.junk_variant) 4 4) as (H & _).
  - lia.
  - apply H.
Defined.

Lemma dict_init_empty_witness :
  exists d,
    Dict.ftgc_dict_init true true (Some (fun _ => "x"%char))
      (Some (fun _ => Dict.junk_variant)) 128 32 = Ok d /\
    HashIndex.table_size (Dict.hash_index d) = 128 /\
    Dict.ftgc_dict_get_string d (list_ascii_of_string "mr.key") 77 = Ok 77.
Proof.
  destruct (dict_init_empty ∅ (fun _ => "x"%char)
              (fun _ => Dict.junk_variant) 128 32)
    as (d & H1 & _ & _ & _ & H2 & _ & H3).
  - lia.
  - exists d. split; [exact H1|]. split; [rewrite H2; reflexivity | apply H3].
Defined.

(** ** Dictionaries: updates *)

Section DictUpdates.
Import HashIndex Variant Dict.

(** What a successful lookup tells about the dictionary. *)
Lemma find_hit_facts (h : gmap Z (list ascii)) (d : ftgc_dict_s)
    (key : list ascii) (idx : Z) :
  let hash := ftgc_hashindex_generate_key_string (hash_index d) key in
  dict_wf h d ->
  ftgc__dict_find_index_for_key d key = Ok idx ->
  idx <> FTGC_HASHINDEX_UNUSED ->
  exists t c,
    0 <= hash < table_size (hash_index d) /\
    table (hash_index d) !! Z.to_nat hash = Some t /\
    chain (hash_index d) !! Z.to_nat hash = Some c /\
    t <> FTGC_HASHINDEX_UNUSED /\
    0 <= idx < num_pairs d /\
    idx ∈ bucket_of t c /\
    first_match d key (bucket_of t c) = Ok idx /\
    keycmp_slot d key idx = Ok 0 /\
    (strlen key <= 8)%nat.
Proof.
  intros hash Hwf Hfind Hne.
  pose proof Hwf as (Hhi & Hts & Hm & Hnp & Hlk & Hlv & Hlive & Hent & Hown).
  pose proof (generate_key_range (hash_index d) key Hts Hm) as Hh.
  fold hash in Hh.
  destruct (bucket_shape None h d hash Hwf Hh)
    as (t & c & Ht & Hc & Hlast & Htb & Hcb & _).
  pose proof (bucket_below _ _ _ Htb Hcb) as Hbb.
  destruct (find_on_bucket h d key t c Hwf Ht Hc) as [Hfb Hall].
  rewrite Hfind in Hfb. symmetry in Hfb.
  destruct (first_match_live d key _ Hall) as (r & Hfm & Hcase).
  rewrite Hfb in Hfm. inversion Hfm; subst r.
  destruct Hcase as [[Hu _] | (Hi0 & Hin & Hk0)]; [done|].
  exists t, c. split; [done|]. split; [done|]. split; [done|].
  split.
  { intros ->. unfold bucket_of in Hin.
    rewrite bool_decide_eq_true_2 in Hin by done. by apply elem_of_nil in Hin. }
  split. { rewrite Forall_forall in Hbb. by apply Hbb. }
  split; [done|]. split; [done|]. split; [done|].
  destruct (decide (strlen key <= 8)%nat) as [|Hlong]; [done|].
  rewrite (find_long h d key Hwf) in Hfind by lia. by inversion Hfind.
Qed.


(** X20: on a dictionary that satisfies its invariant (so that the key
    buffer of every slot in use starts at an offset an [int] holds),
    when the arrays are full and the lookup does not find the key, a
    failed growth makes [ftgc_dict_set_string] return 0 with the heap
    untouched. If the key block could not be grown, or was grown where it
    lay, the dictionary is unchanged. If the key block was grown and
    moved before the growth of the value block failed, the dictionary
    keeps the address of the block that no longer exists: the lookup of
    every key that was present now reads freed memory. *)
Theorem set_string_growth_failure (al : dict_allocs)
    (h : gmap Z (list ascii)) (d : ftgc_dict_s) (key : list ascii)
    (value : ptr) :
  dict_wf h d ->
  num_pairs d = dict_size d ->
  ftgc__dict_find_index_for_key d key = Ok FTGC_HASHINDEX_UNUSED ->
  (realloc_keys al = None \/
   (realloc_values al = None /\ keys_moved al = false) ->
   ftgc_dict_set_string al h d key value = Ok (0, h, d)) /\
  (realloc_keys al <> None -> realloc_values al = None ->
   keys_moved al = true ->
   exists d0,
     ftgc_dict_set_string al h d key value = Ok (0, h, d0) /\
     values d0 = values d /\ hash_index d0 = hash_index d /\
     num_pairs d0 = num_pairs d /\
     forall k2 idx fallback,
       ftgc__dict_find_index_for_key d k2 = Ok idx ->
       idx <> FTGC_HASHINDEX_UNUSED ->
       ftgc_dict_get_string d0 k2 fallback = Fault OutOfBounds).
Proof.
  intros Hwf Hfull Hfind.
  assert (Hsel : dict_select_slot al d key
            = (r ← ftgc__dict_reallocate al d
                     (sint32 (dict_size d + FTGC_DICT_KEY_BYTES));
               if bool_decide (r.1 = 0) then Ok (None, r.2)
               else '(target, ctx) ← ftgc__dict_find_empty_slot r.2;
                    Ok (Some target, ctx))).
  { unfold dict_select_slot. rewrite Hfind. cbn [mbind result_bind].
    rewrite !bool_decide_eq_true_2 by done.
    destruct (ftgc__dict_reallocate al d _) as [[r0 d0]|]; done. }
  unfold ftgc_dict_set_string. rewrite Hsel. unfold ftgc__dict_reallocate.
  split.
  - intros [Hk | [Hv Hm]].
    + by rewrite Hk.
    + destruct (realloc_keys al); [|done]. by rewrite Hv, Hm.
  - intros Hk Hv Hm. destruct (realloc_keys al) as [jk|]; [|done].
    rewrite Hv, Hm. cbn.
    eexists. split; [reflexivity|]. cbn.
    split; [done|]. split; [done|]. split; [done|].
    intros k2 idx fallback Hf2 Hne.
    destruct (find_hit_facts h d k2 idx Hwf Hf2 Hne)
      as (t & c & Hh & Ht & Hc & Htu & Hidx & Hin & Hfm & Hk0 & Hshort).
    destruct (bucket_shape None h d _ Hwf Hh)
      as (t0 & c0 & Ht0 & Hc0 & _ & Htb & _ & Hvis).
    rewrite Ht in Ht0. rewrite Hc in Hc0.
    inversion Ht0; inversion Hc0; subst t0 c0.
    unfold ftgc_dict_get_string.
    rewrite (find_index_spec _ k2 t c); [|cbn; lia | done | done].
    rewrite Hvis. unfold bucket_of.
    rewrite bool_decide_eq_false_2 by done. cbn [first_match].
    assert (0 <= t) by (destruct Htb; [done | lia]).
    rewrite bool_decide_eq_false_2 by (unfold FTGC_HASHINDEX_DELETED; lia).
    assert (Hoff : t * FTGC_DICT_KEY_BYTES < 2 ^ 31).
    { destruct Hwf as (_ & _ & _ & _ & _ & _ & Hlive & _).
      destruct Htb as [|Htb]; [done|].
      by destruct (Hlive t Htb ltac:(done)) as [Hoff _]. }
    unfold keycmp_slot. rewrite (key_offset_ok t) by done.
    cbn [mbind result_bind keys].
    rewrite bool_decide_eq_true_2 by (unfold FTGC_DICT_KEY_BYTES; lia).
    rewrite drop_nil. done.
Qed.

End DictUpdates.

(** ** Dictionaries: a store leaves the other keys alone *)

Section DictFrame.
Import HashIndex Variant Dict.

Lemma first_match_snoc_miss (d : ftgc_dict_s) (key : list ascii) (l : list Z)
    (t x : Z) :
  keycmp_slot d key t = Ok x -> x <> 0 ->
  first_match d key (l ++ [t]) = first_match d key l.
Proof.
  intros Ht Hx. induction l as [|e l IH]; cbn.
  - case_bool_decide; [done|]. rewrite Ht. cbn.
    by rewrite bool_decide_eq_false_2.
  - case_bool_decide; [done|].
    destruct (keycmp_slot d key e) as [r|]; [|done]. cbn.
    by case_bool_decide.
Qed.

Lemma first_match_congr (d d' : ftgc_dict_s) (key : list ascii) (l : list Z) :
  Forall (fun e =>
            keycmp_slot d' key e = keycmp_slot d key e \/
            exists x y, keycmp_slot d' key e = Ok x /\ x <> 0 /\
                        keycmp_slot d key e = Ok y /\ y <> 0) l ->
  first_match d' key l = first_match d key l.
Proof.
  induction 1 as [|e l He _ IH]; cbn; [done|].
  case_bool_decide; [done|].
  destruct He as [-> | (x & y & -> & Hx & -> & Hy)].
  - destruct (keycmp_slot d key e) as [r|]; [|done]. cbn.
    by case_bool_decide.
  - cbn. by rewrite !bool_decide_eq_false_2.
Qed.

(** How [add_key] changes the buckets of an index whose table holds no
    tombstone. *)
Lemma add_key_buckets (ok : bool) (hi hi' : ftgc_hashindex_s)
    (hash1 target r : Z) :
  hashindex_wf hi -> chains_follow_table hi ->
  Forall (fun t => t = FTGC_HASHINDEX_UNUSED \/ 0 <= t) (table hi) ->
  0 <= hash1 < table_size hi -> 0 <= target ->
  ftgc_hashindex_add_key ok hi hash1 target = Ok (r, hi') -> r <> -1 ->
  chains_follow_table hi' /\
  forall k t2 c2,
    table hi !! k = Some t2 -> chain hi !! k = Some c2 ->
    exists t2' c2',
      table hi' !! k = Some t2' /\ chain hi' !! k = Some c2' /\
      (bucket_of t2' c2' = bucket_of t2 c2 \/
       bucket_of t2' c2' = bucket_of t2 c2 ++ [target]).
Proof.
  intros Hwf Hfol Htab Hh Htg Hadd Hr.
  destruct (wf_slot hi hash1 Hwf Hh) as (t & c & Ht & Hc & Hlast).
  assert (Htv : t = FTGC_HASHINDEX_UNUSED \/ 0 <= t).
  { rewrite Forall_lookup in Htab. exact (Htab _ _ Ht). }
  assert (Hnu : target <> FTGC_HASHINDEX_UNUSED)
    by (unfold FTGC_HASHINDEX_UNUSED; lia).
  destruct (decide (t = FTGC_HASHINDEX_UNUSED)) as [Etu|Etu].
  - (* the table entry was free *)
    rewrite (add_key_empty hi hash1 target t) in Hadd by (lia || auto).
    inversion Hadd; subst r hi'. clear Hadd.
    pose proof (Hfol _ _ _ Ht Hc Etu) as Hst.
    split.
    + intros k t2 c2 Ht2 Hc2 Eu. cbn in Ht2, Hc2.
      destruct (decide (k = Z.to_nat hash1)) as [->|Hk].
      * rewrite list_lookup_insert_eq in Ht2 by (by apply lookup_lt_Some in Ht).
        congruence.
      * rewrite list_lookup_insert_ne in Ht2 by done. by eapply Hfol.
    + intros k t2 c2 Ht2 Hc2. cbn.
      destruct (decide (k = Z.to_nat hash1)) as [->|Hk].
      * rewrite list_lookup_insert_eq by (by apply lookup_lt_Some in Ht).
        eexists _, _. split; [done|]. split; [done|]. right.
        rewrite Ht in Ht2. rewrite Hc in Hc2.
        inversion Ht2; inversion Hc2; subst t2 c2.
        unfold bucket_of. rewrite bool_decide_eq_false_2 by done.
        rewrite bool_decide_eq_true_2 by done. by rewrite Hst.
      * rewrite list_lookup_insert_ne by done.
        eexists _, _. split; [done|]. split; [done|]. by left.
  - assert (Htd : t <> FTGC_HASHINDEX_DELETED)
      by (unfold FTGC_HASHINDEX_DELETED; destruct Htv; [done | lia]).
    destruct (decide (target = t \/ target ∈ link_stored c)) as [Hdup|Hnew].
    + (* registered already *)
      rewrite (add_key_duplicate hi hash1 target t c) in Hadd by (lia || done).
      inversion Hadd; subst r hi'. split; [done|].
      intros k t2 c2 Ht2 Hc2. eexists _, _. split; [done|]. split; [done|].
      by left.
    + (* appended to the chain *)
      destruct (add_key_append hi hash1 target t c ok) as (c' & Hvals & Hrun);
        [lia | done | done | done | done | tauto | tauto |].
      rewrite Hrun in Hadd. inversion Hadd; subst r hi'. clear Hadd.
      destruct ok; [|done].
      destruct (link_stored_of_values c' (link_stored c ++ [target])
                  FTGC_HASHINDEX_UNUSED) as [Hst' Hla'].
      { rewrite Hvals. by rewrite <- app_assoc. }
      split.
      * intros k t2 c2 Ht2 Hc2 Eu. cbn in Ht2, Hc2.
        destruct (decide (k = Z.to_nat hash1)) as [->|Hk].
        -- congruence.
        -- rewrite list_lookup_insert_ne in Hc2 by done. by eapply Hfol.
      * intros k t2 c2 Ht2 Hc2. cbn.
        destruct (decide (k = Z.to_nat hash1)) as [->|Hk].
        -- rewrite list_lookup_insert_eq by (by apply lookup_lt_Some in Hc).
           eexists _, _. split; [done|]. split; [done|]. right.
           rewrite Ht in Ht2. rewrite Hc in Hc2.
           inversion Ht2; inversion Hc2; subst t2 c2.
           unfold bucket_of. rewrite !bool_decide_eq_false_2 by done.
           by rewrite Hst'.
        -- rewrite list_lookup_insert_ne by done.
           eexists _, _. split; [done|]. split; [done|]. by left.
Qed.

(** A successful [ftgc_dict_set_string], taken apart: the slot it used,
    the dictionary [d2] after the slot was selected, and the heap and
    dictionary it leaves. *)
Lemma set_string_shape (al : dict_allocs) (h h' : gmap Z (list ascii))
    (d d' : ftgc_dict_s) (k1 : list ascii) (value : ptr) (s : list ascii) :
  dict_wf h d -> FTGC_DICT_KEY_BYTES * dict_size d < 2 ^ 31 ->
  (1 <= strlen k1)%nat ->
  caller_string h d value s ->
  string_copy_ok h d k1 (malloc_string al) ->
  ftgc_dict_set_string al h d k1 value = Ok (1, h', d') ->
  exists target d2 tail vt ks' post v_old r hi',
    ((ftgc__dict_find_index_for_key d k1 = Ok target /\
      target <> FTGC_HASHINDEX_UNUSED /\ 0 <= target < num_pairs d /\
      d2 = d) \/
     (ftgc__dict_find_index_for_key d k1 = Ok FTGC_HASHINDEX_UNUSED /\
      target = num_pairs d)) /\
    dict_wf_except (Some target) h d2 /\
    0 <= target < num_pairs d2 /\
    keys d2 = keys d ++ tail /\
    values d2 = values d ++ vt /\ Forall (fun v => owned v = None) vt /\
    hash_index d2 = hash_index d /\
    values d2 !! Z.to_nat target = Some v_old /\
    length ks' = length (keys d2) /\
    drop (Z.to_nat (target * FTGC_DICT_KEY_BYTES)) ks'
      = take 8 (c_str k1) ++ NUL :: post /\
    (forall m, (m < Z.to_nat target * 9 \/ Z.to_nat target * 9 + 9 <= m)%nat ->
       ks' !! m = keys d2 !! m) /\
    ftgc_hashindex_add_key (malloc_node_ok al) (hash_index d)
      (ftgc_hashindex_generate_key_string (hash_index d) k1) target
      = Ok (r, hi') /\
    r <> -1 /\
    h' = <[malloc_string al := c_str s ++ [NUL]]> (released h v_old) /\
    d' = mk_dict (dict_size d2) (num_pairs d2) ks'
           (<[Z.to_nat target :=
                mk_variant NULL (malloc_string al) FTGC_VARTYPE_STRING]>
              (values d2)) hi'.
Proof.
  intros Hwf Hoff Hkey Hcs [Ha Hcopy] Hrun.
  assert (Hb : dict_size d < 2 ^ 30)
    by (unfold FTGC_DICT_KEY_BYTES in Hoff; lia).
  pose proof Hwf as (Hhi & Hts & Hm & Hnp & Hlk & Hlv & Hlive & Hent & Hown).
  pose proof (generate_key_range (hash_index d) k1 Hts Hm) as Hh.
  destruct (bucket_shape None h d _ Hwf Hh)
    as (t & c & Ht & Hc & Hlast & Htb & Hcb & _).
  pose proof (bucket_below _ _ _ Htb Hcb) as Hbb.
  destruct (find_on_bucket h d k1 t c Hwf Ht Hc) as [Hfind Hall].
  (* the second half, once the slot is known *)
  assert (Hstore : forall target d2,
    dict_wf_except (Some target) h d2 -> 0 <= target < num_pairs d2 ->
    target * FTGC_DICT_KEY_BYTES < 2 ^ 31 ->
    caller_string h d2 value s -> hash_index d2 = hash_index d ->
    dict_store al h d2 k1 value target = Ok (1, h', d') ->
    exists ks' post v_old r hi',
      values d2 !! Z.to_nat target = Some v_old /\
      length ks' = length (keys d2) /\
      drop (Z.to_nat (target * FTGC_DICT_KEY_BYTES)) ks'
        = take 8 (c_str k1) ++ NUL :: post /\
      (forall m, (m < Z.to_nat target * 9 \/ Z.to_nat target * 9 + 9 <= m)%nat ->
         ks' !! m = keys d2 !! m) /\
      ftgc_hashindex_add_key (malloc_node_ok al) (hash_index d)
        (ftgc_hashindex_generate_key_string (hash_index d) k1) target
        = Ok (r, hi') /\
      r <> -1 /\
      h' = <[malloc_string al := c_str s ++ [NUL]]> (released h v_old) /\
      d' = mk_dict (dict_size d2) (num_pairs d2) ks'
             (<[Z.to_nat target :=
                  mk_variant NULL (malloc_string al) FTGC_VARTYPE_STRING]>
                (values d2)) hi').
  { intros target d2 Hwf2 Htg Hofft Hcs2 Hhi2 Hst.
    destruct (store_prefix al h d2 k1 value s target Hwf2 Htg Hofft Hcs2 Ha)
      as (ks' & post & v & Hv & Hlen & Hdrop & Hout & Hsp).
    rewrite Hsp, Hhi2 in Hst.
    destruct (add_key_total (hash_index d)
                (ftgc_hashindex_generate_key_string (hash_index d) k1)
                target (malloc_node_ok al) Hhi Hh) as [[r hi'] Hadd].
    rewrite Hadd in Hst. cbn [mbind result_bind] in Hst.
    exists ks', post, v, r, hi'.
    do 5 (split; [done|]).
    case_bool_decide as Er; [by inversion Hst|].
    split; [done|]. by inversion Hst. }
  destruct (first_match_live d k1 _ Hall)
    as (idx & Hfm & [[-> Hnz] | (Hi0 & Hin & Hk0)]).
  - (* the key is new *)
    rewrite Hfm in Hfind.
    destruct (decide (num_pairs d = dict_size d /\
                      (realloc_keys al = None \/ realloc_values al = None)))
      as [[Hfull Hfail] | Hgrow].
    { destruct (select_miss_fail al d k1 Hfind Hfull Hfail) as (d0 & Hsel & _).
      unfold ftgc_dict_set_string in Hrun. rewrite Hsel in Hrun.
      cbn in Hrun. by inversion Hrun. }
    destruct (select_miss_claim al h d k1 Hwf Hb Hfind Hgrow)
      as (d1 & tail & vt & Hsel & Hwf1 & Hnp1 & Hhi1 & Hk1 & Hv1 & Hvt
          & Hlt & Hds).
    set (d2 := mk_dict (dict_size d1) (num_pairs d + 1) (keys d1)
                       (values d1) (hash_index d)) in *.
    assert (Hwf2 : dict_wf_except (Some (num_pairs d)) h d2).
    { pose proof (claimed_wf h d1 Hwf1) as Hcl.
      rewrite Hnp1, Hhi1 in Hcl. apply Hcl. lia. }
    unfold ftgc_dict_set_string in Hrun. rewrite Hsel in Hrun.
    cbn [mbind result_bind] in Hrun.
    destruct (Hstore (num_pairs d) d2 Hwf2)
      as (ks' & post & v_old & r & hi' & H1 & H2 & H3 & H4 & H5 & H6 & H7 & H8);
      [cbn; lia | unfold FTGC_DICT_KEY_BYTES in *; lia | | done | done |].
    { destruct Hcs as [Hs Hnot]. split; [done|]. cbn. rewrite Hv1.
      intros i v Hiv. apply lookup_app_Some in Hiv as [Hiv | [_ Hiv]].
      - by eapply Hnot.
      - rewrite Forall_forall in Hvt.
        rewrite (Hvt v) by (by eapply list_elem_of_lookup_2). done. }
    exists (num_pairs d), d2, tail, vt, ks', post, v_old, r, hi'.
    split; [by right|]. split; [done|]. split; [cbn; lia|].
    do 11 (split; [done|]). done.
  - (* the key is in slot [idx] *)
    rewrite Hfm in Hfind.
    assert (Hidx : 0 <= idx < num_pairs d).
    { rewrite Forall_forall in Hbb. by apply Hbb. }
    assert (Hnu : idx <> FTGC_HASHINDEX_UNUSED)
      by (unfold FTGC_HASHINDEX_UNUSED; lia).
    unfold ftgc_dict_set_string in Hrun.
    rewrite (select_hit al d k1 idx Hfind Hnu) in Hrun.
    cbn [mbind result_bind] in Hrun.
    destruct (Hstore idx d (wf_weaken h d _ Hwf))
      as (ks' & post & v_old & r & hi' & H1 & H2 & H3 & H4 & H5 & H6 & H7 & H8);
      [done | unfold FTGC_DICT_KEY_BYTES in *; lia | done | done | done |].
    exists idx, d, [], [], ks', post, v_old, r, hi'.
    rewrite !app_nil_r.
    split; [by left|]. split; [by apply wf_weaken|].
    do 3 (split; [done|]). split; [constructor|].
    do 8 (split; [done|]). done.
Qed.

Lemma add_key_keeps_size (ok : bool) (hi hi' : ftgc_hashindex_s)
    (key value r : Z) :
  ftgc_hashindex_add_key ok hi key value = Ok (r, hi') ->
  hash_mask hi' = hash_mask hi /\ table_size hi' = table_size hi.
Proof.
  unfold ftgc_hashindex_add_key. intros Hrun.
  destruct (arr_get (table hi) key) as [t|]; [|done]. cbn in Hrun.
  destruct (bool_decide (t = FTGC_HASHINDEX_UNUSED)
            || bool_decide (t = FTGC_HASHINDEX_DELETED)).
  { destruct (arr_set (table hi) key value); [|done].
    cbn in Hrun. by inversion Hrun; subst. }
  case_bool_decide; [by inversion Hrun; subst|].
  destruct (arr_get (chain hi) key) as [c|]; [|done]. cbn in Hrun.
  destruct (ftgc__is_value_in_chain c value); [by inversion Hrun; subst|].
  destruct (arr_set (chain hi) key _); [|done]. cbn in Hrun.
  destruct (node_at _ _ ≫= link_next); by inversion Hrun; subst.
Qed.

(** The comparison of [k2] with a slot that holds the stored form of
    [k1]. *)
Lemma keycmp_other_key (d : ftgc_dict_s) (k1 k2 post : list ascii) (t : Z) :
  0 <= t -> t * FTGC_DICT_KEY_BYTES < 2 ^ 31 ->
  drop (Z.to_nat (t * FTGC_DICT_KEY_BYTES)) (keys d)
    = take 8 (c_str k1) ++ NUL :: post ->
  map fold_case (c_str k2) <> map fold_case (take 8 (c_str k1)) ->
  exists x, keycmp_slot d k2 t = Ok x /\ x <> 0.
Proof.
  intros Ht Hoff Hdrop Hne. unfold keycmp_slot.
  rewrite (key_offset_ok t Ht Hoff). cbn [mbind result_bind].
  rewrite bool_decide_eq_true_2 by (unfold FTGC_DICT_KEY_BYTES; lia).
  rewrite Hdrop.
  destruct (keycmp_folds (take 8 (c_str k1) ++ NUL :: post) k2)
    as (x & Hx & Hiff).
  { apply elem_of_app. right. apply elem_of_cons. by left. }
  exists x. split; [done|]. intros H0. apply Hne. apply Hiff in H0.
  rewrite H0. f_equal. apply c_str_app_nul. apply take_no_nul.
Qed.

(** Two keys that both match a live slot match each other. *)
Lemma keycmp_slot_trans (d : ftgc_dict_s) (k1 k2 : list ascii) (e : Z) :
  0 <= e -> slot_live (keys d) e ->
  keycmp_slot d k1 e = Ok 0 -> keycmp_slot d k2 e = Ok 0 ->
  map fold_case (c_str k2) = map fold_case (c_str k1).
Proof.
  intros He Hl H1 H2.
  destruct (keycmp_slot_live d k1 e He Hl) as [E1 _].
  destruct (keycmp_slot_live d k2 e He Hl) as [E2 _].
  rewrite E1 in H1. rewrite E2 in H2.
  assert (Hnul : NUL ∈ slot_bytes (keys d) e ++ []).
  { apply elem_of_app. left. by apply slot_live_has_nul. }
  destruct (keycmp_folds _ k1 Hnul) as (x1 & Hx1 & Hi1).
  destruct (keycmp_folds _ k2 Hnul) as (x2 & Hx2 & Hi2).
  rewrite Hx1 in H1. rewrite Hx2 in H2. inversion H1; inversion H2; subst.
  rewrite (proj1 Hi1 eq_refl), (proj1 Hi2 eq_refl). done.
Qed.

(** X21: a successful store under [k1] leaves every other key alone. For
    a key [k2] that is not the stored form of [k1] up to case (the first
    eight characters of [k1]), the lookup finds the slot it found before,
    or none as before; [ftgc_dict_get_string] returns what it returned
    before; and the string buffer of the slot found is untouched. This
    holds whether the store overwrote a slot, claimed a new one or grew
    the arrays, on a dictionary that satisfies its invariant, is small
    enough for the [int] offset of every key buffer (at most 238609294
    slots), and has no chain holding values behind a table entry that
    was never used, which the store preserves. *)
Theorem set_string_leaves_other_keys (al : dict_allocs)
    (h h' : gmap Z (list ascii)) (d d' : ftgc_dict_s) (k1 k2 : list ascii)
    (value fallback : ptr) (s : list ascii) :
  dict_wf h d -> chains_follow_table (hash_index d) ->
  FTGC_DICT_KEY_BYTES * dict_size d < 2 ^ 31 -> (1 <= strlen k1)%nat ->
  caller_string h d value s ->
  string_copy_ok h d k1 (malloc_string al) ->
  map fold_case (c_str k2) <> map fold_case (take 8 (c_str k1)) ->
  ftgc_dict_set_string al h d k1 value = Ok (1, h', d') ->
  chains_follow_table (hash_index d') /\
  ftgc__dict_find_index_for_key d' k2 = ftgc__dict_find_index_for_key d k2 /\
  ftgc_dict_get_string d' k2 fallback = ftgc_dict_get_string d k2 fallback /\
  (forall idx v p,
     ftgc__dict_find_index_for_key d k2 = Ok idx ->
     idx <> FTGC_HASHINDEX_UNUSED ->
     values d !! Z.to_nat idx = Some v -> owned v = Some p ->
     values d' !! Z.to_nat idx = Some v /\ h' !! p = h !! p).
Proof.
  intros Hwf Hfol Hb Hkey Hcs Hcopy Hk2 Hrun.
  (* the invariant after the store *)
  assert (Hwf' : dict_wf h' d').
  { destruct (set_string_spec al h d k1 value s Hwf Hb Hkey Hcs Hcopy)
      as (t & c & idx & r & h2 & d2 & _ & _ & _ & _ & Hrun2 & _ & _ & _ & Hsucc).
    rewrite Hrun in Hrun2. inversion Hrun2; subst r h2 d2.
    by destruct (Hsucc eq_refl) as [? _]. }
  destruct (set_string_shape al h h' d d' k1 value s Hwf Hb Hkey Hcs Hcopy Hrun)
    as (target & d2 & tail & vt & ks' & post & v_old & r & hi' & Hsel & Hwf2
        & Htg & Hk12 & Hv12 & Hvt & Hhi2 & Hvold & Hlen & Hdrop & Hout
        & Hadd & Hr & Eh & Ed).
  pose proof Hwf as (Hhi & Hts & Hm & Hnp & Hlk & Hlv & Hlive & Hent & Hown).
  destruct Hcopy as [Ha Hcopy].
  pose proof (generate_key_range (hash_index d) k1 Hts Hm) as Hh1.
  destruct (add_key_keeps_size _ _ _ _ _ _ Hadd) as [Hmask Hsize].
  destruct (add_key_buckets (malloc_node_ok al) (hash_index d) hi'
              (ftgc_hashindex_generate_key_string (hash_index d) k1)
              target r Hhi Hfol)
    as [Hfol' Hbuckets]; [| exact Hh1 | lia | exact Hadd | exact Hr |].
  { destruct Hent as [He1 _]. eapply Forall_impl; [exact He1|].
    cbn. intros x [?|?]; [by left | right; lia]. }
  (* the bucket of [k2], before and after *)
  pose proof (generate_key_range (hash_index d) k2 Hts Hm) as Hh2.
  destruct (bucket_shape None h d _ Hwf Hh2)
    as (t2 & c2 & Ht2 & Hc2 & _ & Htb & Hcb & _).
  pose proof (bucket_below _ _ _ Htb Hcb) as Hbb.
  destruct (find_on_bucket h d k2 t2 c2 Hwf Ht2 Hc2) as [Hfind Hall].
  destruct (Hbuckets _ t2 c2 Ht2 Hc2) as (t2' & c2' & Ht2' & Hc2' & Hbk).
  assert (Hhash' : ftgc_hashindex_generate_key_string (hash_index d') k2
                   = ftgc_hashindex_generate_key_string (hash_index d) k2).
  { apply generate_key_mask. subst d'. cbn. done. }
  assert (Hfind' : ftgc__dict_find_index_for_key d' k2
                   = first_match d' k2 (bucket_of t2' c2')).
  { destruct (find_on_bucket h' d' k2 t2' c2' Hwf') as [-> _];
      [rewrite Hhash'; by subst d' .. | done]. }
  (* the slot written compares unequal to [k2] *)
  assert (Hofft : target * FTGC_DICT_KEY_BYTES < 2 ^ 31).
  { destruct Hwf' as (_ & _ & _ & _ & _ & _ & Hlive' & _).
    destruct (Hlive' target) as [Hofft _];
      [rewrite Ed; cbn; lia | done | done]. }
  destruct (keycmp_other_key d' k1 k2 post target) as (x & Hx & Hx0);
    [lia | done | by subst d' | done |].
  (* the other slots compare as before *)
  assert (Hlen_keys : forall e, 0 <= e < num_pairs d ->
            forall m, (Z.to_nat e * 9 <= m < Z.to_nat e * 9 + 9)%nat ->
              (m < length (keys d))%nat).
  { intros e He m Hm0. unfold FTGC_DICT_KEY_BYTES in Hlk. lia. }
  assert (Hcongr : Forall (fun e =>
            e <> target /\ keycmp_slot d' k2 e = keycmp_slot d k2 e \/
            e = target /\
            exists y, keycmp_slot d k2 e = Ok y /\ y <> 0)
            (bucket_of t2 c2)).
  { rewrite Forall_forall in Hbb, Hall. apply Forall_forall. intros e He.
    specialize (Hbb e He). cbn in Hbb. destruct (Hall e He) as [He0 Hel].
    destruct (decide (e = target)) as [->|Hne].
    - right. split; [done|].
      destruct Hsel as [(Hf1 & Hnu & Hidx & ->) | [_ Et]]; [|lia].
      destruct (keycmp_slot_live d k2 target He0 Hel) as [_ [y Hy]].
      exists y. split; [done|]. intros ->.
      destruct (find_hit_facts h d k1 target Hwf Hf1 Hnu)
        as (_ & _ & _ & _ & _ & _ & _ & _ & _ & Hk0 & Hshort).
      apply Hk2. rewrite take_ge by (unfold strlen in Hshort; lia).
      by apply (keycmp_slot_trans d k1 k2 target).
    - left. split; [done|].
      apply keycmp_slot_unchanged; [done | done |].
      intros m Hm0. subst d'. cbn [keys].
      rewrite Hout by lia. rewrite Hk12.
      apply lookup_app_l. by apply (Hlen_keys e). }
  assert (Hsame : first_match d' k2 (bucket_of t2 c2)
                  = first_match d k2 (bucket_of t2 c2)).
  { apply first_match_congr. eapply Forall_impl; [exact Hcongr|].
    cbn. intros e [[_ He] | [-> (y & Hy & Hy0)]]; [by left | right].
    by exists x, y. }
  assert (Heq : ftgc__dict_find_index_for_key d' k2
                = ftgc__dict_find_index_for_key d k2).
  { rewrite Hfind', Hfind, <- Hsame.
    destruct Hbk as [-> | ->]; [done|].
    by apply (first_match_snoc_miss d' k2 _ target x). }
  (* a slot found for [k2] is not the slot written *)
  assert (Hother : forall idx,
            ftgc__dict_find_index_for_key d k2 = Ok idx ->
            idx <> FTGC_HASHINDEX_UNUSED ->
            0 <= idx < num_pairs d /\ idx <> target).
  { intros idx Hf Hnu.
    destruct (find_hit_facts h d k2 idx Hwf Hf Hnu)
      as (t0 & c0 & _ & Ht0 & Hc0 & _ & Hidx & Hin & _ & Hk0 & _).
    rewrite Ht2 in Ht0. rewrite Hc2 in Hc0.
    inversion Ht0; inversion Hc0; subst t0 c0.
    split; [done|]. intros ->.
    rewrite Forall_forall in Hcongr.
    destruct (Hcongr _ Hin) as [[? _] | [_ (y & Hy & Hy0)]]; [done|].
    rewrite Hk0 in Hy. by inversion Hy. }
  assert (Hvals : forall idx, 0 <= idx < num_pairs d -> idx <> target ->
            values d' !! Z.to_nat idx = values d !! Z.to_nat idx).
  { intros idx Hidx Hne. subst d'. cbn [values].
    rewrite list_lookup_insert_ne by lia. rewrite Hv12.
    apply lookup_app_l. lia. }
  split; [by subst d'|]. split; [done|]. split.
  - unfold ftgc_dict_get_string. rewrite Heq.
    destruct (ftgc__dict_find_index_for_key d k2) as [idx|] eqn:Hf; [|done].
    cbn [mbind result_bind]. case_bool_decide as Eu; [done|]. cbn [negb].
    destruct (Hother idx eq_refl Eu) as [Hidx Hne].
    unfold arr_get. by rewrite (Hvals idx Hidx Hne).
  - intros idx v p Hf Hnu Hv Hp.
    destruct (Hother idx Hf Hnu) as [Hidx Hne].
    split; [by rewrite (Hvals idx Hidx Hne)|].
    destruct Hown as [Hlive_own Hdist].
    assert (Hvin : values d2 !! Z.to_nat idx = Some v).
    { rewrite Hv12. by apply lookup_app_l_Some. }
    assert (Hnat : Z.to_nat idx <> Z.to_nat target) by lia.
    assert (Hold : owned v_old <> Some p).
    { intros Ho. rewrite Hv12 in Hvold.
      apply lookup_app_Some in Hvold as [Hvo | [_ Hvo]].
      - apply Hnat. by apply (Hdist _ _ v v_old p).
      - rewrite Forall_forall in Hvt.
        rewrite (Hvt v_old) in Ho by (by eapply list_elem_of_lookup_2). done. }
    assert (Hpa : p <> malloc_string al).
    { intros ->.
      destruct (Hcopy (Hlive_own _ _ _ Hv Hp)) as (i & w & Hfi & Hi & Hw & Ho).
      destruct Hsel as [(Hf1 & _ & _ & _) | [Hf1 _]];
        rewrite Hf1 in Hfi; inversion Hfi; subst i.
      - apply Hnat. by apply (Hdist _ _ v w (malloc_string al)).
      - unfold FTGC_HASHINDEX_UNUSED in Hi. lia. }
    subst h'. rewrite lookup_insert_ne by done.
    unfold released. destruct (owned v_old) as [q|] eqn:Hq; [|done].
    apply lookup_delete_ne. congruence.
Qed.

End DictFrame.

(** *** The small dictionaries satisfy the invariant *)

Section DictExamples.
Import HashIndex Variant Dict.

(** A successful store keeps the invariant and the caller's string. *)
Lemma set_string_keeps_wf (al : dict_allocs) (h h' : gmap Z (list ascii))
    (d d' : ftgc_dict_s) (key : list ascii) (value : ptr) (s : list ascii) :
  dict_wf h d -> FTGC_DICT_KEY_BYTES * dict_size d < 2 ^ 31 ->
  (1 <= strlen key)%nat ->
  caller_string h d value s ->
  string_copy_ok h d key (malloc_string al) ->
  ftgc_dict_set_string al h d key value = Ok (1, h', d') ->
  dict_wf h' d' /\ caller_string h' d' value s.
Proof.
  intros Hwf Hb Hkey Hcs Hcopy Hrun.
  destruct (set_string_spec al h d key value s Hwf Hb Hkey Hcs Hcopy)
    as (t & c & idx & r & h2 & d2 & _ & _ & _ & _ & Hrun2 & _ & _ & Hcs2 & Hsucc).
  rewrite Hrun in Hrun2. inversion Hrun2; subst r h2 d2.
  split; [|done]. by destruct (Hsucc eq_refl) as [? _].
Qed.

Lemma fresh_copy_ok (h : gmap Z (list ascii)) (d : ftgc_dict_s)
    (key : list ascii) (a : ptr) :
  a <> NULL -> h !! a = None -> string_copy_ok h d key a.
Proof.
  intros Ha Hf. split; [done|]. rewrite Hf. intros [x Hx]. discriminate.
Qed.

Lemma dict4_a_wf :
  dict_wf heap_a dict4_a /\
  caller_string heap_a dict4_a 10 (list_ascii_of_string "v").
Proof.
  apply (set_string_keeps_wf (allocs_ok 1000) heap_v heap_a dict4 dict4_a
           key_a 10).
  - apply dict4_wf.
  - vm_compute. reflexivity.
  - vm_compute. lia.
  - split; [reflexivity|]. intros i v Hv.
    destruct i as [|[|[|[|i]]]]; vm_compute in Hv; inversion Hv; subst;
      discriminate.
  - apply fresh_copy_ok; [discriminate | vm_compute; reflexivity].
  - vm_compute. reflexivity.
Qed.

Lemma dict4_follows : chains_follow_table (hash_index dict4).
Proof.
  intros k t c _ Hc _.
  destruct k as [|[|[|[|k]]]]; vm_compute in Hc; inversion Hc; reflexivity.
Qed.

Lemma dict2_wf (h : gmap Z (list ascii)) : dict_wf h dict2.
Proof.
  destruct (init_dict_shape h (replicate 18 "x"%char) 2 2) as [H _];
    [lia | lia | reflexivity |].
  exact H.
Qed.

Lemma dict2_full_wf : dict_wf heap_ab dict2_full.
Proof.
  set (r1 := ftgc_dict_set_string (allocs_ok 1000) heap_v dict2 key_a 10).
  assert (Hr1 : exists h1 d1, r1 = Ok (1, h1, d1) /\
            ftgc_dict_set_string (allocs_ok 1001) h1 d1 key_b 10
            = Ok (1, heap_ab, dict2_full) /\
            h1 !! 1001 = None /\ dict_size d1 = 2).
  { exists stored_a_in_dict2.1.2, stored_a_in_dict2.2.
    split; [vm_compute; reflexivity|].
    split; [vm_compute; reflexivity|]. split; vm_compute; reflexivity. }
  destruct Hr1 as (h1 & d1 & Hr1 & Hr2 & Hfree & Hsz).
  destruct (set_string_keeps_wf (allocs_ok 1000) heap_v h1 dict2 d1 key_a 10
              (list_ascii_of_string "v")) as [Hwf1 Hcs1].
  - apply dict2_wf.
  - vm_compute. reflexivity.
  - vm_compute. lia.
  - split; [reflexivity|]. intros i v Hv.
    destruct i as [|[|i]]; vm_compute in Hv; inversion Hv; subst; discriminate.
  - apply fresh_copy_ok; [discriminate | vm_compute; reflexivity].
  - exact Hr1.
  - apply (set_string_keeps_wf (allocs_ok 1001) h1 heap_ab d1 dict2_full
             key_b 10 (list_ascii_of_string "v")).
    + exact Hwf1.
    + rewrite Hsz. unfold FTGC_DICT_KEY_BYTES. lia.
    + vm_compute. lia.
    + exact Hcs1.
    + by apply fresh_copy_ok.
    + exact Hr2.
Qed.

End DictExamples.


Lemma set_string_growth_failure_witness :
  exists d0,
    Dict.ftgc_dict_set_string Dict.allocs_moved Dict.heap_ab Dict.dict2_full
      Dict.key_e 10 = Ok (0, Dict.heap_ab, d0) /\
    Dict.ftgc_dict_get_string Dict.dict2_full Dict.key_a 77 = Ok 1000 /\
    Dict.ftgc_dict_get_string d0 Dict.key_a 77 = Fault OutOfBounds.
Proof.
  destruct (set_string_growth_failure Dict.allocs_moved Dict.heap_ab
              Dict.dict2_full Dict.key_e 10) as [_ H].
  - exact dict2_full_wf.
  - vm_compute. reflexivity.
  - vm_compute. reflexivity.
  - destruct H as (d0 & H1 & _ & _ & _ & H2).
    + discriminate.
    + reflexivity.
    + reflexivity.
    + exists d0. split; [exact H1|]. split; [vm_compute; reflexivity|].
      apply (H2 Dict.key_a 0 77); [vm_compute; reflexivity | discriminate].
Defined.

Lemma set_string_leaves_other_keys_witness :
  exists h' d',
    Dict.ftgc_dict_set_string (Dict.allocs_ok 1001) Dict.heap_a Dict.dict4_a
      Dict.key_e 10 = Ok (1, h', d') /\
    Dict.ftgc_dict_get_string d' Dict.key_a 77
      = Dict.ftgc_dict_get_string Dict.dict4_a Dict.key_a 77 /\
    Dict.ftgc_dict_get_string Dict.dict4_a Dict.key_a 77 = Ok 1000.
Proof.
  assert (Hrun : exists h' d',
            Dict.ftgc_dict_set_string (Dict.allocs_ok 1001) Dict.heap_a
              Dict.dict4_a Dict.key_e 10 = Ok (1, h', d')).
  { eexists _, _. vm_compute. reflexivity. }
  destruct Hrun as (h' & d' & Hrun).
  destruct (set_string_leaves_other_keys (Dict.allocs_ok 1001) Dict.heap_a h'
              Dict.dict4_a d' Dict.key_e Dict.key_a 10 77
              (list_ascii_of_string "v"))
    as (_ & _ & H & _).
  - exact (proj1 dict4_a_wf).
  - intros k t c Ht Hc Hu.
    destruct k as [|[|[|[|k]]]]; vm_compute in Ht, Hc;
      inversion Ht; inversion Hc; subst; try reflexivity; discriminate.
  - vm_compute. reflexivity.
  - vm_compute. lia.
  - exact (proj2 dict4_a_wf).
  - apply fresh_copy_ok; [discriminate | vm_compute; reflexivity].
  - vm_compute. discriminate.
  - exact Hrun.
  - exists h', d'. split; [exact Hrun|]. split; [exact H|].
    vm_compute. reflexivity.
Defined.
